(** * GRAPE: the Gaussian primitive population manager

    A shallow embedding of [scene/gaussian_model.py] (class [GaussianModel]):
    the per-primitive parallel arrays, the Adam optimizer state that shadows
    them, the resizing protocol ([_prune_optimizer], [cat_tensors_to_optimizer]),
    densification ([densify_and_clone], [densify_and_split]), pruning,
    initialisation from a point cloud and the PLY writer and reader; then
    checkpoints ([capture], [restore]), [reset_opacity], [get_features],
    [oneupSHdegree] and the sampling script [createPCFromGSP.py].

    Modelling conventions.
    - A float32 scalar is a [spec_float] operated on by the IEEE-754 binary32
      instances of [SpecFloat] (precision 24, emax 128): division by zero, NaN
      and infinities behave as in torch.  Literals that multiply or bound a
      float32 tensor are taken at tensor precision.
    - A Python float (the thresholds and the extent handed to
      [densify_and_prune], [percent_dense]) is a [spec_float] of binary64
      (module [F64]); the products [percent_dense * scene_extent],
      [0.1 * extent] and [0.8 * N] are binary64 products, and a Python float
      is rounded to float32 where it is compared with, or divides, a float32
      tensor.
    - A tensor of shape (n, d1, .., dk) is a record of its trailing shape
      [dims = [d1; ..; dk]] and its [n] rows, each row the row-major flattening
      of one primitive's entry.  One-dimensional tensors (masks, ids,
      [max_radii2D]) are plain lists.
    - [squeeze()] is only applied by the source to (n,1)-shaped tensors: it
      gives a one-dimensional tensor of the n entries, and a zero-dimensional
      one when n = 1.  A zero-dimensional mask that indexes an array puts a
      new axis of length one or zero in front of it; in [logical_and] and
      [logical_or] an operand with a single entry is broadcast.  The operands
      of any other pointwise operation must have the same number of rows.
    - A Python exception is [None] in the option monad.
    - Functions of torch and of other packages whose code is not part of the
      class (exp, log, sigmoid, [build_rotation], [inverse_sigmoid], [RGB2SH],
      [distCUDA2], Open3D's normal estimation, scipy's matrix to quaternion
      conversion) are the fields of the class [Externals]; the theorems hold
      for every interpretation of them. *)

From Stdlib Require Import String Ascii.
From Stdlib Require Import List ZArith Bool Lia PeanoNat.
From Stdlib Require Import Floats.SpecFloat.
From Stdlib Require Import DecimalString DecimalNat.
From Stdlib Require DecimalFacts.
Import ListNotations.

Set Implicit Arguments.

(** ** float32 scalars *)

Module F32.
Definition prec : Z := 24.
Definition emax : Z := 128.
Abbreviation t := spec_float.

Definition zero : t := S754_zero false.
Definition one : t := SFone prec emax.
Definition inf : t := S754_infinity false.

Definition add : t -> t -> t := SFadd prec emax.
Definition sub : t -> t -> t := SFsub prec emax.
Definition mul : t -> t -> t := SFmul prec emax.
Definition div : t -> t -> t := SFdiv prec emax.
Definition sqrt : t -> t := SFsqrt prec emax.

(** [x < y], [x <= y], [x > y], [x >= y], [x == y]; all false on NaN. *)
Definition ltb (x y : t) : bool := SFltb x y.
Definition leb (x y : t) : bool := SFleb x y.
Definition gtb (x y : t) : bool := SFltb y x.
Definition geb (x y : t) : bool := SFleb y x.
Definition eqb (x y : t) : bool := SFeqb x y.

Definition isnan (x : t) : bool :=
  match x with S754_nan => true | _ => false end.

(** Python truthiness of a float: false exactly on [0.0] and [-0.0]. *)
Definition truthy (x : t) : bool :=
  match x with S754_zero _ => false | _ => true end.

(** The float32 nearest to an integer, and to a decimal literal [n/d]. *)
Definition of_Z (z : Z) : t := binary_normalize prec emax z 0 false.
Definition of_ratio (n d : Z) : t := div (of_Z n) (of_Z d).

(** [torch.max] of two entries: NaN propagates. *)
Definition max (x y : t) : t :=
  if isnan x then x else if isnan y then y else if ltb x y then y else x.
Definition min (x y : t) : t :=
  if isnan x then x else if isnan y then y else if ltb y x then y else x.

(** [torch.clamp(x, lo, hi)]. *)
Definition clamp (x lo hi : t) : t := min (max x lo) hi.
End F32.

Abbreviation F := spec_float.

(** ** Python floats *)

Module F64.
Definition prec : Z := 53.
Definition emax : Z := 1024.

(** [x * y] on Python floats. *)
Definition mul : spec_float -> spec_float -> spec_float := SFmul prec emax.

(** The Python float of an integer, and of a decimal literal [n/d]. *)
Definition of_Z (z : Z) : spec_float := binary_normalize prec emax z 0 false.
Definition of_ratio (n d : Z) : spec_float := SFdiv prec emax (of_Z n) (of_Z d).

(** The float32 nearest to a Python float: the value that torch compares
    with the entries of a float32 tensor, or divides them by. *)
Definition to_f32 (x : spec_float) : F :=
  match x with
  | S754_finite s m e => binary_round F32.prec F32.emax s m e
  | _ => x
  end.
End F64.

(** A Python float. *)
Abbreviation D := spec_float.

(** ** The option monad for operations that may raise *)

Definition bind {A B} (m : option A) (k : A -> option B) : option B :=
  match m with Some a => k a | None => None end.

Notation "x <- m ;; k" := (bind m (fun x => k))
  (at level 61, m at next level, right associativity).
Notation "' p <- m ;; k" := (bind m (fun x => match x with p => k end))
  (at level 61, p pattern, m at next level, right associativity).

(** ** Tensors *)

Abbreviation row := (list spec_float).

Record tensor : Type := mkTensor { dims : list nat; rows : list row }.

(** [t.shape[0]] *)
Definition shape0 (t : tensor) : nat := length (rows t).

Definition dims_eqb (a b : list nat) : bool :=
  if list_eq_dec Nat.eq_dec a b then true else false.

(** Number of scalars of one entry: the product of the trailing shape. *)
Definition width (d : list nat) : nat := fold_right Nat.mul 1%nat d.

(** [torch.zeros((n, d1, .., dk))] *)
Definition zeros (n : nat) (d : list nat) : tensor :=
  mkTensor d (repeat (repeat F32.zero (width d)) n).

(** [torch.zeros_like(t)] *)
Definition zeros_like (t : tensor) : tensor :=
  mkTensor (dims t) (map (map (fun _ => F32.zero)) (rows t)).

(** The entries of [l] at which [mask] holds, in order. *)
Fixpoint select {A} (mask : list bool) (l : list A) : list A :=
  match mask, l with
  | b :: m, x :: l' => if b then x :: select m l' else select m l'
  | _, _ => []
  end.

(** [l[mask]] for a boolean mask: an IndexError unless the mask has the
    length of [l]. *)
Definition index_mask {A} (l : list A) (mask : list bool) : option (list A) :=
  if Nat.eqb (length mask) (length l) then Some (select mask l) else None.

Definition tensor_index (t : tensor) (mask : list bool) : option tensor :=
  r <- index_mask (rows t) mask ;; Some (mkTensor (dims t) r).

(** [torch.cat((a, b), dim=0)]: the trailing shapes must agree, except that
    a one-dimensional empty tensor (shape (0,)) is skipped. *)
Definition is_empty0 (t : tensor) : bool :=
  match dims t, rows t with [], [] => true | _, _ => false end.

Definition cat (a b : tensor) : option tensor :=
  if is_empty0 a then Some b
  else if is_empty0 b then Some a
  else if dims_eqb (dims a) (dims b)
  then Some (mkTensor (dims a) (rows a ++ rows b))
  else None.

(** [t.repeat(n, 1, ..)]: [n] copies of the whole tensor, one after the other. *)
Fixpoint tile {A} (n : nat) (l : list A) : list A :=
  match n with O => [] | S n' => l ++ tile n' l end.

Definition tensor_repeat (n : nat) (t : tensor) : tensor :=
  mkTensor (dims t) (tile n (rows t)).

(** Pointwise operations on two lists of the same length. *)
Fixpoint zip_with {A B C} (f : A -> B -> C) (a : list A) (b : list B) : list C :=
  match a, b with
  | x :: a', y :: b' => f x y :: zip_with f a' b'
  | _, _ => []
  end.

Definition pointwise {A B C} (f : A -> B -> C) (a : list A) (b : list B)
  : option (list C) :=
  if Nat.eqb (length a) (length b) then Some (zip_with f a b) else None.

(** Broadcasting of two one-dimensional operands: the lengths agree, or the
    operand with a single entry is repeated along the other. *)
Definition broadcast {A C} (f : A -> A -> C) (a b : list A) : option (list C) :=
  if Nat.eqb (length a) (length b) then Some (zip_with f a b)
  else match a, b with
       | [x], _ => Some (map (f x) b)
       | _, [y] => Some (map (fun x => f x y) a)
       | _, _ => None
       end.

(** [torch.logical_and], [torch.logical_or] and [~] on masks. *)
Definition logical_and (a b : list bool) : option (list bool) := broadcast andb a b.
Definition logical_or (a b : list bool) : option (list bool) := broadcast orb a b.
Definition logical_not (a : list bool) : list bool := map negb a.

(** [a / b] for [a] of shape (n, w) and [b] of shape (n, 1): every entry of a
    row of [a] is divided by the single entry of the row of [b]. *)
Definition row_div (a b : row) : row :=
  match b with
  | [d] => map (fun x => F32.div x d) a
  | _ => zip_with F32.div a b
  end.

Definition tensor_div (a b : tensor) : option tensor :=
  r <- pointwise row_div (rows a) (rows b) ;; Some (mkTensor (dims a) r).

(** [torch.norm(t, dim=-1)]: the 2-norm of every row; along an axis of
    length one torch returns the absolute value of the entry. *)
Definition sum_sq (r : row) : F :=
  fold_left (fun acc x => F32.add acc (F32.mul x x)) r F32.zero.
Definition row_norm (r : row) : F :=
  match r with
  | [x] => SFabs x
  | _ => F32.sqrt (sum_sq r)
  end.

(** [torch.max(t, dim=1).values] on a matrix: an error when the reduced
    axis is empty or missing.  On a tensor with further axes the result
    keeps them, and the two-dimensional mask built from it fits none of the
    arrays that the source indexes with it: the error of that indexing is
    raised here. *)
Definition row_max (r : row) : F :=
  match r with [] => F32.zero | x :: r' => fold_left F32.max r' x end.

Definition max_dim1 (t : tensor) : option (list F) :=
  match dims t with
  | [w] => if Nat.eqb w 0 then None else Some (map row_max (rows t))
  | _ => None
  end.

(** [t.squeeze()] of an (n,1) tensor: the one-dimensional tensor of its
    entries, and a zero-dimensional tensor when n = 1. *)
Inductive squeezed (A : Type) : Type :=
| Dim0 (x : A)
| Dim1 (l : list A).

Arguments Dim0 {A} x.
Arguments Dim1 {A} l.

Definition squeeze (t : tensor) : squeezed F :=
  match rows t with
  | [r] => Dim0 (hd F32.zero r)
  | rs => Dim1 (map (fun r => hd F32.zero r) rs)
  end.

(** An elementwise test on a squeezed tensor, and its entries as the
    operand of a broadcasting operation. *)
Definition squeezed_map {A B} (f : A -> B) (q : squeezed A) : squeezed B :=
  match q with
  | Dim0 x => Dim0 (f x)
  | Dim1 l => Dim1 (map f l)
  end.

Definition entries {A} (q : squeezed A) : list A :=
  match q with
  | Dim0 x => [x]
  | Dim1 l => l
  end.

(** ** The optimizer: parameter groups and Adam's moment estimates

    [optimizer.state] is a dictionary keyed by the parameter object; every
    group holds exactly one parameter, so the entry of a group's parameter
    is kept beside it ([None] until Adam has taken a step on it). *)

Record adam_state : Type := mkAdam { exp_avg : tensor; exp_avg_sq : tensor }.

Record param_group : Type := mkGroup {
  name : string;
  param : tensor;                       (* group["params"][0] *)
  stored_state : option adam_state      (* optimizer.state.get(param, None) *)
}.

(** A Python dict from names to tensors: the binding written last wins. *)
Definition dict : Type := list (string * tensor).

Definition dict_set (d : dict) (k : string) (v : tensor) : dict := (k, v) :: d.

Fixpoint dict_get (d : dict) (k : string) : option tensor :=
  match d with
  | [] => None
  | (k', v) :: d' => if String.eqb k k' then Some v else dict_get d' k
  end.

(** Elementwise maps and the in-place masked update [t[sel] += u]. *)
Definition tensor_map (f : F -> F) (t : tensor) : tensor :=
  mkTensor (dims t) (map (map f) (rows t)).

Fixpoint scatter {A} (sel : list bool) (l : list A) (vals : list A) : list A :=
  match sel, l with
  | b :: sel', x :: l' =>
      if b then
        match vals with
        | v :: vals' => v :: scatter sel' l' vals'
        | [] => x :: scatter sel' l' []
        end
      else x :: scatter sel' l' vals
  | _, _ => l
  end.

Definition masked_iadd (t : tensor) (sel : list bool) (u : tensor) : option tensor :=
  cur <- tensor_index t sel ;;
  sum <- pointwise (zip_with F32.add) (rows cur) (rows u) ;;
  Some (mkTensor (dims t) (scatter sel (rows t) sum)).

(** [t[b]] for a zero-dimensional boolean [b]: the whole of [t] behind a new
    leading axis of length one, or nothing behind one of length zero. *)
Definition index0 (t : tensor) (b : bool) : tensor :=
  mkTensor (shape0 t :: dims t) (if b then [concat (rows t)] else []).

(** [t[b] += u] for a zero-dimensional boolean [b]: [u] is added to
    [t[b]], which has the shape of [t] behind its new axis, in place; [u]
    must have the rows of [t] or a single row, or the sum would not have
    the shape of [t[b]] (a RuntimeError).  Nothing is written when [b] is
    false. *)
Definition masked_iadd0 (t : tensor) (b : bool) (u : tensor) : option tensor :=
  if Nat.eqb (shape0 u) (shape0 t)
  then Some (if b then mkTensor (dims t) (zip_with (zip_with F32.add) (rows t) (rows u))
             else t)
  else match rows u with
       | [r] => Some (if b then mkTensor (dims t) (map (fun x => zip_with F32.add x r) (rows t))
                      else t)
       | _ => None
       end.

(** [grads[grads.isnan()] = 0.0] *)
Definition nan_to_zero (t : tensor) : tensor :=
  tensor_map (fun x => if F32.isnan x then F32.zero else x) t.

(** [torch.bmm(R, v.unsqueeze(-1)).squeeze(-1)] for one 3x3 matrix (row-major)
    and one vector. *)
Definition nth_f (r : row) (i : nat) : F := nth i r F32.zero.

Definition matvec (R v : row) : row :=
  map (fun i =>
         F32.add (F32.add (F32.mul (nth_f R (3 * i)) (nth_f v 0))
                          (F32.mul (nth_f R (3 * i + 1)) (nth_f v 1)))
                 (F32.mul (nth_f R (3 * i + 2)) (nth_f v 2)))
      [0; 1; 2]%nat.

(** [torch.cross] of two 3-vectors (taken along the last axis). *)
Definition cross (a b : row) : row :=
  [ F32.sub (F32.mul (nth_f a 1) (nth_f b 2)) (F32.mul (nth_f a 2) (nth_f b 1));
    F32.sub (F32.mul (nth_f a 2) (nth_f b 0)) (F32.mul (nth_f a 0) (nth_f b 2));
    F32.sub (F32.mul (nth_f a 0) (nth_f b 1)) (F32.mul (nth_f a 1) (nth_f b 0)) ].

(** [torch.normal(mean, std)]: a standard normal draw [z i j] for the entry
    [j] of row [i], scaled by [std] and shifted by [mean]. *)
Fixpoint imap {A B} (f : nat -> A -> B) (i : nat) (l : list A) : list B :=
  match l with
  | [] => []
  | x :: l' => f i x :: imap f (S i) l'
  end.

Definition normal (z : nat -> nat -> F) (means stds : tensor) : tensor :=
  mkTensor (dims stds)
    (imap (fun i ms =>
             imap (fun j m_s => F32.add (F32.mul (z i j) (snd m_s)) (fst m_s))
                  0 (combine (fst ms) (snd ms)))
          0 (combine (rows means) (rows stds))).

(** ** Functions implemented outside the class *)

Class Externals : Type := {
  t_exp : F -> F;                        (* torch.exp, one entry *)
  t_log : F -> F;                        (* torch.log *)
  t_sigmoid : F -> F;                    (* torch.sigmoid *)
  inverse_sigmoid : F -> F;              (* utils.general_utils *)
  build_rotation : row -> row;           (* quaternion to 3x3 matrix, one row *)
  RGB2SH : F -> F;                       (* utils.sh_utils *)
  distCUDA2 : list row -> nat -> F;      (* simple_knn: entry i of the result *)
  as_quat : row -> row;                  (* scipy: 3x3 matrix to (x, y, z, w) *)
  estimate_normal : list row -> row -> row  (* Open3D: the normal at a point *)
}.

(** ** The model *)

(** [_normal] is assigned [None], a torch tensor or a numpy array. *)
Inductive normal_value : Type :=
| PyNone
| TorchTensor (t : tensor)
| NdArray (a : tensor).

Record GaussianModel : Type := mkModel {
  active_sh_degree : nat;
  max_sh_degree : nat;
  _normal : normal_value;
  _score : tensor;
  _type : tensor;
  _scene_scale : tensor;
  _xyz : tensor;
  _xyz_id : list nat;
  modify_id : list nat;
  _features_dc : tensor;
  _features_rest : tensor;
  _scaling : tensor;
  _rotation : tensor;
  _opacity : tensor;
  max_radii2D : list F;
  xyz_gradient_accum : tensor;
  position_gradient_accum : tensor;
  denom : tensor;
  optimizer : option (list param_group);
  percent_dense : F;
  spatial_lr_scale : F
}.

(** [torch.empty(0)] *)
Definition empty0 : tensor := mkTensor [] [].

(** [GaussianModel.__init__(sh_degree)] *)
Definition init (sh_degree : nat) : GaussianModel :=
  {| active_sh_degree := 0; max_sh_degree := sh_degree;
     _normal := TorchTensor empty0; _score := empty0; _type := empty0;
     _scene_scale := empty0; _xyz := empty0; _xyz_id := []; modify_id := [];
     _features_dc := empty0; _features_rest := empty0; _scaling := empty0;
     _rotation := empty0; _opacity := empty0; max_radii2D := [];
     xyz_gradient_accum := empty0; position_gradient_accum := empty0;
     denom := empty0; optimizer := None;
     percent_dense := F32.zero; spatial_lr_scale := F32.zero |}.

(** The input of [create_from_pcd]. *)
Record BasicPointCloud : Type := mkPcd {
  points : tensor; colors : tensor; normals : tensor; types : tensor
}.

Section Model.
Context {E : Externals}.

(** The activated views. *)
Definition get_scaling (self : GaussianModel) : tensor := tensor_map t_exp (_scaling self).
Definition get_opacity (self : GaussianModel) : tensor := tensor_map t_sigmoid (_opacity self).
Definition get_xyz (self : GaussianModel) : tensor := _xyz self.

Definition computeNormal (self : GaussianModel) : normal_value := PyNone.

Definition set_normal (self : GaussianModel) (v : normal_value) : GaussianModel :=
  {| active_sh_degree := active_sh_degree self;
     max_sh_degree := max_sh_degree self;
     _normal := v;
     _score := _score self;
     _type := _type self;
     _scene_scale := _scene_scale self;
     _xyz := _xyz self;
     _xyz_id := _xyz_id self;
     modify_id := modify_id self;
     _features_dc := _features_dc self;
     _features_rest := _features_rest self;
     _scaling := _scaling self;
     _rotation := _rotation self;
     _opacity := _opacity self;
     max_radii2D := max_radii2D self;
     xyz_gradient_accum := xyz_gradient_accum self;
     position_gradient_accum := position_gradient_accum self;
     denom := denom self;
     optimizer := optimizer self;
     percent_dense := percent_dense self;
     spatial_lr_scale := spatial_lr_scale self |}.

(** Assignment to [_xyz_id] and [modify_id]. *)
Definition set_ids (self : GaussianModel) (ids modified : list nat) : GaussianModel :=
  {| active_sh_degree := active_sh_degree self;
     max_sh_degree := max_sh_degree self;
     _normal := _normal self;
     _score := _score self;
     _type := _type self;
     _scene_scale := _scene_scale self;
     _xyz := _xyz self;
     _xyz_id := ids;
     modify_id := modified;
     _features_dc := _features_dc self;
     _features_rest := _features_rest self;
     _scaling := _scaling self;
     _rotation := _rotation self;
     _opacity := _opacity self;
     max_radii2D := max_radii2D self;
     xyz_gradient_accum := xyz_gradient_accum self;
     position_gradient_accum := position_gradient_accum self;
     denom := denom self;
     optimizer := optimizer self;
     percent_dense := percent_dense self;
     spatial_lr_scale := spatial_lr_scale self |}.

Definition reset_xyz_id (self : GaussianModel) : GaussianModel :=
  let number_point := shape0 (_xyz self) in
  set_ids self (seq 0 number_point) (modify_id self).

(** The raw scales of one point at initialisation, before the type fix-up. *)
Definition init_scales (dist2 : F) : row :=
  let scales := F32.sqrt (F32.div dist2 (F32.of_Z 2)) in
  let zero := F32.of_ratio 1 1000 in
  map t_log [scales; scales; zero].

(** [scales[:, 2][m] = scales[:, 1][m]] on one row selected by the mask. *)
Definition third_from_second (r : row) : row :=
  match r with
  | a :: b :: _ :: r' => a :: b :: b :: r'
  | _ => r
  end.

(** The quaternion (w, x, y, z) of one point, from its normal. *)
Definition init_rotation (directions : row) : row :=
  let directions_x0 := map (fun d => F32.sub F32.one d) directions in
  let directions_x1 := cross directions directions_x0 in
  let n := row_norm directions_x1 in
  let directions_x := map (fun x => F32.div x n) directions_x1 in
  let directions_y := cross directions directions_x in
  let rotation :=
    [ nth_f directions_x 0; nth_f directions_y 0; nth_f directions 0;
      nth_f directions_x 1; nth_f directions_y 1; nth_f directions 1;
      nth_f directions_x 2; nth_f directions_y 2; nth_f directions 2 ] in
  let quats := as_quat rotation in
  [ nth_f quats 3; nth_f quats 0; nth_f quats 1; nth_f quats 2 ].

(** [rots[:, 0] = ..] and [rots[:, 1:4] = ..]: one quaternion per normal
    is written to the [n] rows of [rots]; a single one is broadcast to all
    rows, any other number is an error. *)
Definition assign_rows {A} (n : nat) (l : list A) : option (list A) :=
  if Nat.eqb (length l) n then Some l
  else match l with
       | [x] => Some (repeat x n)
       | _ => None
       end.

(** [scales[:, 2][m] = scales[:, 1][m]] for the mask [m]: a
    zero-dimensional mask selects all rows or none, a one-dimensional one
    must have a flag per row. *)
Definition copy_second_scale (m : squeezed bool) (scales : list row)
  : option (list row) :=
  match m with
  | Dim0 b => Some (if b then map third_from_second scales else scales)
  | Dim1 l =>
      if Nat.eqb (length l) (length scales)
      then Some (zip_with (fun (b : bool) r => if b then third_from_second r else r)
                          l scales)
      else None
  end.

Definition create_from_pcd (self : GaussianModel) (pcd : BasicPointCloud)
    (spatial_lr_scale : D) : option GaussianModel :=
  let n := shape0 (points pcd) in
  let fused_point_cloud := points pcd in
  let fused_color := tensor_map RGB2SH (colors pcd) in
  let coeffs := ((max_sh_degree self + 1) * (max_sh_degree self + 1))%nat in
  let dist2 :=
    map (fun i => F32.clamp (distCUDA2 (rows (points pcd)) i)
                            (F32.of_ratio 1 10000000) (F32.of_ratio 1 100))
        (seq 0 n) in
  let scales0 := map init_scales dist2 in
  rots <- assign_rows n (map init_rotation (rows (normals pcd))) ;;
  let opacities :=
    repeat [inverse_sigmoid (F32.mul (F32.of_ratio 4 10) F32.one)] n in
  let scene_scale := mkTensor [] [[F32.one]] in
  let type_point_maks :=
    squeezed_map (fun t => F32.eqb t F32.zero) (squeeze (types pcd)) in
  scales <- copy_second_scale type_point_maks scales0 ;;
    let self1 :=
      {| active_sh_degree := active_sh_degree self;
         max_sh_degree := max_sh_degree self;
         _normal := _normal self;
         _score := mkTensor [1%nat] (map (fun d => [F32.sqrt d]) dist2);
         _type := types pcd;
         _scene_scale := scene_scale;
         _xyz := fused_point_cloud;
         _xyz_id := _xyz_id self;
         modify_id := modify_id self;
         _features_dc := zeros (shape0 fused_color) [1; 3]%nat;
         _features_rest := zeros (shape0 fused_color) [(coeffs - 1)%nat; 3%nat];
         _scaling := mkTensor [3%nat] scales;
         _rotation := mkTensor [4%nat] rots;
         _opacity := mkTensor [1%nat] opacities;
         max_radii2D := repeat F32.zero n;
         xyz_gradient_accum := xyz_gradient_accum self;
         position_gradient_accum := position_gradient_accum self;
         denom := denom self;
         optimizer := optimizer self;
         percent_dense := percent_dense self;
         spatial_lr_scale := spatial_lr_scale |} in
    let self2 := reset_xyz_id self1 in
    Some (set_normal self2 (computeNormal self2)).

(** [training_setup]: the accumulators are zeroed and Adam is created over
    the seven parameter groups (learning rates are not modelled); Adam's
    state is empty until its first step. *)
Definition training_setup (self : GaussianModel) (percent_dense_arg : F)
  : GaussianModel :=
  let n := shape0 (get_xyz self) in
  let l :=
    [ mkGroup "scene_scale" (_scene_scale self) None;
      mkGroup "xyz" (_xyz self) None;
      mkGroup "f_dc" (_features_dc self) None;
      mkGroup "f_rest" (_features_rest self) None;
      mkGroup "opacity" (_opacity self) None;
      mkGroup "scaling" (_scaling self) None;
      mkGroup "rotation" (_rotation self) None ] in
  {| active_sh_degree := active_sh_degree self;
     max_sh_degree := max_sh_degree self;
     _normal := _normal self;
     _score := _score self;
     _type := _type self;
     _scene_scale := _scene_scale self;
     _xyz := _xyz self;
     _xyz_id := _xyz_id self;
     modify_id := modify_id self;
     _features_dc := _features_dc self;
     _features_rest := _features_rest self;
     _scaling := _scaling self;
     _rotation := _rotation self;
     _opacity := _opacity self;
     max_radii2D := max_radii2D self;
     xyz_gradient_accum := zeros n [1%nat];
     position_gradient_accum := zeros n [3%nat];
     denom := zeros n [1%nat];
     optimizer := Some l;
     percent_dense := percent_dense_arg;
     spatial_lr_scale := spatial_lr_scale self |}.

(** ** The optimizer-state resizer *)

(** [_prune_optimizer(mask)]: the loop over [optimizer.param_groups], with
    the dictionary [optimizable_tensors] built along the way. *)
Fixpoint _prune_optimizer (groups : list param_group) (mask : list bool)
    (optimizable_tensors : dict) : option (list param_group * dict) :=
  match groups with
  | [] => Some ([], optimizable_tensors)
  | group :: rest =>
      if String.eqb (name group) "scene_scale" then
        ' (rest', d) <- _prune_optimizer rest mask optimizable_tensors ;;
        Some (group :: rest', d)
      else
        match stored_state group with
        | Some st =>
            ea <- tensor_index (exp_avg st) mask ;;
            eas <- tensor_index (exp_avg_sq st) mask ;;
            p <- tensor_index (param group) mask ;;
            ' (rest', d) <- _prune_optimizer rest mask
                              (dict_set optimizable_tensors (name group) p) ;;
            Some (mkGroup (name group) p (Some (mkAdam ea eas)) :: rest', d)
        | None =>
            p <- tensor_index (param group) mask ;;
            ' (rest', d) <- _prune_optimizer rest mask
                              (dict_set optimizable_tensors (name group) p) ;;
            Some (mkGroup (name group) p None :: rest', d)
        end
  end.

Definition prune_points (self : GaussianModel) (mask : list bool)
  : option GaussianModel :=
  let valid_points_mask := logical_not mask in
  groups <- optimizer self ;;
  ' (groups', optimizable_tensors) <- _prune_optimizer groups valid_points_mask [] ;;
  xyz <- dict_get optimizable_tensors "xyz" ;;
  f_dc <- dict_get optimizable_tensors "f_dc" ;;
  f_rest <- dict_get optimizable_tensors "f_rest" ;;
  opacity <- dict_get optimizable_tensors "opacity" ;;
  scaling <- dict_get optimizable_tensors "scaling" ;;
  rotation <- dict_get optimizable_tensors "rotation" ;;
  xga <- tensor_index (xyz_gradient_accum self) valid_points_mask ;;
  pga <- tensor_index (position_gradient_accum self) valid_points_mask ;;
  den <- tensor_index (denom self) valid_points_mask ;;
  radii <- index_mask (max_radii2D self) valid_points_mask ;;
  score <- tensor_index (_score self) valid_points_mask ;;
  ids <- index_mask (_xyz_id self) valid_points_mask ;;
  type <- tensor_index (_type self) valid_points_mask ;;
  Some {| active_sh_degree := active_sh_degree self;
          max_sh_degree := max_sh_degree self;
          _normal := _normal self;
          _score := score;
          _type := type;
          _scene_scale := _scene_scale self;
          _xyz := xyz;
          _xyz_id := ids;
          modify_id := modify_id self;
          _features_dc := f_dc;
          _features_rest := f_rest;
          _scaling := scaling;
          _rotation := rotation;
          _opacity := opacity;
          max_radii2D := radii;
          xyz_gradient_accum := xga;
          position_gradient_accum := pga;
          denom := den;
          optimizer := Some groups';
          percent_dense := percent_dense self;
          spatial_lr_scale := spatial_lr_scale self |}.

(** [cat_tensors_to_optimizer(tensors_dict)] *)
Fixpoint cat_tensors_to_optimizer (groups : list param_group) (tensors_dict : dict)
    (optimizable_tensors : dict) : option (list param_group * dict) :=
  match groups with
  | [] => Some ([], optimizable_tensors)
  | group :: rest =>
      if String.eqb (name group) "scene_scale" then
        ' (rest', d) <- cat_tensors_to_optimizer rest tensors_dict optimizable_tensors ;;
        Some (group :: rest', d)
      else
        extension_tensor <- dict_get tensors_dict (name group) ;;
        match stored_state group with
        | Some st =>
            ea <- cat (exp_avg st) (zeros_like extension_tensor) ;;
            eas <- cat (exp_avg_sq st) (zeros_like extension_tensor) ;;
            p <- cat (param group) extension_tensor ;;
            ' (rest', d) <- cat_tensors_to_optimizer rest tensors_dict
                              (dict_set optimizable_tensors (name group) p) ;;
            Some (mkGroup (name group) p (Some (mkAdam ea eas)) :: rest', d)
        | None =>
            p <- cat (param group) extension_tensor ;;
            ' (rest', d) <- cat_tensors_to_optimizer rest tensors_dict
                              (dict_set optimizable_tensors (name group) p) ;;
            Some (mkGroup (name group) p None :: rest', d)
        end
  end.

Definition densification_postfix (self : GaussianModel)
    (new_xyz new_features_dc new_features_rest new_opacities new_scaling
     new_rotation new_score : tensor) (new_xyz_id : list nat) (new_type : tensor)
  : option GaussianModel :=
  let d := dict_set (dict_set (dict_set (dict_set (dict_set (dict_set []
             "xyz" new_xyz) "f_dc" new_features_dc) "f_rest" new_features_rest)
             "opacity" new_opacities) "scaling" new_scaling) "rotation" new_rotation in
  groups <- optimizer self ;;
  ' (groups', optimizable_tensors) <- cat_tensors_to_optimizer groups d [] ;;
  xyz <- dict_get optimizable_tensors "xyz" ;;
  f_dc <- dict_get optimizable_tensors "f_dc" ;;
  f_rest <- dict_get optimizable_tensors "f_rest" ;;
  opacity <- dict_get optimizable_tensors "opacity" ;;
  scaling <- dict_get optimizable_tensors "scaling" ;;
  rotation <- dict_get optimizable_tensors "rotation" ;;
  let n := shape0 xyz in
  score <- cat (_score self) new_score ;;
  type <- cat (_type self) new_type ;;
  Some {| active_sh_degree := active_sh_degree self;
          max_sh_degree := max_sh_degree self;
          _normal := _normal self;
          _score := score;
          _type := type;
          _scene_scale := _scene_scale self;
          _xyz := xyz;
          _xyz_id := _xyz_id self ++ new_xyz_id;
          modify_id := modify_id self;
          _features_dc := f_dc;
          _features_rest := f_rest;
          _scaling := scaling;
          _rotation := rotation;
          _opacity := opacity;
          max_radii2D := repeat F32.zero n;
          xyz_gradient_accum := zeros n [1%nat];
          position_gradient_accum := zeros n [3%nat];
          denom := zeros n [1%nat];
          optimizer := Some groups';
          percent_dense := percent_dense self;
          spatial_lr_scale := spatial_lr_scale self |}.

(** ** Densification *)

Definition count_true (m : list bool) : nat := length (filter (fun b => b) m).

(** [torch.norm(grads, dim=-1) >= grad_threshold]: one flag per row of a
    matrix, a single flag for a vector; with further axes the mask has two
    axes or more and fits none of the arrays it indexes. *)
Definition norm_reaches (grads : tensor) (grad_threshold : D) : option (list bool) :=
  match dims grads with
  | [] => Some [F32.geb (row_norm (concat (rows grads))) (F64.to_f32 grad_threshold)]
  | [_] => Some (map (fun g => F32.geb (row_norm g) (F64.to_f32 grad_threshold))
                     (rows grads))
  | _ => None
  end.

(** [densify_and_clone(grads, grad_threshold, scene_extent)] *)
Definition clone_mask (self : GaussianModel) (grads : tensor)
    (grad_threshold scene_extent : D) : option (list bool) :=
  by_grad <- norm_reaches grads grad_threshold ;;
  scale_max <- max_dim1 (get_scaling self) ;;
  logical_and by_grad
    (map (fun v => F32.leb v (F64.to_f32 (F64.mul (percent_dense self) scene_extent)))
         scale_max).

Definition densify_and_clone (self : GaussianModel) (grads : tensor)
    (grad_threshold scene_extent : D) : option GaussianModel :=
  selected_pts_mask <- clone_mask self grads grad_threshold scene_extent ;;
  let xyz_lr := F32.of_Z 1 in
  new_xyz <- tensor_index (_xyz self) selected_pts_mask ;;
  new_features_dc <- tensor_index (_features_dc self) selected_pts_mask ;;
  new_features_rest <- tensor_index (_features_rest self) selected_pts_mask ;;
  new_opacities <- tensor_index (_opacity self) selected_pts_mask ;;
  new_scaling <- tensor_index (_scaling self) selected_pts_mask ;;
  new_rotation <- tensor_index (_rotation self) selected_pts_mask ;;
  new_score <- tensor_index (_score self) selected_pts_mask ;;
  new_xyz_id <- index_mask (_xyz_id self) selected_pts_mask ;;
  new_type <- tensor_index (_type self) selected_pts_mask ;;
  selected_planar <-
    logical_and selected_pts_mask
      (entries (squeezed_map (fun t => F32.eqb t F32.one) (squeeze (_type self)))) ;;
  pga <- tensor_index (position_gradient_accum self) selected_planar ;;
  den <- tensor_index (denom self) selected_planar ;;
  offset <- tensor_div (tensor_map (F32.mul xyz_lr) pga) den ;;
  new_xyz <- match squeezed_map (fun t => F32.eqb t F32.one) (squeeze new_type) with
             | Dim0 planar => masked_iadd0 new_xyz planar offset
             | Dim1 planar => masked_iadd new_xyz planar offset
             end ;;
  let self1 := set_ids self (_xyz_id self) (modify_id self ++ new_xyz_id) in
  densification_postfix self1 new_xyz new_features_dc new_features_rest
    new_opacities new_scaling new_rotation new_score new_xyz_id new_type.

(** [densify_and_split(grads, grad_threshold, scene_extent, N)]; [z] are the
    standard normal draws of [torch.normal]. *)
Definition padded_grad (self : GaussianModel) (grads : tensor) : option (list F) :=
  let n_init_points := shape0 (get_xyz self) in
  if dims_eqb (dims grads) [1%nat] || dims_eqb (dims grads) []
  then
    match squeeze grads with
    | Dim0 g =>
        (* a zero-dimensional value fills the slice, which holds one entry
           or none *)
        Some (firstn n_init_points [g] ++ repeat F32.zero (n_init_points - 1))
    | Dim1 l =>
        if Nat.leb (length l) n_init_points
        then Some (l ++ repeat F32.zero (n_init_points - length l))
        else None
    end
  else None.

Definition split_mask (self : GaussianModel) (grads : tensor)
    (grad_threshold scene_extent : D) : option (list bool) :=
  padded <- padded_grad self grads ;;
  let by_grad := map (fun g => F32.geb g (F64.to_f32 grad_threshold)) padded in
  scale_max <- max_dim1 (get_scaling self) ;;
  logical_and by_grad
    (map (fun v => F32.gtb v (F64.to_f32 (F64.mul (percent_dense self) scene_extent)))
         scale_max).

Definition densify_and_split (self : GaussianModel) (grads : tensor)
    (grad_threshold scene_extent : D) (N : nat) (z : nat -> nat -> F)
  : option GaussianModel :=
  selected_pts_mask <- split_mask self grads grad_threshold scene_extent ;;
  scaling_sel <- tensor_index (get_scaling self) selected_pts_mask ;;
  let stds := tensor_repeat N scaling_sel in
  let means := zeros (shape0 stds) [3%nat] in
  let samples := normal z means stds in
  rotation_sel <- tensor_index (_rotation self) selected_pts_mask ;;
  let rots := tile N (map build_rotation (rows rotation_sel)) in
  xyz_sel <- tensor_index (get_xyz self) selected_pts_mask ;;
  moved <- pointwise (zip_with F32.add) (zip_with matvec rots (rows samples))
             (rows (tensor_repeat N xyz_sel)) ;;
  let new_xyz := mkTensor (dims xyz_sel) moved in
  let new_scaling :=
    tensor_map
      (fun s => t_log (F32.div s (F64.to_f32 (F64.mul (F64.of_ratio 8 10)
                                                (F64.of_Z (Z.of_nat N))))))
      (tensor_repeat N scaling_sel) in
  let new_rotation := tensor_repeat N rotation_sel in
  features_dc_sel <- tensor_index (_features_dc self) selected_pts_mask ;;
  features_rest_sel <- tensor_index (_features_rest self) selected_pts_mask ;;
  opacity_sel <- tensor_index (_opacity self) selected_pts_mask ;;
  score_sel <- tensor_index (_score self) selected_pts_mask ;;
  xyz_id_sel <- index_mask (_xyz_id self) selected_pts_mask ;;
  type_sel <- tensor_index (_type self) selected_pts_mask ;;
  let self1 := set_ids self (_xyz_id self) (modify_id self ++ xyz_id_sel) in
  self2 <- densification_postfix self1 new_xyz
             (tensor_repeat N features_dc_sel) (tensor_repeat N features_rest_sel)
             (tensor_repeat N opacity_sel) new_scaling new_rotation
             (tensor_repeat N score_sel) (tile N xyz_id_sel)
             (tensor_repeat N type_sel) ;;
  let prune_filter :=
    selected_pts_mask ++ repeat false (N * count_true selected_pts_mask) in
  prune_points self2 prune_filter.

(** ** Densify and prune *)

(** Lines 577-578: the averaged gradient with its NaN entries zeroed. *)
Definition densify_grads (self : GaussianModel) : option tensor :=
  grads <- tensor_div (xyz_gradient_accum self) (denom self) ;;
  Some (nan_to_zero grads).

(** Lines 588-612: the removal mask and its application.  [max_screen_size]
    is [None] or a number, tested by Python truthiness. *)
Definition py_truthy (v : option D) : bool :=
  match v with None => false | Some x => F32.truthy x end.

(** The mask is zero-dimensional when there is one primitive and the size
    tests are skipped; [logical_or] with the one-dimensional size tests
    gives a one-dimensional mask. *)
Definition prune_mask (self : GaussianModel) (min_opacity extent : D)
    (max_screen_size : option D) : option (squeezed bool) :=
  let prune_mask :=
    squeezed_map (fun o => F32.ltb o (F64.to_f32 min_opacity))
                 (squeeze (get_opacity self)) in
  match max_screen_size with
  | Some size =>
      if F32.truthy size then
        let big_points_vs :=
          map (fun r => F32.gtb r (F64.to_f32 size)) (max_radii2D self) in
        scale_max <- max_dim1 (get_scaling self) ;;
        let big_points_ws :=
          map (fun v => F32.gtb v (F64.to_f32 (F64.mul (F64.of_ratio 1 10) extent)))
              scale_max in
        m <- logical_or (entries prune_mask) big_points_vs ;;
        m <- logical_or m big_points_ws ;;
        Some (Dim1 m)
      else Some prune_mask
  | None => Some prune_mask
  end.

(** [_prune_optimizer(mask)] for a zero-dimensional [mask]: every
    parameter and every moment but those of [scene_scale] is indexed by
    it and gets a new leading axis. *)
Fixpoint _prune_optimizer0 (groups : list param_group) (mask : bool)
    (optimizable_tensors : dict) : list param_group * dict :=
  match groups with
  | [] => ([], optimizable_tensors)
  | group :: rest =>
      if String.eqb (name group) "scene_scale" then
        let (rest', d) := _prune_optimizer0 rest mask optimizable_tensors in
        (group :: rest', d)
      else
        let p := index0 (param group) mask in
        let st :=
          match stored_state group with
          | Some st => Some (mkAdam (index0 (exp_avg st) mask) (index0 (exp_avg_sq st) mask))
          | None => None
          end in
        let (rest', d) :=
          _prune_optimizer0 rest mask (dict_set optimizable_tensors (name group) p) in
        (mkGroup (name group) p st :: rest', d)
  end.

(** [prune_points(mask)] for a zero-dimensional [mask].  The ids and the
    radii, one-dimensional before, are kept as the list of their entries
    behind the new axis. *)
Definition prune_points0 (self : GaussianModel) (mask : bool) : option GaussianModel :=
  let valid_points_mask := negb mask in
  groups <- optimizer self ;;
  let (groups', optimizable_tensors) := _prune_optimizer0 groups valid_points_mask [] in
  xyz <- dict_get optimizable_tensors "xyz" ;;
  f_dc <- dict_get optimizable_tensors "f_dc" ;;
  f_rest <- dict_get optimizable_tensors "f_rest" ;;
  opacity <- dict_get optimizable_tensors "opacity" ;;
  scaling <- dict_get optimizable_tensors "scaling" ;;
  rotation <- dict_get optimizable_tensors "rotation" ;;
  Some {| active_sh_degree := active_sh_degree self;
          max_sh_degree := max_sh_degree self;
          _normal := _normal self;
          _score := index0 (_score self) valid_points_mask;
          _type := index0 (_type self) valid_points_mask;
          _scene_scale := _scene_scale self;
          _xyz := xyz;
          _xyz_id := if valid_points_mask then _xyz_id self else [];
          modify_id := modify_id self;
          _features_dc := f_dc;
          _features_rest := f_rest;
          _scaling := scaling;
          _rotation := rotation;
          _opacity := opacity;
          max_radii2D := if valid_points_mask then max_radii2D self else [];
          xyz_gradient_accum := index0 (xyz_gradient_accum self) valid_points_mask;
          position_gradient_accum :=
            index0 (position_gradient_accum self) valid_points_mask;
          denom := index0 (denom self) valid_points_mask;
          optimizer := Some groups';
          percent_dense := percent_dense self;
          spatial_lr_scale := spatial_lr_scale self |}.

Definition prune_pass (self : GaussianModel) (min_opacity extent : D)
    (max_screen_size : option D) : option GaussianModel :=
  m <- prune_mask self min_opacity extent max_screen_size ;;
  match m with
  | Dim0 b => prune_points0 self b
  | Dim1 l => prune_points self l
  end.

(** Lines 620-629: the normals are re-estimated by Open3D and stored as a
    numpy array.  [Vector3dVector] takes an array of shape (n, 3), or one
    without entries, and raises on any other. *)
Definition estimated_normals (self : GaussianModel) : normal_value :=
  let points_np := rows (get_xyz self) in
  NdArray (mkTensor [3%nat] (map (estimate_normal points_np) points_np)).

Definition recompute_normals (self : GaussianModel) : option GaussianModel :=
  let points_np := get_xyz self in
  if dims_eqb (dims points_np) [3%nat] || Nat.eqb (shape0 points_np) 0
  then Some (set_normal self (estimated_normals self))
  else None.

Definition densify_and_prune (self : GaussianModel) (max_grad min_opacity extent : D)
    (max_screen_size : option D) (z : nat -> nat -> F) : option GaussianModel :=
  grads <- densify_grads self ;;
  let self1 := reset_xyz_id self in
  let self2 := set_ids self1 (_xyz_id self1) [] in
  self3 <- densify_and_clone self2 grads max_grad extent ;;
  self4 <- densify_and_split self3 grads max_grad extent 2 z ;;
  self5 <- prune_pass self4 min_opacity extent max_screen_size ;;
  recompute_normals self5.

End Model.

(** ** Gradient accumulation *)

(** [add_densification_stats]: the gradients are those of the rendered
    screen-space points and of [_xyz]. *)
Definition add_densification_stats (self : GaussianModel)
    (viewspace_grad xyz_grad : tensor) (update_filter : list bool)
  : option GaussianModel :=
  vg <- tensor_index viewspace_grad update_filter ;;
  let norms := mkTensor [1%nat] (map (fun r => [row_norm (firstn 2 r)]) (rows vg)) in
  xga <- masked_iadd (xyz_gradient_accum self) update_filter norms ;;
  xg <- tensor_index xyz_grad update_filter ;;
  pga <- masked_iadd (position_gradient_accum self) update_filter xg ;;
  seen <- tensor_index (denom self) update_filter ;;
  den <- masked_iadd (denom self) update_filter
           (tensor_map (fun _ => F32.of_Z 1) seen) ;;
  Some {| active_sh_degree := active_sh_degree self;
          max_sh_degree := max_sh_degree self;
          _normal := _normal self;
          _score := _score self;
          _type := _type self;
          _scene_scale := _scene_scale self;
          _xyz := _xyz self;
          _xyz_id := _xyz_id self;
          modify_id := modify_id self;
          _features_dc := _features_dc self;
          _features_rest := _features_rest self;
          _scaling := _scaling self;
          _rotation := _rotation self;
          _opacity := _opacity self;
          max_radii2D := max_radii2D self;
          xyz_gradient_accum := xga;
          position_gradient_accum := pga;
          denom := den;
          optimizer := optimizer self;
          percent_dense := percent_dense self;
          spatial_lr_scale := spatial_lr_scale self |}.

(** ** The PLY writer and reader *)

(** The vertex element of a PLY file: the property names, all of type f4,
    and one record per vertex. *)
Record PlyElement : Type := mkPly { properties : list string; vertices : list row }.

(** ['prefix{}'.format(i)] *)
Definition fmt (prefix : string) (i : nat) : string :=
  (prefix ++ NilZero.string_of_uint (Nat.to_uint i))%string.

(** [s.startswith(p)] *)
Fixpoint startswith (p s : string) : bool :=
  match p, s with
  | EmptyString, _ => true
  | String a p', String b s' => Ascii.eqb a b && startswith p' s'
  | String _ _, EmptyString => false
  end.

(** [s.split('_')[-1]] *)
Fixpoint has_underscore (s : string) : bool :=
  match s with
  | EmptyString => false
  | String c s' => Ascii.eqb c "_" || has_underscore s'
  end.

Fixpoint last_segment (s : string) : string :=
  match s with
  | EmptyString => EmptyString
  | String c s' =>
      if has_underscore s' then last_segment s'
      else if Ascii.eqb c "_" then s' else s
  end.

(** [int(s)] on a segment of a property name: an optional sign and a
    decimal numeral; a ValueError otherwise. *)
Definition py_int (s : string) : option Z :=
  match s with
  | EmptyString => None
  | String c s' =>
      if Ascii.eqb c "+" then
        option_map (fun u => Z.of_nat (Nat.of_uint u)) (NilZero.uint_of_string s')
      else if Ascii.eqb c "-" then
        option_map (fun u => (- Z.of_nat (Nat.of_uint u))%Z) (NilZero.uint_of_string s')
      else option_map (fun u => Z.of_nat (Nat.of_uint u)) (NilZero.uint_of_string s)
  end.

(** [sorted(names, key=lambda x: int(x.split('_')[-1]))]: a stable sort. *)
Fixpoint insert_by_key (k : Z) (x : string) (l : list (Z * string))
  : list (Z * string) :=
  match l with
  | [] => [(k, x)]
  | (k', y) :: l' =>
      if Z.ltb k k' then (k, x) :: l else (k', y) :: insert_by_key k x l'
  end.

Fixpoint sequence {A} (l : list (option A)) : option (list A) :=
  match l with
  | [] => Some []
  | o :: l' => x <- o ;; r <- sequence l' ;; Some (x :: r)
  end.

Definition sorted_by_suffix (names : list string) : option (list string) :=
  keys <- sequence (map (fun x => py_int (last_segment x)) names) ;;
  Some (map snd (fold_left (fun acc kx => insert_by_key (fst kx) (snd kx) acc)
                           (combine keys names) [])).

(** The float32 nearest to a value (numpy's cast to f4). *)
Definition f4 (x : F) : F :=
  match x with
  | S754_finite s m e => binary_round F32.prec F32.emax s m e
  | _ => x
  end.

Definition construct_list_of_attributes (self : GaussianModel) : option (list string) :=
  n_dc <- match dims (_features_dc self) with a :: b :: _ => Some (a * b)%nat | _ => None end ;;
  n_rest <- match dims (_features_rest self) with a :: b :: _ => Some (a * b)%nat | _ => None end ;;
  n_scale <- match dims (_scaling self) with a :: _ => Some a | _ => None end ;;
  n_rot <- match dims (_rotation self) with a :: _ => Some a | _ => None end ;;
  Some (["x"; "y"; "z"; "nx"; "ny"; "nz"]%string
        ++ map (fmt "f_dc_") (seq 0 n_dc)
        ++ map (fmt "f_rest_") (seq 0 n_rest)
        ++ ["opacity"%string]
        ++ map (fmt "scale_") (seq 0 n_scale)
        ++ map (fmt "rot_") (seq 0 n_rot)
        ++ ["type"%string]).

(** [t.transpose(1, 2)] of an (n, a, b) tensor and [flatten(start_dim=1)]. *)
Definition transpose_flat (a b : nat) (r : row) : row :=
  flat_map (fun j => map (fun i => nth_f r (i * b + j)) (seq 0 a)) (seq 0 b).

Definition transpose12 (t : tensor) : option tensor :=
  match dims t with
  | [a; b] => Some (mkTensor [b; a] (map (transpose_flat a b) (rows t)))
  | _ => None
  end.

Definition flatten1 (t : tensor) : tensor := mkTensor [width (dims t)] (rows t).

(** [np.concatenate(arrays, axis=1)] of matrices with equally many rows. *)
Definition is_matrix (t : tensor) : bool :=
  match dims t with [_] => true | _ => false end.

Definition concatenate_axis1 (n : nat) (arrays : list tensor) : option (list row) :=
  if forallb (fun a => is_matrix a && Nat.eqb (shape0 a) n) arrays
  then Some (fold_right (fun a acc => zip_with (@app F) (rows a) acc)
                        (repeat [] n) arrays)
  else None.

(** [save_ply]: the element written to the file. *)
Definition save_ply (self : GaussianModel) : option PlyElement :=
  let xyz := _xyz self in
  normals <- match _normal self with NdArray a => Some a | _ => None end ;;
  let types := _type self in
  f_dc <- option_map flatten1 (transpose12 (_features_dc self)) ;;
  f_rest <- option_map flatten1 (transpose12 (_features_rest self)) ;;
  let opacities := _opacity self in
  let scale := _scaling self in
  let rotation := _rotation self in
  names <- construct_list_of_attributes self ;;
  attributes <- concatenate_axis1 (shape0 xyz)
                  [xyz; normals; f_dc; f_rest; opacities; scale; rotation; types] ;;
  if forallb (fun r => Nat.eqb (length r) (length names)) attributes
  then Some (mkPly names (map (map f4) attributes))
  else None.

(** [plydata.elements[0][name]] for several names, stacked along axis 1. *)
Fixpoint index_of (nm : string) (l : list string) : option nat :=
  match l with
  | [] => None
  | x :: l' => if String.eqb nm x then Some O else option_map S (index_of nm l')
  end.

Definition gather (e : PlyElement) (names : list string) : option (list row) :=
  idx <- sequence (map (fun nm => index_of nm (properties e)) names) ;;
  Some (map (fun v => map (nth_f v) idx) (vertices e)).

(** [load_ply]: the model with the six arrays read back. *)
Definition load_ply (self : GaussianModel) (e : PlyElement) : option GaussianModel :=
  xyz <- gather e ["x"; "y"; "z"]%string ;;
  opacities <- gather e ["opacity"%string] ;;
  features_dc <- gather e ["f_dc_0"; "f_dc_1"; "f_dc_2"]%string ;;
  extra_f_names <- sorted_by_suffix (filter (startswith "f_rest_") (properties e)) ;;
  let coeffs := ((max_sh_degree self + 1) * (max_sh_degree self + 1))%nat in
  if negb (Nat.eqb (length extra_f_names) (3 * coeffs - 3)) then None
  else
    features_extra <- gather e extra_f_names ;;
    scale_names <- sorted_by_suffix (filter (startswith "scale_") (properties e)) ;;
    scales <- gather e scale_names ;;
    rot_names <- sorted_by_suffix (filter (startswith "rot") (properties e)) ;;
    rots <- gather e rot_names ;;
    f_dc <- transpose12 (mkTensor [3; 1]%nat features_dc) ;;
    f_rest <- transpose12 (mkTensor [3%nat; (coeffs - 1)%nat] features_extra) ;;
    Some {| active_sh_degree := max_sh_degree self;
            max_sh_degree := max_sh_degree self;
            _normal := _normal self;
            _score := _score self;
            _type := _type self;
            _scene_scale := _scene_scale self;
            _xyz := mkTensor [3%nat] xyz;
            _xyz_id := _xyz_id self;
            modify_id := modify_id self;
            _features_dc := f_dc;
            _features_rest := f_rest;
            _scaling := mkTensor [length scale_names] scales;
            _rotation := mkTensor [length rot_names] rots;
            _opacity := mkTensor [1%nat] opacities;
            max_radii2D := max_radii2D self;
            xyz_gradient_accum := xyz_gradient_accum self;
            position_gradient_accum := position_gradient_accum self;
            denom := denom self;
            optimizer := optimizer self;
            percent_dense := percent_dense self;
            spatial_lr_scale := spatial_lr_scale self |}.

(** ** Checkpoints, the active degree, the opacity reset and the sampling script *)

(** The values that a checkpoint tuple holds. *)
Inductive py_value : Type :=
| PyInt (n : nat)
| PyFloat (x : F)
| PyTensor (t : tensor)
| PyVector (v : list F)
| PyNormal (v : normal_value)
| PyStateDict (d : list (string * option adam_state)).

(** [optimizer.state_dict()]: the groups without their parameters, and the
    state of each. *)
Definition state_dict (groups : list param_group) : list (string * option adam_state) :=
  map (fun g => (name g, stored_state g)) groups.

(** [capture()]: the tuple of fourteen entries; an AttributeError while the
    optimizer is [None]. *)
Definition capture (self : GaussianModel) : option (list py_value) :=
  groups <- optimizer self ;;
  Some [ PyInt (active_sh_degree self);
         PyTensor (_xyz self);
         PyTensor (_type self);
         PyNormal (_normal self);
         PyTensor (_features_dc self);
         PyTensor (_features_rest self);
         PyTensor (_scaling self);
         PyTensor (_rotation self);
         PyTensor (_opacity self);
         PyVector (max_radii2D self);
         PyTensor (xyz_gradient_accum self);
         PyTensor (denom self);
         PyStateDict (state_dict groups);
         PyFloat (spatial_lr_scale self) ].

(** [optimizer.load_state_dict(opt_dict)]: the saved groups take the place
    of the present ones, which keep their parameters; a ValueError when the
    numbers of groups differ. *)
Fixpoint load_state_dict (groups : list param_group)
    (saved : list (string * option adam_state)) : option (list param_group) :=
  match groups, saved with
  | [], [] => Some []
  | g :: groups', (nm, st) :: saved' =>
      rest <- load_state_dict groups' saved' ;;
      Some (mkGroup nm (param g) st :: rest)
  | _, _ => None
  end.

(** [restore(model_args, training_args)]: the tuple is unpacked into twelve
    targets (a ValueError for any other length), the entries being of the
    types that [capture] gives them. *)
Definition restore (self : GaussianModel) (model_args : list py_value)
    (percent_dense_arg : F) : option GaussianModel :=
  match model_args with
  | [ PyInt active; PyTensor xyz; PyTensor f_dc; PyTensor f_rest; PyTensor scaling;
      PyTensor rotation; PyTensor opacity; PyVector radii; PyTensor xyz_gradient_accum_arg;
      PyTensor denom_arg; PyStateDict opt_dict; PyFloat lr ] =>
      let self1 :=
        {| active_sh_degree := active;
           max_sh_degree := max_sh_degree self;
           _normal := _normal self;
           _score := _score self;
           _type := _type self;
           _scene_scale := _scene_scale self;
           _xyz := xyz;
           _xyz_id := _xyz_id self;
           modify_id := modify_id self;
           _features_dc := f_dc;
           _features_rest := f_rest;
           _scaling := scaling;
           _rotation := rotation;
           _opacity := opacity;
           max_radii2D := radii;
           xyz_gradient_accum := xyz_gradient_accum self;
           position_gradient_accum := position_gradient_accum self;
           denom := denom self;
           optimizer := optimizer self;
           percent_dense := percent_dense self;
           spatial_lr_scale := lr |} in
      let self2 := training_setup self1 percent_dense_arg in
      groups <- optimizer self2 ;;
      groups' <- load_state_dict groups opt_dict ;;
      Some {| active_sh_degree := active_sh_degree self2;
              max_sh_degree := max_sh_degree self2;
              _normal := _normal self2;
              _score := _score self2;
              _type := _type self2;
              _scene_scale := _scene_scale self2;
              _xyz := _xyz self2;
              _xyz_id := _xyz_id self2;
              modify_id := modify_id self2;
              _features_dc := _features_dc self2;
              _features_rest := _features_rest self2;
              _scaling := _scaling self2;
              _rotation := _rotation self2;
              _opacity := _opacity self2;
              max_radii2D := max_radii2D self2;
              xyz_gradient_accum := xyz_gradient_accum_arg;
              position_gradient_accum := position_gradient_accum self2;
              denom := denom_arg;
              optimizer := Some groups';
              percent_dense := percent_dense self2;
              spatial_lr_scale := spatial_lr_scale self2 |}
  | _ => None
  end.

(** [oneupSHdegree()] *)
Definition oneupSHdegree (self : GaussianModel) : GaussianModel :=
  if Nat.ltb (active_sh_degree self) (max_sh_degree self)
  then {| active_sh_degree := active_sh_degree self + 1;
          max_sh_degree := max_sh_degree self;
          _normal := _normal self;
          _score := _score self;
          _type := _type self;
          _scene_scale := _scene_scale self;
          _xyz := _xyz self;
          _xyz_id := _xyz_id self;
          modify_id := modify_id self;
          _features_dc := _features_dc self;
          _features_rest := _features_rest self;
          _scaling := _scaling self;
          _rotation := _rotation self;
          _opacity := _opacity self;
          max_radii2D := max_radii2D self;
          xyz_gradient_accum := xyz_gradient_accum self;
          position_gradient_accum := position_gradient_accum self;
          denom := denom self;
          optimizer := optimizer self;
          percent_dense := percent_dense self;
          spatial_lr_scale := spatial_lr_scale self |}
  else self.

(** [replace_tensor_to_optimizer(tensor, name)]: the loop over the groups;
    a TypeError when the group of that name has no Adam state yet. *)
Fixpoint replace_tensor_to_optimizer (groups : list param_group) (tensor_arg : tensor)
    (name_arg : string) (optimizable_tensors : dict) : option (list param_group * dict) :=
  match groups with
  | [] => Some ([], optimizable_tensors)
  | group :: rest =>
      if String.eqb (name group) name_arg then
        match stored_state group with
        | None => None
        | Some _ =>
            let stored := mkAdam (zeros_like tensor_arg) (zeros_like tensor_arg) in
            ' (rest', d) <- replace_tensor_to_optimizer rest tensor_arg name_arg
                              (dict_set optimizable_tensors (name group) tensor_arg) ;;
            Some (mkGroup (name group) tensor_arg (Some stored) :: rest', d)
        end
      else
        ' (rest', d) <- replace_tensor_to_optimizer rest tensor_arg name_arg
                          optimizable_tensors ;;
        Some (group :: rest', d)
  end.

(** [torch.cat((a, b), dim=1)] of two arrays with at least two axes. *)
Definition cat_dim1 (a b : tensor) : option tensor :=
  if is_empty0 a then (if is_empty0 b then None else Some b)
  else if is_empty0 b then Some a
  else
    match dims a, dims b with
    | a1 :: da, b1 :: db =>
        if dims_eqb da db && Nat.eqb (shape0 a) (shape0 b)
        then Some (mkTensor ((a1 + b1)%nat :: da) (zip_with (@app F) (rows a) (rows b)))
        else None
    | _, _ => None
    end.

(** [get_features] *)
Definition get_features (self : GaussianModel) : option tensor :=
  let features_dc := _features_dc self in
  let features_rest := _features_rest self in
  cat_dim1 features_dc features_rest.




Section Methods.
Context {E : Externals}.

(** [reset_opacity()] *)
Definition reset_opacity (self : GaussianModel) : option GaussianModel :=
  let ceiling := F32.mul F32.one (F32.of_ratio 1 100) in
  let opacities_new :=
    tensor_map inverse_sigmoid
      (tensor_map (fun o => F32.min o ceiling) (get_opacity self)) in
  groups <- optimizer self ;;
  ' (groups', optimizable_tensors) <-
      replace_tensor_to_optimizer groups opacities_new "opacity" [] ;;
  opacity <- dict_get optimizable_tensors "opacity" ;;
  Some {| active_sh_degree := active_sh_degree self;
          max_sh_degree := max_sh_degree self;
          _normal := _normal self;
          _score := _score self;
          _type := _type self;
          _scene_scale := _scene_scale self;
          _xyz := _xyz self;
          _xyz_id := _xyz_id self;
          modify_id := modify_id self;
          _features_dc := _features_dc self;
          _features_rest := _features_rest self;
          _scaling := _scaling self;
          _rotation := _rotation self;
          _opacity := opacity;
          max_radii2D := max_radii2D self;
          xyz_gradient_accum := xyz_gradient_accum self;
          position_gradient_accum := position_gradient_accum self;
          denom := denom self;
          optimizer := Some groups';
          percent_dense := percent_dense self;
          spatial_lr_scale := spatial_lr_scale self |}.


End Methods.

(** ** A reference interpretation of the external functions

    Used to run the model on concrete stores.  [exp], [log] and [sigmoid]
    are computed from their series in fixed-point arithmetic with sixty
    fractional bits and rounded to float32;
    [build_rotation], [inverse_sigmoid], [RGB2SH] follow the utilities of
    the repository, [distCUDA2] the mean squared distance to the three
    nearest other points, [as_quat] scipy's choice by the largest diagonal
    term.  The normal estimated at a point is fixed to the z axis: no
    statement depends on its value. *)

Module Ref.

(** Fixed-point numbers: the integer [X] stands for [X / 2^60]. *)
Definition unit : Z := 1152921504606846976.
Definition ln2 : Z := 799144290325165978.

(** A finite float as a fixed-point number, truncated. *)
Definition fixed_of_F (x : F) : Z :=
  match x with
  | S754_finite s m e =>
      let v := Z.shiftl (Zpos m) (e + 60) in
      if s then (- v)%Z else v
  | _ => 0%Z
  end.

(** The first [n] terms of the exponential series at [r]. *)
Fixpoint taylor_exp (n : nat) (k : Z) (term acc r : Z) : Z :=
  match n with
  | O => acc
  | S n' => taylor_exp n' (k + 1)%Z (term * r / unit / (k + 1))%Z (acc + term)%Z r
  end.

(** [exp X] as a pair [(E, n)] that stands for [E / 2^60 * 2^n]. *)
Definition exp_fixed (X : Z) : Z * Z :=
  let n := ((2 * X + ln2) / (2 * ln2))%Z in
  let r := (X - n * ln2)%Z in
  (taylor_exp 18 0%Z unit 0%Z r, n).

Definition exp32 (x : F) : F :=
  match x with
  | S754_nan => S754_nan
  | S754_infinity false => x
  | S754_infinity true => F32.zero
  | S754_zero _ => F32.one
  | S754_finite _ _ _ =>
      if F32.leb (F32.of_Z 100) x then F32.inf
      else if F32.leb x (F32.of_Z (-110)) then F32.zero
      else let (E, n) := exp_fixed (fixed_of_F x) in
           binary_normalize F32.prec F32.emax E (n - 60)%Z false
  end.

(** The odd series of the inverse hyperbolic tangent. *)
Fixpoint atanh_series (n : nat) (k : Z) (pw acc z2 : Z) : Z :=
  match n with
  | O => acc
  | S n' => atanh_series n' (k + 2)%Z (pw * z2 / unit)%Z (acc + pw / k)%Z z2
  end.

(** [ln (m * 2^e)]: the mantissa is brought into (0.7, 1.4]. *)
Definition ln_fixed (m : positive) (e : Z) : Z :=
  let d := Zpos (digits2_pos m) in
  let y0 := Z.shiftl (Zpos m) (60 - d) in
  let low := (y0 * 10 <=? 7 * unit)%Z in
  let y := if low then (2 * y0)%Z else y0 in
  let n := if low then (d + e - 1)%Z else (d + e)%Z in
  let z := ((y - unit) * unit / (y + unit))%Z in
  (n * ln2 + 2 * atanh_series 12 1%Z z 0%Z (z * z / unit))%Z.

Definition log32 (x : F) : F :=
  match x with
  | S754_nan => S754_nan
  | S754_infinity false => x
  | S754_infinity true => S754_nan
  | S754_zero _ => S754_infinity true
  | S754_finite true _ _ => S754_nan
  | S754_finite false m e => binary_normalize F32.prec F32.emax (ln_fixed m e) (-60)%Z false
  end.

(** [1 / (1 + exp(-x))] as the quotient of two integers. *)
Definition sigmoid32 (x : F) : F :=
  match x with
  | S754_nan => S754_nan
  | S754_infinity false => F32.one
  | S754_infinity true => F32.zero
  | S754_zero _ => F32.of_ratio 1 2
  | S754_finite _ _ _ =>
      if F32.leb (F32.of_Z 200) x then F32.one
      else if F32.leb x (F32.of_Z (-200)) then F32.zero
      else
        let (E, n) := exp_fixed (- fixed_of_F x)%Z in
        match E with
        | Zpos a =>
            let one := Pos.shiftl 1 (Z.to_N (60 - Z.min n 0)) in
            let e := Pos.shiftl a (Z.to_N (Z.max n 0)) in
            F32.div (S754_finite false one 0%Z) (S754_finite false (one + e)%positive 0%Z)
        | _ => S754_nan
        end
  end.
(** [log(x / (1 - x))] *)
Definition inverse_sigmoid32 (x : F) : F :=
  log32 (F32.div x (F32.sub F32.one x)).

(** [(rgb - 0.5) / C0] *)
Definition RGB2SH32 (x : F) : F :=
  F32.div (F32.sub x (F32.of_ratio 1 2)) (F32.of_ratio 28209479177387814 100000000000000000).

Definition build_rotation32 (q0 : row) : row :=
  let sq x := F32.mul x x in
  let norm := F32.sqrt (F32.add (F32.add (F32.add (sq (nth_f q0 0)) (sq (nth_f q0 1)))
                                         (sq (nth_f q0 2))) (sq (nth_f q0 3))) in
  let q := map (fun v => F32.div v norm) q0 in
  let r := nth_f q 0 in let x := nth_f q 1 in
  let y := nth_f q 2 in let z := nth_f q 3 in
  let two := F32.of_Z 2 in
  let m a b := F32.mul a b in
  [ F32.sub F32.one (m two (F32.add (m y y) (m z z)));
    m two (F32.sub (m x y) (m r z));
    m two (F32.add (m x z) (m r y));
    m two (F32.add (m x y) (m r z));
    F32.sub F32.one (m two (F32.add (m x x) (m z z)));
    m two (F32.sub (m y z) (m r x));
    m two (F32.sub (m x z) (m r y));
    m two (F32.add (m y z) (m r x));
    F32.sub F32.one (m two (F32.add (m x x) (m y y))) ].

Definition FLT_MAX : F := S754_finite false (2 ^ 24 - 1)%positive 104%Z.

Definition sqdist (a b : row) : F :=
  sum_sq (zip_with F32.sub a b).

Fixpoint updateKBest (dist : F) (knn : list F) : list F :=
  match knn with
  | [] => []
  | k :: knn' =>
      if F32.gtb k dist then dist :: updateKBest k knn'
      else k :: updateKBest dist knn'
  end.

Definition distCUDA2_ref (pts : list row) (idx : nat) : F :=
  let p := nth idx pts [] in
  let best :=
    fold_left (fun best iq =>
                 if Nat.eqb (fst iq) idx then best
                 else updateKBest (sqdist (snd iq) p) best)
              (combine (seq 0 (length pts)) pts) [FLT_MAX; FLT_MAX; FLT_MAX] in
  F32.div (fold_left F32.add best F32.zero) (F32.of_Z 3).

Definition as_quat_ref (M : row) : row :=
  let e (i j : nat) := nth_f M (3 * i + j) in
  let trace := F32.add (F32.add (e 0 0) (e 1 1))%nat (e 2 2)%nat in
  let pick (i j k : nat) : list (nat * F) :=
    [ (i, F32.add (F32.sub F32.one trace) (F32.mul (F32.of_Z 2) (e i i)));
      (j, F32.add (e j i) (e i j));
      (k, F32.add (e k i) (e i k));
      (3%nat, F32.sub (e k j) (e j k)) ] in
  let dmax := F32.max (F32.max (F32.max (e 0 0) (e 1 1))%nat (e 2 2)%nat) trace in
  let entries :=
    if F32.eqb dmax (e 0 0)%nat then pick 0 1 2
    else if F32.eqb dmax (e 1 1)%nat then pick 1 2 0
    else if F32.eqb dmax (e 2 2)%nat then pick 2 0 1
    else [ (0, F32.sub (e 2 1) (e 1 2)); (1, F32.sub (e 0 2) (e 2 0));
           (2, F32.sub (e 1 0) (e 0 1)); (3, F32.add F32.one trace) ]%nat in
  let quat :=
    map (fun i => match find (fun ie => Nat.eqb (fst ie) i) entries with
                  | Some ie => snd ie
                  | None => F32.zero
                  end) [0; 1; 2; 3]%nat in
  let n := row_norm quat in
  map (fun v => F32.div v n) quat.

Definition estimate_normal_ref (pts : list row) (p : row) : row :=
  [F32.zero; F32.zero; F32.one].

#[export] Instance externals : Externals := {
  t_exp := exp32;
  t_log := log32;
  t_sigmoid := sigmoid32;
  inverse_sigmoid := inverse_sigmoid32;
  build_rotation := build_rotation32;
  RGB2SH := RGB2SH32;
  distCUDA2 := distCUDA2_ref;
  as_quat := as_quat_ref;
  estimate_normal := estimate_normal_ref
}.

End Ref.

(** * Specification-level views *)

(** The result of filtering and of extending a tensor or a group. *)
Definition keep_tensor (m : list bool) (t : tensor) : tensor :=
  mkTensor (dims t) (select m (rows t)).

Definition append_tensor (t ext : tensor) : tensor :=
  mkTensor (dims t) (rows t ++ rows ext).

Definition is_scene_scale (g : param_group) : bool := String.eqb (name g) "scene_scale".

Definition keep_group (m : list bool) (g : param_group) : param_group :=
  if is_scene_scale g then g
  else mkGroup (name g) (keep_tensor m (param g))
         (option_map (fun st => mkAdam (keep_tensor m (exp_avg st))
                                       (keep_tensor m (exp_avg_sq st)))
                     (stored_state g)).

Definition extend_group (tensors_dict : dict) (g : param_group) : param_group :=
  if is_scene_scale g then g
  else match dict_get tensors_dict (name g) with
       | Some ext =>
           mkGroup (name g) (append_tensor (param g) ext)
             (option_map (fun st => mkAdam (append_tensor (exp_avg st) (zeros_like ext))
                                           (append_tensor (exp_avg_sq st) (zeros_like ext)))
                         (stored_state g))
       | None => g
       end.

(** The dictionary returned by a resizing loop that maps every group
    through [f]. *)
Definition resized_dict (f : param_group -> param_group) (groups : list param_group)
    (d : dict) : dict :=
  fold_left (fun d g => if is_scene_scale g then d else dict_set d (name g) (param (f g)))
            groups d.

(** The names of the groups created by [training_setup], and the model's
    arrays that are their parameters. *)
Definition group_names : list string :=
  ["scene_scale"; "xyz"; "f_dc"; "f_rest"; "opacity"; "scaling"; "rotation"]%string.

Definition tracked (s : GaussianModel) : list tensor :=
  [_xyz s; _features_dc s; _features_rest s; _opacity s; _scaling s; _rotation s].

Definition same_shape (a b : tensor) : Prop :=
  dims a = dims b /\ shape0 a = shape0 b.

(** Adam's moments, where present, have the shape of their parameter. *)
Definition moments_ok (g : param_group) : Prop :=
  match stored_state g with
  | None => True
  | Some st => same_shape (exp_avg st) (param g) /\ same_shape (exp_avg_sq st) (param g)
  end.

Definition shaped (n : nat) (d : list nat) (t : tensor) : Prop :=
  dims t = d /\ shape0 t = n.

(** Number of primitives. *)
Definition population (s : GaussianModel) : nat := shape0 (_xyz s).

(** Number of higher-order colour coefficients per channel. *)
Definition rest_coeffs (s : GaussianModel) : nat :=
  ((max_sh_degree s + 1) * (max_sh_degree s + 1) - 1)%nat.

(** A store with an initialised optimizer: the seven groups of
    [training_setup], whose parameters are the model's arrays, and all
    per-primitive arrays of one length. *)
Record wf (s : GaussianModel) : Prop := mkWf {
  wf_groups : exists groups,
      optimizer s = Some groups /\ map name groups = group_names /\
      map param (tl groups) = tracked s /\ Forall moments_ok groups;
  wf_xyz : dims (_xyz s) = [3%nat];
  wf_features_dc : shaped (population s) [1; 3]%nat (_features_dc s);
  wf_features_rest : shaped (population s) [rest_coeffs s; 3%nat] (_features_rest s);
  wf_opacity : shaped (population s) [1%nat] (_opacity s);
  wf_scaling : shaped (population s) [3%nat] (_scaling s);
  wf_rotation : shaped (population s) [4%nat] (_rotation s);
  wf_type : shaped (population s) [1%nat] (_type s);
  wf_score : shaped (population s) [1%nat] (_score s);
  wf_xyz_gradient_accum : shaped (population s) [1%nat] (xyz_gradient_accum s);
  wf_position_gradient_accum : shaped (population s) [3%nat] (position_gradient_accum s);
  wf_denom : shaped (population s) [1%nat] (denom s);
  wf_max_radii2D : length (max_radii2D s) = population s;
  wf_xyz_id : length (_xyz_id s) = population s
}.

(** The lockstep of the tracked arrays and of Adam's moments: one length
    [n] for the six arrays, for the parameter of every group but
    [scene_scale], and for both moments wherever a group has them. *)
Definition lockstep (s : GaussianModel) (n : nat) : Prop :=
  Forall (fun t => shape0 t = n) (tracked s) /\
  exists groups, optimizer s = Some groups /\
    Forall (fun g => is_scene_scale g = false ->
                     shape0 (param g) = n /\
                     forall st, stored_state g = Some st ->
                                shape0 (exp_avg st) = n /\ shape0 (exp_avg_sq st) = n)
           groups.

(** The [scene_scale] group of the optimizer. *)
Definition scene_scale_group (s : GaussianModel) : option param_group :=
  match optimizer s with
  | Some groups => find is_scene_scale groups
  | None => None
  end.

(** The model after [prune_points] with the mask [m] of the kept entries. *)
Definition keep_model (s : GaussianModel) (m : list bool) : GaussianModel :=
  {| active_sh_degree := active_sh_degree s;
     max_sh_degree := max_sh_degree s;
     _normal := _normal s;
     _score := keep_tensor m (_score s);
     _type := keep_tensor m (_type s);
     _scene_scale := _scene_scale s;
     _xyz := keep_tensor m (_xyz s);
     _xyz_id := select m (_xyz_id s);
     modify_id := modify_id s;
     _features_dc := keep_tensor m (_features_dc s);
     _features_rest := keep_tensor m (_features_rest s);
     _scaling := keep_tensor m (_scaling s);
     _rotation := keep_tensor m (_rotation s);
     _opacity := keep_tensor m (_opacity s);
     max_radii2D := select m (max_radii2D s);
     xyz_gradient_accum := keep_tensor m (xyz_gradient_accum s);
     position_gradient_accum := keep_tensor m (position_gradient_accum s);
     denom := keep_tensor m (denom s);
     optimizer := option_map (map (keep_group m)) (optimizer s);
     percent_dense := percent_dense s;
     spatial_lr_scale := spatial_lr_scale s |}.

(** The new entries handed to [densification_postfix]. *)
Record extension : Type := mkExt {
  new_xyz : tensor; new_features_dc : tensor; new_features_rest : tensor;
  new_opacities : tensor; new_scaling : tensor; new_rotation : tensor;
  new_score : tensor; new_xyz_id : list nat; new_type : tensor
}.

Definition extension_dict (x : extension) : dict :=
  dict_set (dict_set (dict_set (dict_set (dict_set (dict_set []
    "xyz" (new_xyz x)) "f_dc" (new_features_dc x)) "f_rest" (new_features_rest x))
    "opacity" (new_opacities x)) "scaling" (new_scaling x)) "rotation" (new_rotation x).

(** The model after [densification_postfix]. *)
Definition extend_model (s : GaussianModel) (x : extension) : GaussianModel :=
  let n := (population s + shape0 (new_xyz x))%nat in
  {| active_sh_degree := active_sh_degree s;
     max_sh_degree := max_sh_degree s;
     _normal := _normal s;
     _score := append_tensor (_score s) (new_score x);
     _type := append_tensor (_type s) (new_type x);
     _scene_scale := _scene_scale s;
     _xyz := append_tensor (_xyz s) (new_xyz x);
     _xyz_id := _xyz_id s ++ new_xyz_id x;
     modify_id := modify_id s;
     _features_dc := append_tensor (_features_dc s) (new_features_dc x);
     _features_rest := append_tensor (_features_rest s) (new_features_rest x);
     _scaling := append_tensor (_scaling s) (new_scaling x);
     _rotation := append_tensor (_rotation s) (new_rotation x);
     _opacity := append_tensor (_opacity s) (new_opacities x);
     max_radii2D := repeat F32.zero n;
     xyz_gradient_accum := zeros n [1%nat];
     position_gradient_accum := zeros n [3%nat];
     denom := zeros n [1%nat];
     optimizer := option_map (map (extend_group (extension_dict x))) (optimizer s);
     percent_dense := percent_dense s;
     spatial_lr_scale := spatial_lr_scale s |}.

(** An extension fits a store when its nine arrays hold one number [k] of
    entries of the store's trailing shapes. *)
Record extension_fits (s : GaussianModel) (x : extension) (k : nat) : Prop := mkFits {
  fits_xyz : shaped k (dims (_xyz s)) (new_xyz x);
  fits_features_dc : shaped k (dims (_features_dc s)) (new_features_dc x);
  fits_features_rest : shaped k (dims (_features_rest s)) (new_features_rest x);
  fits_opacities : shaped k (dims (_opacity s)) (new_opacities x);
  fits_scaling : shaped k (dims (_scaling s)) (new_scaling x);
  fits_rotation : shaped k (dims (_rotation s)) (new_rotation x);
  fits_score : shaped k (dims (_score s)) (new_score x);
  fits_xyz_id : length (new_xyz_id x) = k;
  fits_type : shaped k (dims (_type s)) (new_type x)
}.

(** * Basic facts about lists, masks and tensors *)

Lemma select_nil_r {A} (m : list bool) : select m (@nil A) = [].
Proof. destruct m as [|[] m]; reflexivity. Qed.

Lemma select_length {A} (m : list bool) (l : list A) :
  length m = length l -> length (select m l) = count_true m.
Proof.
  revert l; induction m as [|b m IH]; intros [|x l] H; simpl in *; try discriminate; auto.
  injection H as H. destruct b; simpl; rewrite IH by assumption; reflexivity.
Qed.


Lemma select_map {A B} (f : A -> B) (m : list bool) (l : list A) :
  select m (map f l) = map f (select m l).
Proof.
  revert l; induction m as [|b m IH]; intros [|x l]; simpl; auto.
  destruct b; simpl; rewrite IH; reflexivity.
Qed.

Lemma select_combine {A B} (m : list bool) (a : list A) (b : list B) :
  select m (combine a b) = combine (select m a) (select m b).
Proof.
  revert a b; induction m as [|c m IH]; intros [|x a] [|y b]; simpl; auto.
  - destruct c; simpl; rewrite ?combine_nil; reflexivity.
  - destruct c; simpl; rewrite IH; reflexivity.
Qed.

Lemma select_all_false {A} (n : nat) (l : list A) : select (repeat false n) l = [].
Proof. revert l; induction n; intros [|x l]; simpl; auto. Qed.

Lemma select_all_true {A} (l : list A) : select (repeat true (length l)) l = l.
Proof. induction l; simpl; congruence. Qed.

Lemma select_filter {A} (f : A -> bool) (l : list A) : select (map f l) l = filter f l.
Proof. induction l as [|x l IH]; simpl; auto. destruct (f x); rewrite IH; reflexivity. Qed.

Lemma count_true_app (a b : list bool) : count_true (a ++ b) = (count_true a + count_true b)%nat.
Proof. unfold count_true. rewrite filter_app, length_app. reflexivity. Qed.

Lemma count_true_repeat_false (n : nat) : count_true (repeat false n) = 0%nat.
Proof. induction n; simpl; auto. Qed.

Lemma count_true_le (m : list bool) : (count_true m <= length m)%nat.
Proof. unfold count_true. induction m as [|[] m IH]; simpl; lia. Qed.

Lemma count_true_not (m : list bool) :
  (count_true (logical_not m) + count_true m = length m)%nat.
Proof. unfold count_true, logical_not. induction m as [|[] m IH]; simpl; lia. Qed.

Lemma logical_not_length (m : list bool) : length (logical_not m) = length m.
Proof. apply length_map. Qed.

Lemma tile_length {A} (n : nat) (l : list A) : length (tile n l) = (n * length l)%nat.
Proof. induction n; simpl; auto. rewrite length_app, IHn. reflexivity. Qed.

Lemma zip_with_length {A B C} (f : A -> B -> C) (a : list A) (b : list B) :
  length (zip_with f a b) = Nat.min (length a) (length b).
Proof. revert b; induction a; intros [|y b]; simpl; auto. Qed.

Lemma imap_length {A B} (f : nat -> A -> B) (i : nat) (l : list A) :
  length (imap f i l) = length l.
Proof. revert i; induction l; intros; simpl; auto. Qed.

Lemma index_mask_some {A} (l : list A) (m : list bool) :
  length m = length l -> index_mask l m = Some (select m l).
Proof. intros H. unfold index_mask. rewrite H, Nat.eqb_refl. reflexivity. Qed.

Lemma index_mask_inv {A} (l : list A) (m : list bool) (r : list A) :
  index_mask l m = Some r -> length m = length l /\ r = select m l.
Proof.
  unfold index_mask. destruct (Nat.eqb_spec (length m) (length l)); intros H; inversion H; auto.
Qed.

Lemma tensor_index_some (t : tensor) (m : list bool) :
  length m = shape0 t -> tensor_index t m = Some (keep_tensor m t).
Proof. intros H. unfold tensor_index. rewrite index_mask_some by exact H. reflexivity. Qed.

Lemma tensor_index_inv (t : tensor) (m : list bool) (r : tensor) :
  tensor_index t m = Some r -> length m = shape0 t /\ r = keep_tensor m t.
Proof.
  unfold tensor_index, bind. destruct (index_mask (rows t) m) eqn:E; intros H; inversion H.
  apply index_mask_inv in E as [? ->]. auto.
Qed.

Lemma pointwise_some {A B C} (f : A -> B -> C) (a : list A) (b : list B) :
  length a = length b -> pointwise f a b = Some (zip_with f a b).
Proof. intros H. unfold pointwise. rewrite H, Nat.eqb_refl. reflexivity. Qed.

Lemma pointwise_inv {A B C} (f : A -> B -> C) (a : list A) (b : list B) r :
  pointwise f a b = Some r -> length a = length b /\ r = zip_with f a b.
Proof.
  unfold pointwise. destruct (Nat.eqb_spec (length a) (length b)); intros H; inversion H; auto.
Qed.

Lemma broadcast_some {A C} (f : A -> A -> C) (a b : list A) :
  length a = length b -> broadcast f a b = Some (zip_with f a b).
Proof. intros H. unfold broadcast. rewrite H, Nat.eqb_refl. reflexivity. Qed.

Lemma entries_squeeze (t : tensor) :
  entries (squeeze t) = map (fun r => hd F32.zero r) (rows t).
Proof. unfold squeeze. destruct (rows t) as [|r [|r' rs]]; reflexivity. Qed.

Lemma entries_squeezed_map {B} (f : F -> B) (t : tensor) :
  entries (squeezed_map f (squeeze t)) = map (fun r => f (hd F32.zero r)) (rows t).
Proof. unfold squeeze. destruct (rows t) as [|r [|r' rs]]; cbn; rewrite ?map_map; reflexivity. Qed.

(** With any number of rows but one, [squeeze] gives a one-dimensional
    tensor. *)
Lemma squeeze_dim1 {B} (f : F -> B) (t : tensor) :
  shape0 t <> 1%nat ->
  squeezed_map f (squeeze t) = Dim1 (map (fun r => f (hd F32.zero r)) (rows t)).
Proof.
  unfold shape0, squeeze. destruct (rows t) as [|r [|r' rs]]; cbn; intros H;
    rewrite ?map_map; try reflexivity. contradiction H; reflexivity.
Qed.

Lemma squeeze_dim0 {B} (f : F -> B) (t : tensor) (r : row) :
  rows t = [r] -> squeezed_map f (squeeze t) = Dim0 (f (hd F32.zero r)).
Proof. unfold squeeze. intros ->. reflexivity. Qed.

Lemma keep_tensor_shape0 (m : list bool) (t : tensor) :
  length m = shape0 t -> shape0 (keep_tensor m t) = count_true m.
Proof. intros H. unfold shape0, keep_tensor; simpl. apply select_length. exact H. Qed.

Lemma tensor_eta (t : tensor) : mkTensor (dims t) (rows t) = t.
Proof. destruct t; reflexivity. Qed.

Lemma dims_eqb_refl (d : list nat) : dims_eqb d d = true.
Proof. unfold dims_eqb. destruct (list_eq_dec Nat.eq_dec d d); congruence. Qed.

Lemma cat_same_dims (a b : tensor) :
  dims a = dims b -> cat a b = Some (append_tensor a b).
Proof.
  intros H. unfold cat, append_tensor, is_empty0.
  destruct a as [da ra], b as [db rb]; simpl in *; subst db.
  destruct da; [destruct ra as [|x ra]; [reflexivity|]|].
  - destruct rb; [rewrite app_nil_r; reflexivity|]. rewrite dims_eqb_refl. reflexivity.
  - rewrite dims_eqb_refl. reflexivity.
Qed.

(** ** The conventions on concrete values *)

(** [0.01 * 40] is multiplied in binary64 and rounded to float32 once; the
    product of the two float32 numbers is one unit in the last place
    below. *)
Lemma python_product_rounded_once :
  F64.to_f32 (F64.mul (F64.of_ratio 1 100) (F64.of_Z 40)) = S754_finite false 13421773 (-25) /\
  F32.mul (F32.of_ratio 1 100) (F32.of_Z 40) = S754_finite false 13421772 (-25).
Proof. split; vm_compute; reflexivity. Qed.

(** The norm of a row of one entry is its absolute value, where the square
    would overflow. *)
Lemma row_norm_one_entry :
  row_norm [F32.of_Z (- 10 ^ 30)] = F32.of_Z (10 ^ 30) /\
  F32.sqrt (sum_sq [F32.of_Z (- 10 ^ 30)]) = F32.inf.
Proof. split; vm_compute; reflexivity. Qed.

(** [squeeze] of one row is zero-dimensional; a zero-dimensional mask puts
    a new axis in front of the array it indexes. *)
Lemma squeeze_one_row :
  squeeze (mkTensor [1%nat] [[F32.one]]) = Dim0 F32.one /\
  squeeze (mkTensor [1%nat] [[F32.one]; [F32.zero]]) = Dim1 [F32.one; F32.zero] /\
  index0 (mkTensor [3%nat] [[F32.one; F32.zero; F32.zero]]) true =
    mkTensor [1; 3]%nat [[F32.one; F32.zero; F32.zero]] /\
  index0 (mkTensor [3%nat] [[F32.one; F32.zero; F32.zero]]) false = mkTensor [1; 3]%nat [].
Proof. repeat split; reflexivity. Qed.

(** [logical_and] broadcasts an operand of one entry and refuses operands of
    other unequal lengths. *)
Lemma logical_and_broadcasts :
  logical_and [true] [true; false; true] = Some [true; false; true] /\
  logical_and [true; false; true] [false] = Some [false; false; false] /\
  logical_and [true; false] [true; false; true] = None.
Proof. repeat split; reflexivity. Qed.

(** [t[b] += u] with a zero-dimensional [b]: one row is added to one row;
    no row cannot be added to the array of one row, even when [b] is
    false. *)
Lemma masked_iadd0_shapes :
  masked_iadd0 (mkTensor [1%nat] [[F32.zero]]) true (mkTensor [1%nat] [[F32.one]]) =
    Some (mkTensor [1%nat] [[F32.one]]) /\
  masked_iadd0 (mkTensor [1%nat] [[F32.zero]]) false (mkTensor [1%nat] []) = None.
Proof. split; vm_compute; reflexivity. Qed.

(** * The resizing loops *)

(** A group can be filtered by a mask of length [n]. *)
Definition group_fits (n : nat) (g : param_group) : Prop :=
  is_scene_scale g = true \/ (shape0 (param g) = n /\ moments_ok g).

(** A group can be extended from the dictionary [td]. *)
Definition group_extends (td : dict) (g : param_group) : Prop :=
  is_scene_scale g = true \/
  exists ext, dict_get td (name g) = Some ext /\ dims (param g) = dims ext /\ moments_ok g.

Lemma resized_dict_cons (f : param_group -> param_group) (g : param_group)
    (groups : list param_group) (d : dict) :
  resized_dict f (g :: groups) d =
  resized_dict f groups (if is_scene_scale g then d else dict_set d (name g) (param (f g))).
Proof. reflexivity. Qed.

Lemma keep_group_scene (m : list bool) (g : param_group) :
  is_scene_scale g = true -> keep_group m g = g.
Proof. intros H. unfold keep_group. rewrite H. reflexivity. Qed.

Lemma keep_group_other (m : list bool) (g : param_group) :
  is_scene_scale g = false ->
  keep_group m g =
  mkGroup (name g) (keep_tensor m (param g))
    (option_map (fun st => mkAdam (keep_tensor m (exp_avg st)) (keep_tensor m (exp_avg_sq st)))
                (stored_state g)).
Proof. intros H. unfold keep_group. rewrite H. reflexivity. Qed.

Lemma extend_group_scene (td : dict) (g : param_group) :
  is_scene_scale g = true -> extend_group td g = g.
Proof. intros H. unfold extend_group. rewrite H. reflexivity. Qed.

Lemma extend_group_other (td : dict) (g : param_group) (ext : tensor) :
  is_scene_scale g = false -> dict_get td (name g) = Some ext ->
  extend_group td g =
  mkGroup (name g) (append_tensor (param g) ext)
    (option_map (fun st => mkAdam (append_tensor (exp_avg st) (zeros_like ext))
                                  (append_tensor (exp_avg_sq st) (zeros_like ext)))
                (stored_state g)).
Proof. intros H H'. unfold extend_group. rewrite H, H'. reflexivity. Qed.

Lemma _prune_optimizer_spec (groups : list param_group) (mask : list bool) (d : dict) :
  Forall (group_fits (length mask)) groups ->
  _prune_optimizer groups mask d =
  Some (map (keep_group mask) groups, resized_dict (keep_group mask) groups d).
Proof.
  intros H; revert d; induction H as [|g groups Hg _ IH]; intros d; [reflexivity|].
  rewrite resized_dict_cons. cbn [_prune_optimizer map]. fold (is_scene_scale g).
  destruct (is_scene_scale g) eqn:Es.
  - rewrite IH, keep_group_scene by exact Es. reflexivity.
  - destruct Hg as [Hg|[Hn Hm]]; [congruence|].
    rewrite (keep_group_other mask g Es). cbn [param].
    unfold moments_ok in Hm. destruct (stored_state g) as [st|]; cbn [option_map].
    + destruct Hm as [[_ H1] [_ H2]].
      rewrite !tensor_index_some by congruence. cbn [bind]. rewrite IH. reflexivity.
    + rewrite tensor_index_some by congruence. cbn [bind]. rewrite IH. reflexivity.
Qed.

Lemma cat_tensors_to_optimizer_spec (groups : list param_group) (td d : dict) :
  Forall (group_extends td) groups ->
  cat_tensors_to_optimizer groups td d =
  Some (map (extend_group td) groups, resized_dict (extend_group td) groups d).
Proof.
  intros H; revert d; induction H as [|g groups Hg _ IH]; intros d; [reflexivity|].
  rewrite resized_dict_cons. cbn [cat_tensors_to_optimizer map]. fold (is_scene_scale g).
  destruct (is_scene_scale g) eqn:Es.
  - rewrite IH, extend_group_scene by exact Es. reflexivity.
  - destruct Hg as [Hg|[ext [Hd [He Hm]]]]; [congruence|].
    rewrite (extend_group_other td g Es Hd). cbn [param].
    rewrite Hd. cbn [bind]. unfold moments_ok in Hm.
    destruct (stored_state g) as [st|]; cbn [option_map].
    + destruct Hm as [[H1 _] [H2 _]].
      rewrite !cat_same_dims by (simpl; congruence). cbn [bind]. rewrite IH. reflexivity.
    + rewrite cat_same_dims by congruence. cbn [bind]. rewrite IH. reflexivity.
Qed.

(** The loop of [_prune_optimizer] leaves every [scene_scale] group as it
    is and filters the parameter and both moments of every other group. *)
Lemma _prune_optimizer_groups (groups groups' : list param_group) (mask : list bool)
    (d d' : dict) :
  _prune_optimizer groups mask d = Some (groups', d') ->
  Forall2 (fun g g' =>
             if is_scene_scale g then g' = g
             else name g' = name g /\ param g' = keep_tensor mask (param g) /\
                  length mask = shape0 (param g))
          groups groups'.
Proof.
  revert groups' d d'; induction groups as [|g groups IH]; intros groups' d d' H; simpl in H.
  - inversion H; constructor.
  - fold (is_scene_scale g) in H. destruct (is_scene_scale g) eqn:Es.
    + destruct (_prune_optimizer groups mask d) as [[r dr]|] eqn:E; simpl in H; inversion H; subst.
      constructor; [rewrite Es; reflexivity | eapply IH; eauto].
    + destruct (stored_state g) as [st|].
      * destruct (tensor_index (exp_avg st) mask); simpl in H; [|discriminate].
        destruct (tensor_index (exp_avg_sq st) mask); simpl in H; [|discriminate].
        destruct (tensor_index (param g) mask) as [p|] eqn:Ep; simpl in H; [|discriminate].
        destruct (_prune_optimizer groups mask _) as [[r dr]|] eqn:E; simpl in H; inversion H; subst.
        apply tensor_index_inv in Ep as [Hl ->].
        constructor; [rewrite Es; simpl; auto | eapply IH; eauto].
      * destruct (tensor_index (param g) mask) as [p|] eqn:Ep; simpl in H; [|discriminate].
        destruct (_prune_optimizer groups mask _) as [[r dr]|] eqn:E; simpl in H; inversion H; subst.
        apply tensor_index_inv in Ep as [Hl ->].
        constructor; [rewrite Es; simpl; auto | eapply IH; eauto].
Qed.

(** * Well-formed stores under filtering and extension *)

Ltac wf_groups H g0 g1 g2 g3 g4 g5 g6 Ho Hm :=
  let groups := fresh "groups" in
  let Hn := fresh "Hn" in
  let Hp := fresh "Hp" in
  destruct H as (groups & Ho & Hn & Hp & Hm);
  destruct groups as [|g0 [|g1 [|g2 [|g3 [|g4 [|g5 [|g6 [|? ?]]]]]]]];
  try discriminate Hn;
  destruct g0 as [? ? ?], g1 as [? ? ?], g2 as [? ? ?], g3 as [? ? ?],
           g4 as [? ? ?], g5 as [? ? ?], g6 as [? ? ?];
  unfold group_names, tracked in Hn, Hp; simpl in Hn, Hp;
  injection Hn as ? ? ? ? ? ? ?; injection Hp as ? ? ? ? ? ?; subst.

Ltac fits_groups tac :=
  repeat (apply Forall_cons; [first [left; reflexivity | right; tac] | ]);
  apply Forall_nil.

Lemma prune_points_spec (s : GaussianModel) (mask : list bool) :
  wf s -> length mask = population s ->
  prune_points s mask = Some (keep_model s (logical_not mask)).
Proof.
  intros [Hg Hx [_ Hdc] [_ Hrest] [_ Hop] [_ Hsc] [_ Hrot] [_ Hty] [_ Hscore]
            [_ Hxga] [_ Hpga] [_ Hden] Hrad Hid] Hlen.
  assert (Hv : length (logical_not mask) = population s)
    by (rewrite logical_not_length; exact Hlen).
  wf_groups Hg g0 g1 g2 g3 g4 g5 g6 Ho Hm.
  unfold prune_points, keep_model. rewrite Ho. cbn [bind].
  rewrite _prune_optimizer_spec.
  2:{ repeat match goal with H : Forall _ (_ :: _) |- _ => inversion H; clear H; subst end.
      fits_groups ltac:(split; [simpl; unfold population in *; congruence | assumption]). }
  cbn.
  rewrite !tensor_index_some by (unfold population in *; congruence).
  rewrite !index_mask_some by (unfold population in *; congruence).
  reflexivity.
Qed.

Lemma densification_postfix_spec (s : GaussianModel) (x : extension) (k : nat) :
  wf s -> extension_fits s x k ->
  densification_postfix s (new_xyz x) (new_features_dc x) (new_features_rest x)
    (new_opacities x) (new_scaling x) (new_rotation x) (new_score x)
    (new_xyz_id x) (new_type x) = Some (extend_model s x).
Proof.
  intros [Hg Hx [Ddc Hdc] [Drest Hrest] [Dop Hop] [Dsc Hsc] [Drot Hrot] [Dty Hty]
            [Dscore Hscore] _ _ _ Hrad Hid]
         [[Fx _] [Fdc _] [Frest _] [Fop _] [Fsc _] [Frot _] [Fscore _] _ [Fty _]].
  wf_groups Hg g0 g1 g2 g3 g4 g5 g6 Ho Hm.
  unfold densification_postfix, extend_model. rewrite Ho. cbn [bind].
  fold (extension_dict x).
  rewrite cat_tensors_to_optimizer_spec.
  2:{ repeat match goal with H : Forall _ (_ :: _) |- _ => inversion H; clear H; subst end.
      fits_groups ltac:(eexists; split; [reflexivity|]; split; [simpl; congruence | assumption]). }
  cbn. rewrite !cat_same_dims by congruence. cbn.
  unfold population, shape0, append_tensor; simpl. rewrite length_app. reflexivity.
Qed.

Lemma population_keep_model (s : GaussianModel) (m : list bool) :
  length m = population s -> population (keep_model s m) = count_true m.
Proof. intros H. unfold population. simpl. apply keep_tensor_shape0. exact H. Qed.

Lemma population_extend_model (s : GaussianModel) (x : extension) :
  population (extend_model s x) = (population s + shape0 (new_xyz x))%nat.
Proof. unfold population, shape0. simpl. apply length_app. Qed.

Lemma shaped_keep (n : nat) (d : list nat) (t : tensor) (m : list bool) :
  shaped n d t -> length m = n -> shaped (count_true m) d (keep_tensor m t).
Proof.
  intros [Hd Hn] Hm. split; [exact Hd|]. apply keep_tensor_shape0. congruence.
Qed.

Lemma shaped_append (n k : nat) (d : list nat) (t ext : tensor) :
  shaped n d t -> shape0 ext = k -> shaped (n + k) d (append_tensor t ext).
Proof.
  intros [Hd Hn] Hk. split; [exact Hd|].
  unfold shape0, append_tensor in *; simpl. rewrite length_app. congruence.
Qed.

Lemma shaped_zeros (n : nat) (d : list nat) : shaped n d (zeros n d).
Proof. split; [reflexivity|]. unfold shape0, zeros; simpl. apply repeat_length. Qed.

Lemma moments_ok_keep (nm nm' : string) (p : tensor) (st : option adam_state) (m : list bool) :
  moments_ok (mkGroup nm p st) -> length m = shape0 p ->
  moments_ok (mkGroup nm' (keep_tensor m p)
                (option_map (fun st => mkAdam (keep_tensor m (exp_avg st))
                                              (keep_tensor m (exp_avg_sq st))) st)).
Proof.
  unfold moments_ok; simpl. intros H Hl. destruct st as [st|]; simpl; [|exact I].
  destruct H as [[D1 L1] [D2 L2]].
  split; (split; [assumption|]); rewrite !keep_tensor_shape0 by congruence; reflexivity.
Qed.

Lemma moments_ok_extend (nm nm' : string) (p ext : tensor) (st : option adam_state) :
  moments_ok (mkGroup nm p st) ->
  moments_ok (mkGroup nm' (append_tensor p ext)
                (option_map (fun st => mkAdam (append_tensor (exp_avg st) (zeros_like ext))
                                              (append_tensor (exp_avg_sq st) (zeros_like ext))) st)).
Proof.
  unfold moments_ok; simpl. intros H. destruct st as [st|]; simpl; [|exact I].
  destruct H as [[D1 L1] [D2 L2]]. unfold same_shape, shape0, append_tensor, zeros_like in *; simpl.
  rewrite !length_app, !length_map. rewrite L1, L2. auto.
Qed.

Ltac split_forall :=
  repeat match goal with H : Forall _ (_ :: _) |- _ => inversion H; clear H; subst end.

Lemma wf_keep_model (s : GaussianModel) (m : list bool) :
  wf s -> length m = population s -> wf (keep_model s m).
Proof.
  intros H Hl.
  pose proof (population_keep_model s m Hl) as Hp.
  destruct H as [Hg Hx Hdc Hrest Hop Hsc Hrot Hty Hscore Hxga Hpga Hden Hrad Hid].
  constructor; rewrite ?Hp; try (simpl; eapply shaped_keep; eassumption).
  - wf_groups Hg g0 g1 g2 g3 g4 g5 g6 Ho Hm.
    eexists. cbn [keep_model optimizer]. rewrite Ho. cbn.
    split; [reflexivity|]. split; [reflexivity|]. split; [reflexivity|].
    destruct Hdc as [_ Hdc], Hrest as [_ Hrest], Hop as [_ Hop], Hsc as [_ Hsc], Hrot as [_ Hrot].
    split_forall.
    repeat (apply Forall_cons;
            [first [assumption | apply moments_ok_keep with (nm := name0); [assumption|congruence]
                   | eapply moments_ok_keep; [eassumption | unfold population in *; congruence]] | ]).
    apply Forall_nil.
  - exact Hx.
  - simpl. rewrite select_length; congruence.
  - simpl. rewrite select_length; congruence.
Qed.

Lemma wf_extend_model (s : GaussianModel) (x : extension) (k : nat) :
  wf s -> extension_fits s x k -> wf (extend_model s x).
Proof.
  intros H F.
  pose proof (population_extend_model s x) as Hp.
  destruct F as [[Fx Lx] [Fdc Ldc] [Frest Lrest] [Fop Lop] [Fsc Lsc] [Frot Lrot]
                   [Fscore Lscore] Lid [Fty Lty]].
  destruct H as [Hg Hx Hdc Hrest Hop Hsc Hrot Hty Hscore Hxga Hpga Hden Hrad Hid].
  constructor; rewrite ?Hp, ?Lx;
    try (simpl; eapply shaped_append; [eassumption | congruence]);
    try (cbn [extend_model xyz_gradient_accum position_gradient_accum denom];
         unfold population; rewrite Lx; apply shaped_zeros).
  - wf_groups Hg g0 g1 g2 g3 g4 g5 g6 Ho Hm.
    eexists. cbn [extend_model optimizer]. rewrite Ho. cbn.
    split; [reflexivity|]. split; [reflexivity|]. split; [reflexivity|].
    split_forall.
    repeat (apply Forall_cons;
            [first [assumption | eapply moments_ok_extend; eassumption] | ]).
    apply Forall_nil.
  - exact Hx.
  - cbn [extend_model max_radii2D]. unfold population. rewrite repeat_length. congruence.
  - cbn [extend_model _xyz_id]. rewrite length_app. congruence.
Qed.

(** * Cloning *)

Definition is_planar (type_row : row) : bool := F32.eqb (hd F32.zero type_row) F32.one.

Definition clone_position (xyz type pga den : row) : row :=
  if is_planar type
  then zip_with F32.add xyz (row_div (map (F32.mul (F32.of_Z 1)) pga) den)
  else xyz.

Fixpoint zip_with4 {A B C D R} (f : A -> B -> C -> D -> R)
    (a : list A) (b : list B) (c : list C) (d : list D) : list R :=
  match a, b, c, d with
  | x :: a', y :: b', z :: c', w :: d' => f x y z w :: zip_with4 f a' b' c' d'
  | _, _, _, _ => []
  end.

Section CloneSpec.
Context {E : Externals}.

Definition clone_selected (s : GaussianModel) (grad_threshold scene_extent : D)
    (grad scaling : row) : bool :=
  F32.geb (row_norm grad) (F64.to_f32 grad_threshold) &&
  F32.leb (row_max (map t_exp scaling))
          (F64.to_f32 (F64.mul (percent_dense s) scene_extent)).

(** The mask selects exactly one primitive, and its type is not 1: the
    update of line 566 then adds an array without rows to one with a row. *)
Definition lone_volumetric (s : GaussianModel) (mask : list bool) : bool :=
  match select mask (rows (_type s)) with
  | [t] => negb (is_planar t)
  | _ => false
  end.

Definition cloned_positions (s : GaussianModel) (mask : list bool) : list row :=
  zip_with4 clone_position
    (select mask (rows (_xyz s))) (select mask (rows (_type s)))
    (select mask (rows (position_gradient_accum s))) (select mask (rows (denom s))).

Definition clone_extension (s : GaussianModel) (mask : list bool) : extension :=
  {| new_xyz := mkTensor (dims (_xyz s)) (cloned_positions s mask);
     new_features_dc := keep_tensor mask (_features_dc s);
     new_features_rest := keep_tensor mask (_features_rest s);
     new_opacities := keep_tensor mask (_opacity s);
     new_scaling := keep_tensor mask (_scaling s);
     new_rotation := keep_tensor mask (_rotation s);
     new_score := keep_tensor mask (_score s);
     new_xyz_id := select mask (_xyz_id s);
     new_type := keep_tensor mask (_type s) |}.

Lemma zip_with_map_l {A A' B C} (f : A' -> B -> C) (g : A -> A') a b :
  zip_with f (map g a) b = zip_with (fun x y => f (g x) y) a b.
Proof. revert b; induction a; intros [|y b]; simpl; auto. rewrite IHa. reflexivity. Qed.

Lemma zip_with_map_r {A B B' C} (f : A -> B' -> C) (g : B -> B') a b :
  zip_with f a (map g b) = zip_with (fun x y => f x (g y)) a b.
Proof. revert b; induction a; intros [|y b]; simpl; auto. rewrite IHa. reflexivity. Qed.

Lemma zip_with4_length {A B C D R} (f : A -> B -> C -> D -> R) a b c d :
  length b = length a -> length c = length a -> length d = length a ->
  length (zip_with4 f a b c d) = length a.
Proof.
  revert b c d; induction a; intros [|y b] [|z c] [|w d]; simpl; intros; try discriminate; auto.
Qed.

Lemma masked_nudge (mask : list bool) (xyz ty pga den : list row) :
  length xyz = length mask -> length ty = length mask ->
  length pga = length mask -> length den = length mask ->
  let planar := map is_planar (select mask ty) in
  let mask' := zip_with andb mask (map is_planar ty) in
  scatter planar (select mask xyz)
    (zip_with (zip_with F32.add) (select planar (select mask xyz))
       (zip_with row_div (map (map (F32.mul (F32.of_Z 1))) (select mask' pga))
                 (select mask' den)))
  = zip_with4 clone_position (select mask xyz) (select mask ty)
              (select mask pga) (select mask den).
Proof.
  revert xyz ty pga den.
  induction mask as [|b mask IH]; intros [|x xyz] [|t ty] [|g pga] [|d den];
    simpl; intros; try discriminate; auto.
  destruct b; simpl.
  - unfold clone_position at 1. destruct (is_planar t) eqn:Et; simpl.
    + f_equal. apply IH; lia.
    + f_equal. apply IH; lia.
  - apply IH; lia.
Qed.

Lemma count_planar (mask : list bool) (ty : list row) :
  length ty = length mask ->
  count_true (map is_planar (select mask ty)) =
  count_true (zip_with andb mask (map is_planar ty)).
Proof.
  revert ty; induction mask as [|b mask IH]; intros [|t ty]; simpl; intros; try discriminate; auto.
  destruct b; simpl.
  - unfold count_true in *; simpl. destruct (is_planar t); simpl; rewrite IH by lia; reflexivity.
  - unfold count_true in *; simpl. apply IH; lia.
Qed.

Lemma squeeze_planar (t : tensor) :
  entries (squeezed_map (fun x => F32.eqb x F32.one) (squeeze t)) = map is_planar (rows t).
Proof. rewrite entries_squeezed_map. reflexivity. Qed.

Lemma max_dim1_scaling (s : GaussianModel) :
  wf s -> max_dim1 (get_scaling s) = Some (map (fun r => row_max (map t_exp r)) (rows (_scaling s))).
Proof.
  intros H. destruct (wf_scaling H) as [Hd _].
  unfold max_dim1, get_scaling, tensor_map; simpl. rewrite Hd. simpl. rewrite map_map. reflexivity.
Qed.

Lemma clone_mask_spec (s : GaussianModel) (grads : tensor) (thr ext : D) :
  wf s -> dims grads = [1%nat] -> shape0 grads = population s ->
  clone_mask s grads thr ext =
  Some (zip_with (clone_selected s thr ext) (rows grads) (rows (_scaling s))).
Proof.
  intros H Hd Hg. unfold clone_mask, norm_reaches. rewrite Hd. cbn [bind].
  rewrite max_dim1_scaling by exact H. cbn [bind].
  unfold logical_and. rewrite broadcast_some.
  2:{ rewrite !length_map. destruct (wf_scaling H) as [_ Hs]. unfold shape0 in *. congruence. }
  rewrite map_map, zip_with_map_l, zip_with_map_r. reflexivity.
Qed.


Lemma wf_set_ids (s : GaussianModel) (ids modified : list nat) :
  wf s -> length ids = population s -> wf (set_ids s ids modified).
Proof.
  intros [Hg Hx Hdc Hrest Hop Hsc Hrot Hty Hscore Hxga Hpga Hden Hrad Hid] Hl.
  constructor; try assumption.
Qed.

Lemma mask_length (s : GaussianModel) (grads : tensor) (thr ext : D) :
  wf s -> shape0 grads = population s ->
  length (zip_with (clone_selected s thr ext) (rows grads) (rows (_scaling s))) = population s.
Proof.
  intros H Hg. destruct (wf_scaling H) as [_ Hs]. unfold shape0 in *.
  rewrite zip_with_length. lia.
Qed.

Lemma clone_extension_fits (s : GaussianModel) (mask : list bool) :
  wf s -> length mask = population s ->
  extension_fits s (clone_extension s mask) (count_true mask).
Proof.
  intros [Hg Hx [_ Hdc] [_ Hrest] [_ Hop] [_ Hsc] [_ Hrot] [_ Hty] [_ Hscore]
            [_ Hxga] [_ Hpga] [_ Hden] Hrad Hid] Hl.
  unfold population, shape0 in *.
  constructor; unfold clone_extension; cbn;
    try (split; [reflexivity|]; unfold shape0; cbn; apply select_length; congruence).
  - split; [reflexivity|]. unfold shape0, cloned_positions; cbn.
    rewrite zip_with4_length; rewrite ?select_length; congruence.
  - apply select_length; congruence.
Qed.

(** The update of line 566 on the selected positions, for a mask that
    selects one primitive ([new_type.squeeze()] is zero-dimensional) and for
    one that selects any other number. *)
Lemma lone_volumetric_many (s : GaussianModel) (mask : list bool) :
  length (select mask (rows (_type s))) <> 1%nat -> lone_volumetric s mask = false.
Proof.
  unfold lone_volumetric. destruct (select mask (rows (_type s))) as [|t [|t' ts]]; cbn; intros H;
    try reflexivity. contradiction H; reflexivity.
Qed.

Lemma nudge_one (X O : list row) (P : list bool) :
  length X = 1%nat -> length O = 1%nat -> P = [true] ->
  zip_with (zip_with F32.add) X O =
  scatter P X (zip_with (zip_with F32.add) (select P X) O).
Proof.
  intros HX HO ->. destruct X as [|x [|x' X]]; try discriminate.
  destruct O as [|o [|o' O]]; try discriminate. reflexivity.
Qed.

Lemma densify_and_clone_with_mask (s : GaussianModel) (grads : tensor) (thr ext : D)
    (mask : list bool) :
  wf s -> clone_mask s grads thr ext = Some mask -> length mask = population s ->
  densify_and_clone s grads thr ext =
  if lone_volumetric s mask then None
  else Some (extend_model (set_ids s (_xyz_id s) (modify_id s ++ select mask (_xyz_id s)))
                          (clone_extension s mask)).
Proof.
  intros H Hm Hl.
  pose proof (@clone_extension_fits s mask H Hl) as Hfit.
  pose proof H as H'.
  destruct H as [Hgr Hx [Ddc Hdc] [Drest Hrest] [Dop Hop] [Dsc Hsc] [Drot Hrot] [Dty Hty]
                   [Dscore Hscore] [Dxga Hxga] [Dpga Hpga] [Dden Hden] Hrad Hid].
  unfold densify_and_clone. rewrite Hm. cbn [bind].
  unfold population, shape0 in *.
  rewrite !tensor_index_some by (unfold shape0; congruence).
  rewrite !index_mask_some by congruence. cbn [bind].
  rewrite squeeze_planar. unfold logical_and. rewrite broadcast_some by (rewrite length_map; congruence).
  cbn [bind].
  assert (Hl' : length (zip_with andb mask (map is_planar (rows (_type s)))) = length mask).
  { rewrite zip_with_length, length_map. lia. }
  rewrite !tensor_index_some by (unfold shape0; congruence). cbn [bind].
  unfold tensor_div. cbn [rows keep_tensor tensor_map dims].
  rewrite pointwise_some by (rewrite length_map, !select_length by congruence; reflexivity).
  cbn [bind].
  assert (Hoff : length (zip_with row_div
                    (map (map (F32.mul (F32.of_Z 1)))
                       (select (zip_with andb mask (map is_planar (rows (_type s))))
                          (rows (position_gradient_accum s))))
                    (select (zip_with andb mask (map is_planar (rows (_type s))))
                       (rows (denom s))))
                 = count_true (map is_planar (select mask (rows (_type s))))).
  { rewrite zip_with_length, length_map, !select_length by congruence.
    rewrite count_planar by congruence. lia. }
  destruct (Nat.eq_dec (length (select mask (rows (_type s)))) 1) as [Hone|Hmany].
  - (* one primitive selected: the mask of line 566 is zero-dimensional *)
    unfold lone_volumetric.
    destruct (select mask (rows (_type s))) as [|t [|t' ts]] eqn:Esel; try discriminate Hone.
    rewrite (@squeeze_dim0 _ _ (keep_tensor mask (_type s)) t) by (cbn; exact Esel).
    fold (is_planar t).
    assert (HX : length (select mask (rows (_xyz s))) = 1%nat).
    { rewrite select_length by congruence. rewrite <- Hone.
      rewrite <- Esel, select_length by congruence. reflexivity. }
    unfold masked_iadd0, shape0. cbn [rows keep_tensor dims].
    rewrite Hoff, HX. cbn [map].
    destruct (is_planar t) eqn:Et; cbn [negb count_true filter length Nat.eqb].
    + cbn [bind].
      rewrite (@nudge_one (select mask (rows (_xyz s))) _ (map is_planar (select mask (rows (_type s)))))
        by (rewrite ?Hoff, ?Esel; cbn; rewrite ?Et; auto).
      rewrite masked_nudge by congruence.
      apply (densification_postfix_spec (x := clone_extension s mask) (k := count_true mask)).
      * apply wf_set_ids; assumption.
      * destruct Hfit; constructor; assumption.
    + cbn in Hoff. rewrite Et in Hoff. cbn in Hoff.
      destruct (zip_with row_div _ _); [reflexivity|discriminate Hoff].
  - rewrite lone_volumetric_many by exact Hmany.
    rewrite squeeze_dim1 by exact Hmany.
    fold is_planar. change (map (fun r => is_planar r) ?l) with (map is_planar l).
    unfold masked_iadd. cbn [rows keep_tensor dims].
    rewrite tensor_index_some
      by (unfold shape0; cbn; rewrite length_map, !select_length by congruence; reflexivity).
    cbn [bind rows keep_tensor dims].
    rewrite pointwise_some.
    2:{ rewrite Hoff. rewrite !select_length; rewrite ?length_map, ?select_length; congruence. }
    cbn [bind].
    rewrite masked_nudge by congruence.
    apply (densification_postfix_spec (x := clone_extension s mask) (k := count_true mask)).
    + apply wf_set_ids; assumption.
    + destruct Hfit; constructor; assumption.
Qed.

(** If the clone pass returns, its mask has a flag per primitive. *)
Lemma densify_and_clone_inv (s s' : GaussianModel) (grads : tensor) (thr ext : D) :
  densify_and_clone s grads thr ext = Some s' ->
  exists mask, clone_mask s grads thr ext = Some mask /\ length mask = population s.
Proof.
  unfold densify_and_clone. intros H.
  destruct (clone_mask s grads thr ext) as [mask|]; [|discriminate]. cbn [bind] in H.
  destruct (tensor_index (_xyz s) mask) as [x|] eqn:Ex; [|discriminate].
  apply tensor_index_inv in Ex as [Hl _]. exists mask. split; [reflexivity|exact Hl].
Qed.

Lemma densify_and_clone_spec (s : GaussianModel) (grads : tensor) (thr ext : D) :
  wf s -> dims grads = [1%nat] -> shape0 grads = population s ->
  let mask := zip_with (clone_selected s thr ext) (rows grads) (rows (_scaling s)) in
  densify_and_clone s grads thr ext =
  if lone_volumetric s mask then None
  else Some (extend_model (set_ids s (_xyz_id s) (modify_id s ++ select mask (_xyz_id s)))
                          (clone_extension s mask)).
Proof.
  intros H Hd Hg mask.
  apply densify_and_clone_with_mask; [exact H| |].
  - apply clone_mask_spec; assumption.
  - apply mask_length; assumption.
Qed.

End CloneSpec.

(** * Splitting *)

Ltac list_len :=
  repeat first
    [ rewrite zip_with_length | rewrite tile_length | rewrite imap_length
    | rewrite length_combine | rewrite length_map | rewrite repeat_length
    | rewrite length_app | rewrite logical_not_length
    | rewrite select_length by (list_len; congruence) ].

Section SplitSpec.
Context {E : Externals}.

Definition split_selected (s : GaussianModel) (grad_threshold scene_extent : D)
    (grad : F) (scaling : row) : bool :=
  F32.geb grad (F64.to_f32 grad_threshold) &&
  F32.gtb (row_max (map t_exp scaling))
          (F64.to_f32 (F64.mul (percent_dense s) scene_extent)).

(** The gradient of every primitive as [densify_and_split] sees it. *)
Definition padded (s : GaussianModel) (grads : tensor) : list F :=
  map (fun r => hd F32.zero r) (rows grads) ++
  repeat F32.zero (population s - shape0 grads).

(** The position of the child number [j] of a parent given by its position,
    raw scale and raw rotation. *)
Definition split_child (z : nat -> nat -> F) (j : nat) (parent : row * (row * row)) : row :=
  let sample :=
    imap (fun c m_s => F32.add (F32.mul (z j c) (snd m_s)) (fst m_s)) 0
         (combine (repeat F32.zero 3) (map t_exp (fst (snd parent)))) in
  zip_with F32.add (matvec (build_rotation (snd (snd parent))) sample) (fst parent).

Definition split_parents (s : GaussianModel) (mask : list bool) : list (row * (row * row)) :=
  combine (select mask (rows (_xyz s)))
          (combine (select mask (rows (_scaling s))) (select mask (rows (_rotation s)))).

Definition split_extension (s : GaussianModel) (mask : list bool) (N : nat)
    (z : nat -> nat -> F) : extension :=
  {| new_xyz := mkTensor (dims (_xyz s)) (imap (split_child z) 0 (tile N (split_parents s mask)));
     new_features_dc := tensor_repeat N (keep_tensor mask (_features_dc s));
     new_features_rest := tensor_repeat N (keep_tensor mask (_features_rest s));
     new_opacities := tensor_repeat N (keep_tensor mask (_opacity s));
     new_scaling :=
       tensor_map
         (fun a => t_log (F32.div (t_exp a)
                            (F64.to_f32 (F64.mul (F64.of_ratio 8 10)
                                                 (F64.of_Z (Z.of_nat N))))))
         (tensor_repeat N (keep_tensor mask (_scaling s)));
     new_rotation := tensor_repeat N (keep_tensor mask (_rotation s));
     new_score := tensor_repeat N (keep_tensor mask (_score s));
     new_xyz_id := tile N (select mask (_xyz_id s));
     new_type := tensor_repeat N (keep_tensor mask (_type s)) |}.

Lemma tile_map {A B} (f : A -> B) (n : nat) (l : list A) : tile n (map f l) = map f (tile n l).
Proof. induction n; simpl; auto. rewrite map_app, IHn. reflexivity. Qed.

Lemma combine_app {A B} (a a' : list A) (b b' : list B) :
  length a = length b -> combine (a ++ a') (b ++ b') = combine a b ++ combine a' b'.
Proof.
  revert b; induction a; intros [|y b]; simpl; intros; try discriminate; auto.
  f_equal. apply IHa. lia.
Qed.

Lemma tile_combine {A B} (n : nat) (a : list A) (b : list B) :
  length a = length b -> tile n (combine a b) = combine (tile n a) (tile n b).
Proof. intros H. induction n; simpl; auto. rewrite combine_app, IHn by exact H. reflexivity. Qed.

Lemma moved_children (z : nat -> nat -> F) (i0 : nat) (X S R : list row) :
  length S = length X -> length R = length X ->
  zip_with (zip_with F32.add)
    (zip_with matvec (map build_rotation R)
       (imap (fun i ms =>
                imap (fun j m_s => F32.add (F32.mul (z i j) (snd m_s)) (fst m_s)) 0
                     (combine (fst ms) (snd ms)))
             i0 (combine (repeat (repeat F32.zero 3) (length X)) (map (map t_exp) S))))
    X
  = imap (split_child z) i0 (combine X (combine S R)).
Proof.
  revert i0 S R; induction X as [|x X IH]; intros i0 [|s S] [|r R]; simpl; intros;
    try discriminate; auto.
  f_equal. apply IH; lia.
Qed.

Lemma padded_grad_spec (s : GaussianModel) (grads : tensor) :
  dims grads = [1%nat] -> (shape0 grads <= population s)%nat ->
  padded_grad s grads = Some (padded s grads).
Proof.
  intros Hd H. unfold padded_grad, padded, get_xyz. fold (population s).
  rewrite Hd, dims_eqb_refl. cbn [orb].
  unfold squeeze, shape0 in *.
  destruct (rows grads) as [|r [|r' rs]].
  - cbn. rewrite Nat.sub_0_r. reflexivity.
  - cbn in H. destruct (population s) as [|n]; [lia|]. cbn. rewrite firstn_nil, Nat.sub_0_r. reflexivity.
  - rewrite length_map.
    destruct (Nat.leb_spec (length (r :: r' :: rs)) (population s)); [reflexivity|lia].
Qed.

Lemma padded_length (s : GaussianModel) (grads : tensor) :
  (shape0 grads <= population s)%nat -> length (padded s grads) = population s.
Proof.
  intros H. unfold padded. rewrite length_app, length_map, repeat_length.
  unfold shape0 in *. lia.
Qed.

Lemma split_mask_spec (s : GaussianModel) (grads : tensor) (thr ext : D) :
  wf s -> dims grads = [1%nat] -> (shape0 grads <= population s)%nat ->
  split_mask s grads thr ext =
  Some (zip_with (split_selected s thr ext) (padded s grads) (rows (_scaling s))).
Proof.
  intros H Hd Hg. unfold split_mask. rewrite padded_grad_spec by assumption. cbn [bind].
  rewrite max_dim1_scaling by exact H. cbn [bind].
  unfold logical_and. rewrite broadcast_some.
  2:{ rewrite !length_map, padded_length by exact Hg.
      destruct (wf_scaling H) as [_ Hs]. unfold shape0 in *. congruence. }
  rewrite map_map, zip_with_map_l, zip_with_map_r. reflexivity.
Qed.

Lemma split_mask_length (s : GaussianModel) (grads : tensor) (thr ext : D) :
  wf s -> (shape0 grads <= population s)%nat ->
  length (zip_with (split_selected s thr ext) (padded s grads) (rows (_scaling s)))
  = population s.
Proof.
  intros H Hg. destruct (wf_scaling H) as [_ Hs]. unfold shape0 in *.
  rewrite zip_with_length, padded_length by exact Hg. lia.
Qed.

Lemma split_extension_fits (s : GaussianModel) (mask : list bool) (N : nat)
    (z : nat -> nat -> F) :
  wf s -> length mask = population s ->
  extension_fits s (split_extension s mask N z) (N * count_true mask).
Proof.
  intros [Hg Hx [_ Hdc] [_ Hrest] [_ Hop] [_ Hsc] [_ Hrot] [_ Hty] [_ Hscore]
            [_ Hxga] [_ Hpga] [_ Hden] Hrad Hid] Hl.
  unfold population, shape0 in *.
  constructor; unfold split_extension; cbn;
    try (split; [reflexivity|]; unfold shape0; cbn;
         rewrite ?length_map, tile_length, select_length by congruence; reflexivity).
  - split; [reflexivity|]. unfold shape0, split_parents; cbn.
    list_len. lia.
  - rewrite tile_length, select_length by congruence. reflexivity.
Qed.

Lemma densify_and_split_with_mask (s : GaussianModel) (grads : tensor) (thr ext : D)
    (N : nat) (z : nat -> nat -> F) (mask : list bool) :
  wf s -> split_mask s grads thr ext = Some mask -> length mask = population s ->
  densify_and_split s grads thr ext N z =
  Some (keep_model
          (extend_model (set_ids s (_xyz_id s) (modify_id s ++ select mask (_xyz_id s)))
                        (split_extension s mask N z))
          (logical_not (mask ++ repeat false (N * count_true mask)))).
Proof.
  intros H Hm Hl.
  pose proof (@split_extension_fits s mask N z H Hl) as Hfit.
  pose proof H as H'.
  destruct H as [Hgr Hx [Ddc Hdc] [Drest Hrest] [Dop Hop] [Dsc Hsc] [Drot Hrot] [Dty Hty]
                   [Dscore Hscore] [Dxga Hxga] [Dpga Hpga] [Dden Hden] Hrad Hid].
  unfold densify_and_split. rewrite Hm. cbn [bind].
  unfold population, shape0 in *. unfold get_xyz.
  rewrite !tensor_index_some
    by (unfold shape0, get_scaling, tensor_map; cbn; rewrite ?length_map; congruence).
  rewrite !index_mask_some by congruence. cbn [bind].
  rewrite pointwise_some.
  2:{ cbn. list_len. lia. }
  cbn [bind].
  match goal with |- context [densification_postfix ?a ?b ?c ?d ?e ?f ?g ?h ?i ?j] =>
    replace (densification_postfix a b c d e f g h i j)
      with (Some (extend_model a (split_extension s mask N z))) end.
  - cbn [bind]. apply prune_points_spec.
    + eapply wf_extend_model; [apply wf_set_ids; eassumption|].
      destruct Hfit; constructor; eassumption.
    + rewrite population_extend_model. cbn. unfold split_parents, population, shape0. cbn.
      list_len. lia.
  - symmetry.
    rewrite <- (@densification_postfix_spec _ (split_extension s mask N z) (N * count_true mask)).
    + unfold split_extension. cbn [new_xyz new_features_dc new_features_rest new_opacities
        new_scaling new_rotation new_score new_xyz_id new_type].
      f_equal.
      * f_equal. cbn. unfold split_parents.
        rewrite !tile_combine by (list_len; lia).
        rewrite <- moved_children by (list_len; reflexivity).
        rewrite !tile_map, select_map, ?tile_map. unfold shape0. cbn.
        list_len. reflexivity.
      * unfold tensor_map, tensor_repeat, keep_tensor, get_scaling, tensor_map. cbn.
        f_equal. rewrite select_map, tile_map, !map_map.
        apply map_ext. intros r. rewrite map_map. reflexivity.
    + apply wf_set_ids; assumption.
    + destruct Hfit; constructor; assumption.
Qed.

(** If the split pass returns, its mask has a flag per primitive. *)
Lemma densify_and_split_inv (s s' : GaussianModel) (grads : tensor) (thr ext : D)
    (N : nat) (z : nat -> nat -> F) :
  densify_and_split s grads thr ext N z = Some s' ->
  exists mask, split_mask s grads thr ext = Some mask /\ length mask = population s.
Proof.
  unfold densify_and_split. intros H.
  destruct (split_mask s grads thr ext) as [mask|]; [|discriminate]. cbn [bind] in H.
  destruct (tensor_index (get_scaling s) mask) as [x|]; [|discriminate]. cbn [bind] in H.
  destruct (tensor_index (_rotation s) mask) as [r|]; [|discriminate]. cbn [bind] in H.
  destruct (tensor_index (get_xyz s) mask) as [y|] eqn:Ey; [|discriminate].
  apply tensor_index_inv in Ey as [Hl _]. exists mask. split; [reflexivity|exact Hl].
Qed.

Lemma densify_and_split_spec (s : GaussianModel) (grads : tensor) (thr ext : D)
    (N : nat) (z : nat -> nat -> F) :
  wf s -> dims grads = [1%nat] -> (shape0 grads <= population s)%nat ->
  let mask := zip_with (split_selected s thr ext) (padded s grads) (rows (_scaling s)) in
  densify_and_split s grads thr ext N z =
  Some (keep_model
          (extend_model (set_ids s (_xyz_id s) (modify_id s ++ select mask (_xyz_id s)))
                        (split_extension s mask N z))
          (logical_not (mask ++ repeat false (N * count_true mask)))).
Proof.
  intros H Hd Hg mask.
  apply densify_and_split_with_mask; [exact H| |].
  - apply split_mask_spec; assumption.
  - apply split_mask_length; assumption.
Qed.

End SplitSpec.

(** * Sequences of structural operations *)

(** The structural operations of the population. *)
Inductive resize_op : Type :=
| OpClone (grads : tensor) (grad_threshold scene_extent : D)
| OpSplit (grads : tensor) (grad_threshold scene_extent : D) (N : nat) (z : nat -> nat -> F)
| OpPrune (mask : list bool).

Section Sequences.
Context {E : Externals}.

Definition apply_op (s : GaussianModel) (o : resize_op) : option GaussianModel :=
  match o with
  | OpClone grads thr ext => densify_and_clone s grads thr ext
  | OpSplit grads thr ext N z => densify_and_split s grads thr ext N z
  | OpPrune mask => prune_points s mask
  end.

Fixpoint run (ops : list resize_op) (s : GaussianModel) : option GaussianModel :=
  match ops with
  | [] => Some s
  | o :: ops' => s' <- apply_op s o ;; run ops' s'
  end.

(** The arguments of an operation have the sizes the store asks for: a
    gradient of shape (n, 1) with a row per primitive for a clone and at
    most one per primitive for a split, a mask with a flag per primitive for
    a prune; and a clone does not select one primitive alone whose type is
    not 1, on which line 566 raises. *)
Definition op_fits (s : GaussianModel) (o : resize_op) : Prop :=
  match o with
  | OpClone grads thr ext =>
      dims grads = [1%nat] /\ shape0 grads = population s /\
      lone_volumetric s (zip_with (clone_selected s thr ext) (rows grads)
                                  (rows (_scaling s))) = false
  | OpSplit grads _ _ _ _ => dims grads = [1%nat] /\ (shape0 grads <= population s)%nat
  | OpPrune mask => length mask = population s
  end.

Fixpoint ops_fit (ops : list resize_op) (s : GaussianModel) : Prop :=
  match ops with
  | [] => True
  | o :: ops' => op_fits s o /\ forall s', apply_op s o = Some s' -> ops_fit ops' s'
  end.

Lemma find_keep_group (m : list bool) (groups : list param_group) :
  find is_scene_scale (map (keep_group m) groups) = find is_scene_scale groups.
Proof.
  induction groups as [|g groups IH]; [reflexivity|]. cbn [map find].
  destruct (is_scene_scale g) eqn:Es.
  - rewrite keep_group_scene by exact Es. rewrite Es. reflexivity.
  - rewrite keep_group_other by exact Es. unfold is_scene_scale at 1. cbn [name].
    fold (is_scene_scale g). rewrite Es. exact IH.
Qed.

Lemma find_extend_group (td : dict) (groups : list param_group) :
  find is_scene_scale (map (extend_group td) groups) = find is_scene_scale groups.
Proof.
  induction groups as [|g groups IH]; [reflexivity|]. cbn [map find].
  destruct (is_scene_scale g) eqn:Es.
  - rewrite extend_group_scene by exact Es. rewrite Es. reflexivity.
  - assert (Hn : is_scene_scale (extend_group td g) = false).
    { unfold extend_group. rewrite Es. destruct (dict_get td (name g)); [|exact Es].
      unfold is_scene_scale in *. exact Es. }
    rewrite Hn. exact IH.
Qed.

Lemma scene_scale_keep_model (s : GaussianModel) (m : list bool) :
  scene_scale_group (keep_model s m) = scene_scale_group s /\
  _scene_scale (keep_model s m) = _scene_scale s.
Proof.
  split; [|reflexivity]. unfold scene_scale_group. cbn [keep_model optimizer].
  destruct (optimizer s); [apply find_keep_group|reflexivity].
Qed.

Lemma scene_scale_extend_model (s : GaussianModel) (x : extension) :
  scene_scale_group (extend_model s x) = scene_scale_group s /\
  _scene_scale (extend_model s x) = _scene_scale s.
Proof.
  split; [|reflexivity]. unfold scene_scale_group. cbn [extend_model optimizer].
  destruct (optimizer s); [apply find_extend_group|reflexivity].
Qed.

(** What one operation preserves. *)
Definition resized (s s' : GaussianModel) : Prop :=
  wf s' /\ scene_scale_group s' = scene_scale_group s /\ _scene_scale s' = _scene_scale s.

Lemma extension_fits_set_ids (s : GaussianModel) (x : extension) (k : nat) ids modified :
  extension_fits s x k -> extension_fits (set_ids s ids modified) x k.
Proof. intros []; constructor; assumption. Qed.

Ltac scene_scale_same :=
  repeat match goal with
  | |- context [scene_scale_group (keep_model ?a ?m)] =>
      let A := fresh in let B := fresh in
      destruct (scene_scale_keep_model a m) as [A B]; rewrite A; clear A B
  | |- context [scene_scale_group (extend_model ?a ?x)] =>
      let A := fresh in let B := fresh in
      destruct (scene_scale_extend_model a x) as [A B]; rewrite A; clear A B
  end; split; reflexivity.

Lemma resized_clone (s : GaussianModel) (mask : list bool) :
  wf s -> length mask = population s ->
  resized s (extend_model (set_ids s (_xyz_id s) (modify_id s ++ select mask (_xyz_id s)))
                          (clone_extension s mask)).
Proof.
  intros H Hl. split; [|scene_scale_same].
  eapply wf_extend_model; [apply wf_set_ids; [exact H|apply (wf_xyz_id H)]|].
  apply extension_fits_set_ids, clone_extension_fits; assumption.
Qed.

Lemma resized_split (s : GaussianModel) (mask : list bool) (N : nat) (z : nat -> nat -> F) :
  wf s -> length mask = population s ->
  resized s (keep_model
               (extend_model (set_ids s (_xyz_id s) (modify_id s ++ select mask (_xyz_id s)))
                             (split_extension s mask N z))
               (logical_not (mask ++ repeat false (N * count_true mask)))).
Proof.
  intros H Hl. split; [|scene_scale_same].
  apply wf_keep_model.
  - eapply wf_extend_model; [apply wf_set_ids; [exact H|apply (wf_xyz_id H)]|].
    apply extension_fits_set_ids, split_extension_fits; assumption.
  - rewrite population_extend_model.
    destruct (fits_xyz (split_extension_fits _ N z H Hl)) as [_ Hx].
    rewrite Hx. list_len. rewrite Hl. unfold population; cbn. lia.
Qed.

Lemma apply_op_fits (s : GaussianModel) (o : resize_op) :
  wf s -> op_fits s o -> exists s', apply_op s o = Some s' /\ resized s s'.
Proof.
  intros H Hf. destruct o as [grads thr ext|grads thr ext N z|mask]; cbn [apply_op op_fits] in *.
  - destruct Hf as (Hd & Hg & Hlone).
    rewrite densify_and_clone_spec by assumption. rewrite Hlone.
    eexists; split; [reflexivity|].
    apply resized_clone; [exact H|]. apply mask_length; assumption.
  - destruct Hf as (Hd & Hg).
    rewrite densify_and_split_spec by assumption. eexists; split; [reflexivity|].
    apply resized_split; [exact H|]. apply split_mask_length; assumption.
  - rewrite prune_points_spec by assumption. eexists; split; [reflexivity|].
    split; [|scene_scale_same].
    apply wf_keep_model; [exact H|]. rewrite logical_not_length. exact Hf.
Qed.

Lemma prune_points_some_fits (s s' : GaussianModel) (mask : list bool) :
  wf s -> prune_points s mask = Some s' -> length mask = population s.
Proof.
  intros H Ha.
  - unfold prune_points in Ha.
    destruct (wf_groups H) as (groups & Ho & Hn & Hp & Hm). rewrite Ho in Ha. cbn [bind] in Ha.
    destruct (_prune_optimizer groups (logical_not mask) []) as [[gs d]|] eqn:Eg; [|discriminate].
    apply _prune_optimizer_groups in Eg.
    destruct groups as [|g0 [|g1 groups]]; try discriminate Hn.
    inversion Eg as [|? ? ? ? _ Eg']; subst. inversion Eg' as [|? ? ? ? Hg1 _]; subst.
    unfold group_names, tracked in *. cbn in Hn, Hp. injection Hn as _ N1 _. injection Hp as P1 _.
    unfold is_scene_scale in Hg1. rewrite N1 in Hg1. cbn in Hg1. destruct Hg1 as (_ & _ & Hl).
    rewrite logical_not_length, P1 in Hl. exact Hl.
Qed.

(** Whatever its arguments, an operation that returns on a well-formed
    store leaves a well-formed store. *)
Lemma apply_op_some_resized (s s' : GaussianModel) (o : resize_op) :
  wf s -> apply_op s o = Some s' -> resized s s'.
Proof.
  intros H Ha. destruct o as [grads thr ext|grads thr ext N z|mask]; cbn [apply_op] in *.
  - destruct (densify_and_clone_inv _ _ _ _ Ha) as (m & Hm & Hl).
    rewrite (densify_and_clone_with_mask _ _ _ H Hm Hl) in Ha.
    destruct (lone_volumetric s m); [discriminate|]. injection Ha as <-.
    apply resized_clone; assumption.
  - destruct (densify_and_split_inv _ _ _ _ _ _ Ha) as (m & Hm & Hl).
    rewrite (densify_and_split_with_mask _ _ _ N z H Hm Hl) in Ha. injection Ha as <-.
    apply resized_split; assumption.
  - pose proof (prune_points_some_fits _ H Ha) as Hl.
    rewrite prune_points_spec in Ha by assumption. injection Ha as <-.
    split; [|scene_scale_same].
    apply wf_keep_model; [exact H|]. rewrite logical_not_length. exact Hl.
Qed.

Lemma lockstep_group (n : nat) (g : param_group) :
  moments_ok g -> shape0 (param g) = n ->
  shape0 (param g) = n /\
  forall st, stored_state g = Some st -> shape0 (exp_avg st) = n /\ shape0 (exp_avg_sq st) = n.
Proof.
  intros Hm Hn. split; [exact Hn|]. intros st Est. unfold moments_ok in Hm.
  rewrite Est in Hm. destruct Hm as [[_ L1] [_ L2]]. split; congruence.
Qed.

Lemma wf_lockstep (s : GaussianModel) : wf s -> lockstep s (population s).
Proof.
  intros [Hg Hx [_ Hdc] [_ Hrest] [_ Hop] [_ Hsc] [_ Hrot] _ _ _ _ _ _ _].
  split.
  - unfold tracked. repeat constructor; assumption.
  - wf_groups Hg g0 g1 g2 g3 g4 g5 g6 Ho Hm. eexists; split; [exact Ho|].
    split_forall.
    repeat (apply Forall_cons;
      [ first [ cbn; intros Hs; discriminate Hs
              | intros _; apply lockstep_group; [assumption | first [reflexivity | assumption]] ] | ]).
    apply Forall_nil.
Qed.

End Sequences.

(** * A concrete store, and the lockstep invariant *)

Definition from_some {A} (o : option A) (d : A) : A :=
  match o with Some a => a | None => d end.

Module Demo.
Import Ref.
Definition f (n d : Z) : F := F32.of_ratio n d.

(** Four points, types VOLUMETRIC, PLANAR, VOLUMETRIC, PLANAR. *)
Definition pcd : BasicPointCloud :=
  mkPcd (mkTensor [3%nat] [[f 0 1; f 0 1; f 0 1]; [f 1 1; f 0 1; f 0 1];
                            [f 0 1; f 1 1; f 0 1]; [f 5 1; f 5 1; f 5 1]])
        (mkTensor [3%nat] [[f 1 2; f 1 2; f 1 2]; [f 1 2; f 1 2; f 1 2];
                            [f 1 2; f 1 2; f 1 2]; [f 1 2; f 1 2; f 1 2]])
        (mkTensor [3%nat] [[f 0 1; f 0 1; f 1 1]; [f 0 1; f 0 1; f 1 1];
                            [f 0 1; f 1 1; f 0 1]; [f 1 1; f 0 1; f 0 1]])
        (mkTensor [1%nat] [[f 0 1]; [f 1 1]; [f 0 1]; [f 1 1]]).

(** The store after [create_from_pcd] and [training_setup]. *)
Definition created : GaussianModel :=
  from_some (create_from_pcd (init 1) pcd (f 1 1)) (init 1).
Definition ready : GaussianModel := training_setup created (f 1 100).

(** One training step in which the first two primitives were visible. *)
Definition seen : GaussianModel :=
  from_some (add_densification_stats ready
               (mkTensor [3%nat] [[f 3 1; f 4 1; f 0 1]; [f 3 100; f 4 100; f 0 1];
                                   [f 0 1; f 0 1; f 0 1]; [f 0 1; f 0 1; f 0 1]])
               (mkTensor [3%nat] [[f 1 10; f 0 1; f 0 1]; [f 0 1; f 1 10; f 0 1];
                                   [f 0 1; f 0 1; f 0 1]; [f 0 1; f 0 1; f 0 1]])
               [true; true; false; false])
            ready.

(** A training step in which the renderer returned an infinite
    screen-space gradient for the first two primitives. *)
Definition overflowed : GaussianModel :=
  from_some (add_densification_stats ready
               (mkTensor [3%nat] [[F32.inf; f 0 1; f 0 1]; [F32.inf; f 0 1; f 0 1];
                                   [f 0 1; f 0 1; f 0 1]; [f 0 1; f 0 1; f 0 1]])
               (mkTensor [3%nat] [[f 0 1; f 0 1; f 0 1]; [f 0 1; f 0 1; f 0 1];
                                   [f 0 1; f 0 1; f 0 1]; [f 0 1; f 0 1; f 0 1]])
               [true; true; false; false])
            ready.

(** A cloud of one point, of type VOLUMETRIC, and the store after
    [create_from_pcd] and [training_setup] on it. *)
Definition pcd1 : BasicPointCloud :=
  mkPcd (mkTensor [3%nat] [[f 0 1; f 0 1; f 0 1]])
        (mkTensor [3%nat] [[f 1 2; f 1 2; f 1 2]])
        (mkTensor [3%nat] [[f 0 1; f 0 1; f 1 1]])
        (mkTensor [1%nat] [[f 0 1]]).
Definition single : GaussianModel :=
  training_setup (from_some (create_from_pcd (init 1) pcd1 (f 1 1)) (init 1)) (f 1 100).

Definition z (i j : nat) : F := f 1 2.

(** The averaged gradient of [seen] and three resizing calls on it. *)
Definition grads : tensor := from_some (densify_grads seen) empty0.
Definition ops : list resize_op :=
  [OpClone grads (f 1 100) (f 10 1); OpSplit grads (f 1 100) (f 1 1) 2 z;
   OpPrune [true; false; false; false; false; false; false; false]].

(** The store after one densification step. *)
Definition densified : GaussianModel :=
  from_some (densify_and_prune seen (f 1 100) (f 5 1000) (f 10 1) None z) seen.
End Demo.

Section C1.
Context {E : Externals}.

Lemma assign_rows_length {A} (n : nat) (l r : list A) :
  assign_rows n l = Some r -> length r = n.
Proof.
  unfold assign_rows. destruct (Nat.eqb_spec (length l) n) as [Hl|_].
  - intros [= <-]. exact Hl.
  - destruct l as [|x [|y l]]; try discriminate. intros [= <-]. apply repeat_length.
Qed.

Lemma copy_second_scale_length (m : squeezed bool) (scales r : list row) :
  copy_second_scale m scales = Some r -> length r = length scales.
Proof.
  unfold copy_second_scale. destruct m as [b|l].
  - intros [= <-]. destruct b; [apply length_map|reflexivity].
  - destruct (Nat.eqb_spec (length l) (length scales)) as [Hl|_]; [|discriminate].
    intros [= <-]. rewrite zip_with_length. lia.
Qed.

Lemma wf_create_from_pcd (self s : GaussianModel) (pcd : BasicPointCloud) (scale pd : F) :
  create_from_pcd self pcd scale = Some s ->
  shape0 (colors pcd) = shape0 (points pcd) ->
  shape0 (types pcd) = shape0 (points pcd) ->
  dims (points pcd) = [3%nat] -> dims (types pcd) = [1%nat] ->
  wf (training_setup s pd).
Proof.
  unfold create_from_pcd. intros H Hc Ht D3 D1.
  destruct (assign_rows _ _) as [rots|] eqn:Er; [|discriminate]. cbn [bind] in H.
  destruct (copy_second_scale _ _) as [scales|] eqn:Es; [|discriminate]. cbn [bind] in H.
  apply assign_rows_length in Er. apply copy_second_scale_length in Es.
  rewrite !length_map, length_seq in Es.
  injection H as <-.
  constructor; cbn; unfold population; cbn; unfold shaped, shape0 in *; cbn;
    try (split; [first [reflexivity|assumption]|]);
    rewrite ?repeat_length, ?length_map, ?length_seq, ?zip_with_length, ?length_map,
            ?length_seq; try reflexivity; try lia.
  - eexists. split; [reflexivity|]. split; [reflexivity|]. split; [reflexivity|].
    repeat constructor.
  - exact D3.
Qed.

(** C1.  After any sequence of clone, split and prune calls on a store with
    an initialised optimizer that returns, whatever the arguments of the
    calls, the six tracked arrays, the parameters of the optimizer and both
    Adam moments (where present) have one length, and the [scene_scale]
    group and parameter are untouched; the sequence does return when the
    arguments of every call have the sizes of the store it meets and no
    clone call selects a single primitive whose type is not 1. *)
Theorem resize_keeps_lockstep (ops : list resize_op) (s : GaussianModel) :
  wf s ->
  (forall s', run ops s = Some s' ->
     wf s' /\ lockstep s' (population s') /\
     scene_scale_group s' = scene_scale_group s /\ _scene_scale s' = _scene_scale s) /\
  (ops_fit ops s -> exists s', run ops s = Some s').
Proof.
  revert s; induction ops as [|o ops IH]; intros s H; cbn [run ops_fit].
  - split.
    + intros s' [= <-].
      split; [exact H | split; [apply wf_lockstep; exact H | split; reflexivity]].
    + intros _. eexists; reflexivity.
  - split.
    + intros s' Hr. destruct (apply_op s o) as [s1|] eqn:Ea; [|discriminate]. cbn [bind] in Hr.
      destruct (apply_op_some_resized o H Ea) as (W1 & G1 & S1).
      destruct (IH s1 W1) as [IH1 _]. destruct (IH1 s' Hr) as (W & L & G & S).
      split; [exact W | split; [exact L | split; congruence]].
    + intros [Hf Hrest]. destruct (apply_op_fits o H Hf) as (s1 & Ea & W1 & _).
      rewrite Ea. cbn [bind]. destruct (IH s1 W1) as [_ IH2]. apply IH2, Hrest, Ea.
Qed.

End C1.

Lemma demo_ready_wf : wf Demo.ready.
Proof.
  apply (@wf_create_from_pcd Ref.externals (init 1) Demo.created Demo.pcd (Demo.f 1 1)); reflexivity.
Qed.

(** * The clone and split passes *)

Lemma scatter_length {A} (sel : list bool) (l vals : list A) :
  length (scatter sel l vals) = length l.
Proof.
  revert l vals; induction sel as [|b sel IH]; intros [|x l] vals; cbn; auto.
  destruct b; [destruct vals|]; cbn; rewrite IH; reflexivity.
Qed.

Lemma masked_iadd_shape (t u r : tensor) (sel : list bool) :
  masked_iadd t sel u = Some r -> dims r = dims t /\ shape0 r = shape0 t.
Proof.
  unfold masked_iadd. destruct (tensor_index t sel); cbn [bind]; [|discriminate].
  destruct (pointwise _ _ _); cbn [bind]; [|discriminate].
  intros [= <-]. split; [reflexivity|]. unfold shape0; cbn. apply scatter_length.
Qed.

Lemma wf_add_densification_stats (s s' : GaussianModel) (vg xg : tensor) (m : list bool) :
  wf s -> add_densification_stats s vg xg m = Some s' -> wf s'.
Proof.
  intros [Hg Hx Hdc Hrest Hop Hsc Hrot Hty Hscore [Dxga Hxga] [Dpga Hpga] [Dden Hden] Hrad Hid].
  unfold add_densification_stats.
  destruct (tensor_index vg m); cbn [bind]; [|discriminate].
  destruct (masked_iadd (xyz_gradient_accum s) m _) as [a|] eqn:Ea; cbn [bind]; [|discriminate].
  destruct (tensor_index xg m); cbn [bind]; [|discriminate].
  destruct (masked_iadd (position_gradient_accum s) m _) as [b|] eqn:Eb; cbn [bind]; [|discriminate].
  destruct (tensor_index (denom s) m); cbn [bind]; [|discriminate].
  destruct (masked_iadd (denom s) m _) as [c|] eqn:Ec; cbn [bind]; [|discriminate].
  intros [= <-].
  apply masked_iadd_shape in Ea as [Da La], Eb as [Db Lb], Ec as [Dc Lc].
  unfold shaped, population in *.
  constructor; unfold shaped, population; cbn; try assumption; split; congruence.
Qed.

Lemma demo_seen_wf : wf Demo.seen.
Proof.
  apply (@wf_add_densification_stats Demo.ready Demo.seen
           (mkTensor [3%nat] [[Demo.f 3 1; Demo.f 4 1; Demo.f 0 1];
                             [Demo.f 3 100; Demo.f 4 100; Demo.f 0 1];
                             [Demo.f 0 1; Demo.f 0 1; Demo.f 0 1];
                             [Demo.f 0 1; Demo.f 0 1; Demo.f 0 1]])
           (mkTensor [3%nat] [[Demo.f 1 10; Demo.f 0 1; Demo.f 0 1];
                             [Demo.f 0 1; Demo.f 1 10; Demo.f 0 1];
                             [Demo.f 0 1; Demo.f 0 1; Demo.f 0 1];
                             [Demo.f 0 1; Demo.f 0 1; Demo.f 0 1]])
           [true; true; false; false]).
  - exact demo_ready_wf.
  - reflexivity.
Qed.

Section Passes.
Context {E : Externals}.




End Passes.

(** * The pruning pass *)

(** Modelled from the spec: the averaged gradient as section 4.3 words it,
    [positionGradAccum / denom] with NaN replaced by zero. *)
Definition spec_avg_grad (s : GaussianModel) : option tensor :=
  grads <- tensor_div (position_gradient_accum s) (denom s) ;;
  Some (nan_to_zero grads).

Fixpoint zip_with3 {A B C R} (f : A -> B -> C -> R)
    (a : list A) (b : list B) (c : list C) : list R :=
  match a, b, c with
  | x :: a', y :: b', z :: c' => f x y z :: zip_with3 f a' b' c'
  | _, _, _ => []
  end.







Lemma select_repeat {A} (m : list bool) (x : A) (n : nat) :
  length m = n -> select m (repeat x n) = repeat x (count_true m).
Proof.
  intros <-. unfold count_true. induction m as [|[] m IH]; cbn; [reflexivity| |]; rewrite ?IH;
    reflexivity.
Qed.

Section PruneSpec.
Context {E : Externals}.

(** The removal test of the pruning pass on one primitive. *)
Definition removed (min_opacity extent : D) (max_screen_size : option D)
    (opacity scaling : row) (radius : F) : bool :=
  F32.ltb (hd F32.zero (map t_sigmoid opacity)) (F64.to_f32 min_opacity) ||
  match max_screen_size with
  | Some size =>
      F32.truthy size &&
      (F32.gtb radius (F64.to_f32 size) ||
       F32.gtb (row_max (map t_exp scaling))
               (F64.to_f32 (F64.mul (F64.of_ratio 1 10) extent)))
  | None => false
  end.



Lemma zip_with3_length {A B C R} (f : A -> B -> C -> R) a b c :
  length b = length a -> length c = length a -> length (zip_with3 f a b c) = length a.
Proof.
  revert b c; induction a; intros [|y b] [|z c]; cbn; intros; try discriminate; auto.
Qed.

Lemma zip_with3_or {A B C} (f : A -> bool) (g : C -> bool) (h : B -> bool) a b c :
  length b = length a -> length c = length a ->
  zip_with orb (zip_with orb (map f a) (map g c)) (map h b) =
  zip_with3 (fun x y z => f x || (g z || h y)) a b c.
Proof.
  revert b c; induction a; intros [|y b] [|z c]; cbn; intros; try discriminate; auto.
  rewrite IHa by lia. rewrite orb_assoc. reflexivity.
Qed.

Lemma zip_with3_first {A B C R} (f : A -> R) (a : list A) (b : list B) (c : list C) :
  length b = length a -> length c = length a ->
  map f a = zip_with3 (fun x _ _ => f x) a b c.
Proof.
  revert b c; induction a; intros [|y b] [|z c]; cbn; intros; try discriminate; auto.
  rewrite <- IHa by lia. reflexivity.
Qed.

Lemma zip_with3_ext {A B C R} (f g : A -> B -> C -> R) a b c :
  (forall x y z, f x y z = g x y z) -> zip_with3 f a b c = zip_with3 g a b c.
Proof.
  intros H. revert b c; induction a; intros [|y b] [|z c]; cbn; auto.
  rewrite H, IHa. reflexivity.
Qed.


(** The flags of the removal mask, whatever its number of axes. *)
Lemma prune_mask_entries (s : GaussianModel) (min_opacity extent : D) (mss : option D) :
  wf s ->
  option_map entries (prune_mask s min_opacity extent mss) =
  Some (zip_with3 (removed min_opacity extent mss)
                  (rows (_opacity s)) (rows (_scaling s)) (max_radii2D s)).
Proof.
  intros H.
  destruct (wf_opacity H) as [_ Ho]. destruct (wf_scaling H) as [_ Hs].
  pose proof (wf_max_radii2D H) as Hr. unfold shape0 in *.
  unfold prune_mask. rewrite entries_squeezed_map.
  unfold get_opacity, tensor_map. cbn [rows]. rewrite !map_map.
  assert (Hfirst : forall v,
             (forall o sc r, removed min_opacity extent v o sc r =
                             F32.ltb (hd F32.zero (map t_sigmoid o)) (F64.to_f32 min_opacity)) ->
             option_map entries
               (Some (squeezed_map (fun o => F32.ltb o (F64.to_f32 min_opacity))
                        (squeeze (mkTensor (dims (_opacity s))
                                           (map (map t_sigmoid) (rows (_opacity s))))))) =
             Some (zip_with3 (removed min_opacity extent v)
                     (rows (_opacity s)) (rows (_scaling s)) (max_radii2D s))).
  { intros v Hv. cbn [option_map]. rewrite entries_squeezed_map. cbn [rows]. rewrite map_map.
    f_equal.
    rewrite (@zip_with3_first _ _ _ _ _ (rows (_opacity s)) (rows (_scaling s)) (max_radii2D s))
      by congruence.
    apply zip_with3_ext. intros. rewrite Hv. reflexivity. }
  destruct mss as [size|].
  - destruct (F32.truthy size) eqn:Et.
    + rewrite max_dim1_scaling by exact H. cbn [bind]. unfold logical_or.
      rewrite broadcast_some by (list_len; congruence). cbn [bind].
      rewrite broadcast_some by (list_len; lia). cbn [bind option_map entries]. f_equal.
      rewrite map_map.
      rewrite (@zip_with3_or _ _ _ _ _ _ (rows (_opacity s)) (rows (_scaling s)) (max_radii2D s))
        by congruence.
      apply zip_with3_ext. intros. unfold removed. rewrite Et. reflexivity.
    + apply Hfirst. intros. unfold removed. rewrite Et, orb_false_r. reflexivity.
  - apply Hfirst. intros. unfold removed. rewrite orb_false_r. reflexivity.
Qed.

(** The removal mask is one-dimensional unless there is a single primitive
    and the size tests are skipped. *)
Lemma prune_mask_spec (s : GaussianModel) (min_opacity extent : D) (mss : option D) :
  wf s -> population s <> 1%nat \/ py_truthy mss = true ->
  prune_mask s min_opacity extent mss =
  Some (Dim1 (zip_with3 (removed min_opacity extent mss)
                        (rows (_opacity s)) (rows (_scaling s)) (max_radii2D s))).
Proof.
  intros H Hc. pose proof (@prune_mask_entries s min_opacity extent mss H) as He.
  destruct (wf_opacity H) as [_ Ho].
  unfold prune_mask in *.
  destruct mss as [size|]; cbn [py_truthy] in Hc.
  - destruct (F32.truthy size).
    + destruct (max_dim1 (get_scaling s)); cbn [bind] in *; [|discriminate].
      destruct (logical_or _ _); cbn [bind] in *; [|discriminate].
      destruct (logical_or _ _); cbn [bind] in *; [|discriminate].
      cbn [option_map entries] in He. injection He as He. do 2 f_equal. exact He.
    + destruct Hc as [Hc|Hc]; [|discriminate].
      rewrite squeeze_dim1 in * by (unfold get_opacity, tensor_map, shape0 in *; cbn;
                                   rewrite length_map; congruence).
      cbn [option_map entries] in He. injection He as He. do 2 f_equal. exact He.
  - destruct Hc as [Hc|Hc]; [|discriminate].
    rewrite squeeze_dim1 in * by (unfold get_opacity, tensor_map, shape0 in *; cbn;
                                 rewrite length_map; congruence).
    cbn [option_map entries] in He. injection He as He. do 2 f_equal. exact He.
Qed.


Lemma prune_mask_length (s : GaussianModel) (min_opacity extent : D) (mss : option D) :
  wf s ->
  length (zip_with3 (removed min_opacity extent mss)
                    (rows (_opacity s)) (rows (_scaling s)) (max_radii2D s)) = population s.
Proof.
  intros H. destruct (wf_opacity H) as [_ Ho]. destruct (wf_scaling H) as [_ Hs].
  pose proof (wf_max_radii2D H) as Hr. unfold shape0 in *.
  rewrite zip_with3_length; congruence.
Qed.

Lemma prune_pass_spec (s : GaussianModel) (min_opacity extent : D) (mss : option D) :
  wf s -> population s <> 1%nat \/ py_truthy mss = true ->
  prune_pass s min_opacity extent mss =
  Some (keep_model s (logical_not (zip_with3 (removed min_opacity extent mss)
                         (rows (_opacity s)) (rows (_scaling s)) (max_radii2D s)))).
Proof.
  intros H Hc. unfold prune_pass. rewrite prune_mask_spec by assumption. cbn [bind].
  apply prune_points_spec; [exact H|]. apply prune_mask_length; exact H.
Qed.




Lemma wf_reset_ids (s : GaussianModel) :
  wf s -> wf (set_ids (reset_xyz_id s) (_xyz_id (reset_xyz_id s)) []).
Proof. intros H. apply wf_set_ids; [apply wf_set_ids; [exact H|]|]; cbn; apply length_seq. Qed.



End PruneSpec.

(** * The averaged gradient *)

Lemma zip_with_nth_error {A B C} (f : A -> B -> C) (a : list A) (b : list B) i x y :
  nth_error a i = Some x -> nth_error b i = Some y ->
  nth_error (zip_with f a b) i = Some (f x y).
Proof.
  revert b i; induction a as [|x0 a IH]; intros [|y0 b] [|i]; cbn; intros; try discriminate.
  - congruence.
  - apply IH; assumption.
Qed.

Lemma map_zip_with {A B C D} (g : C -> D) (f : A -> B -> C) (a : list A) (b : list B) :
  map g (zip_with f a b) = zip_with (fun x y => g (f x y)) a b.
Proof. revert b; induction a; intros [|y b]; cbn; auto. rewrite IHa. reflexivity. Qed.

Section Grads.
Context {E : Externals}.

Lemma densify_grads_spec (s : GaussianModel) :
  wf s ->
  densify_grads s =
  Some (nan_to_zero (mkTensor (dims (xyz_gradient_accum s))
                              (zip_with row_div (rows (xyz_gradient_accum s))
                                        (rows (denom s))))).
Proof.
  intros H. destruct (wf_xyz_gradient_accum H) as [Da La]. destruct (wf_denom H) as [Dd Ld].
  unfold shape0 in *.
  unfold densify_grads, tensor_div. rewrite pointwise_some by congruence. reflexivity.
Qed.

Lemma densify_grads_shape0 (s : GaussianModel) (grads : tensor) :
  wf s -> densify_grads s = Some grads -> shape0 grads = population s.
Proof.
  intros H Hg. rewrite densify_grads_spec in Hg by exact H. injection Hg as <-.
  destruct (wf_xyz_gradient_accum H) as [_ La]. destruct (wf_denom H) as [_ Ld].
  unfold shape0 in *. cbn. list_len. lia.
Qed.

(** C2 (amended).  For a store with an initialised optimizer,
    [densify_and_prune] computes one averaged gradient per primitive as
    [xyz_gradient_accum / denom], the accumulated screen-space gradient
    norm over the visibility count, and replaces every NaN by zero; an
    entry whose accumulator and count are both zero becomes zero; this
    NaN-free tensor is what the clone and the split pass receive. *)
Theorem densify_grads_nan_free (s : GaussianModel) :
  wf s ->
  exists grads,
    densify_grads s = Some grads /\
    dims grads = [1%nat] /\ shape0 grads = population s /\
    rows grads =
      zip_with (fun acc den => map (fun x => if F32.isnan x then F32.zero else x)
                                   (row_div acc den))
               (rows (xyz_gradient_accum s)) (rows (denom s)) /\
    Forall (Forall (fun x => F32.isnan x = false)) (rows grads) /\
    (forall i acc den,
        nth_error (rows (xyz_gradient_accum s)) i = Some [acc] ->
        nth_error (rows (denom s)) i = Some [den] ->
        nth_error (rows grads) i =
        Some [if F32.isnan (F32.div acc den) then F32.zero else F32.div acc den]) /\
    (forall i,
        nth_error (rows (xyz_gradient_accum s)) i = Some [F32.zero] ->
        nth_error (rows (denom s)) i = Some [F32.zero] ->
        nth_error (rows grads) i = Some [F32.zero]) /\
    (forall max_grad min_opacity extent max_screen_size z,
        densify_and_prune s max_grad min_opacity extent max_screen_size z =
        (s3 <- densify_and_clone (set_ids (reset_xyz_id s) (_xyz_id (reset_xyz_id s)) [])
                 grads max_grad extent ;;
         s4 <- densify_and_split s3 grads max_grad extent 2 z ;;
         s5 <- prune_pass s4 min_opacity extent max_screen_size ;;
         recompute_normals s5)).
Proof.
  intros H. destruct (wf_xyz_gradient_accum H) as [Da La]. destruct (wf_denom H) as [Dd Ld].
  unfold shape0 in *.
  pose proof (densify_grads_spec H) as Hg.
  eexists. split; [exact Hg|].
  assert (Hrows : rows (nan_to_zero (mkTensor (dims (xyz_gradient_accum s))
                                   (zip_with row_div (rows (xyz_gradient_accum s))
                                             (rows (denom s))))) =
                  zip_with (fun acc den => map (fun x => if F32.isnan x then F32.zero else x)
                                               (row_div acc den))
                           (rows (xyz_gradient_accum s)) (rows (denom s))).
  { cbn [nan_to_zero tensor_map rows]. apply map_zip_with. }
  split; [exact Da|]. split; [unfold shape0; rewrite Hrows; list_len; lia|].
  split; [exact Hrows|].
  split.
  { cbn. apply Forall_forall. intros r Hr. apply in_map_iff in Hr as (r0 & <- & _).
    apply Forall_forall. intros x Hx. apply in_map_iff in Hx as (x0 & <- & _).
    destruct (F32.isnan x0) eqn:En; [reflexivity|exact En]. }
  split.
  { intros i acc den Ha Hd. rewrite Hrows.
    rewrite (zip_with_nth_error _ _ _ _ Ha Hd). reflexivity. }
  split.
  { intros i Ha Hd. rewrite Hrows.
    rewrite (zip_with_nth_error _ _ _ _ Ha Hd). reflexivity. }
  intros. unfold densify_and_prune. rewrite Hg. reflexivity.
Qed.

End Grads.

(** C2, as stated, fails: on the store [Demo.seen] the gradient that
    [densify_and_prune] feeds to the selection is not
    [position_gradient_accum / denom], and at the threshold 1 the clone
    pass selects with the one what it would not select with the other. *)
Lemma densify_grads_not_position_grad :
  densify_grads Demo.seen <> spec_avg_grad Demo.seen /\
  (g <- densify_grads Demo.seen ;;
   clone_mask (E := Ref.externals) Demo.seen g (F32.of_Z 1) (F32.of_Z 10)) <>
  (g <- spec_avg_grad Demo.seen ;;
   clone_mask (E := Ref.externals) Demo.seen g (F32.of_Z 1) (F32.of_Z 10)).
Proof. split; vm_compute; discriminate. Qed.


(** * Densification that selects nothing *)

(** The store with its gradient statistics zeroed, as
    [densification_postfix] leaves them. *)
Definition reset_statistics (s : GaussianModel) : GaussianModel :=
  {| active_sh_degree := active_sh_degree s;
     max_sh_degree := max_sh_degree s;
     _normal := _normal s;
     _score := _score s;
     _type := _type s;
     _scene_scale := _scene_scale s;
     _xyz := _xyz s;
     _xyz_id := _xyz_id s;
     modify_id := modify_id s;
     _features_dc := _features_dc s;
     _features_rest := _features_rest s;
     _scaling := _scaling s;
     _rotation := _rotation s;
     _opacity := _opacity s;
     max_radii2D := repeat F32.zero (population s);
     xyz_gradient_accum := zeros (population s) [1%nat];
     position_gradient_accum := zeros (population s) [3%nat];
     denom := zeros (population s) [1%nat];
     optimizer := optimizer s;
     percent_dense := percent_dense s;
     spatial_lr_scale := spatial_lr_scale s |}.

Definition empty_extension (x : extension) : Prop :=
  rows (new_xyz x) = [] /\ rows (new_features_dc x) = [] /\
  rows (new_features_rest x) = [] /\ rows (new_opacities x) = [] /\
  rows (new_scaling x) = [] /\ rows (new_rotation x) = [] /\
  rows (new_score x) = [] /\ new_xyz_id x = [] /\ rows (new_type x) = [].

Lemma append_tensor_nothing (t x : tensor) : rows x = [] -> append_tensor t x = t.
Proof. intros H. unfold append_tensor. rewrite H, app_nil_r. apply tensor_eta. Qed.

Lemma select_everything {A} (n : nat) (l : list A) :
  length l = n -> select (repeat true n) l = l.
Proof. intros <-. apply select_all_true. Qed.

Lemma keep_tensor_everything (n : nat) (t : tensor) :
  shape0 t = n -> keep_tensor (repeat true n) t = t.
Proof. intros H. unfold keep_tensor. rewrite select_everything by exact H. apply tensor_eta. Qed.

Lemma group_eta (g : param_group) : mkGroup (name g) (param g) (stored_state g) = g.
Proof. destruct g; reflexivity. Qed.

Lemma extend_group_nothing (td : dict) (g : param_group) :
  (forall nm ext, dict_get td nm = Some ext -> rows ext = []) ->
  extend_group td g = g.
Proof.
  intros H. unfold extend_group. destruct (is_scene_scale g); [reflexivity|].
  destruct (dict_get td (name g)) as [ext|] eqn:Ed; [|reflexivity].
  pose proof (H _ _ Ed) as Hr.
  rewrite append_tensor_nothing by exact Hr.
  destruct g as [nm p [[ea eas]|]]; cbn; [|reflexivity].
  rewrite !append_tensor_nothing by (cbn; rewrite Hr; reflexivity). reflexivity.
Qed.

Lemma keep_group_everything (n : nat) (g : param_group) :
  moments_ok g -> shape0 (param g) = n -> keep_group (repeat true n) g = g.
Proof.
  intros H Hn. unfold keep_group. destruct (is_scene_scale g); [reflexivity|].
  rewrite keep_tensor_everything by exact Hn. unfold moments_ok in H.
  destruct g as [nm p [[ea eas]|]]; cbn in *; [|reflexivity].
  destruct H as [[_ H1] [_ H2]].
  rewrite !keep_tensor_everything by congruence. reflexivity.
Qed.

Lemma extension_dict_get (x : extension) nm ext :
  empty_extension x -> dict_get (extension_dict x) nm = Some ext -> rows ext = [].
Proof.
  intros (H1 & H2 & H3 & H4 & H5 & H6 & _) Hd. unfold extension_dict, dict_set in Hd. cbn in Hd.
  repeat match type of Hd with
         | (if ?c then _ else _) = _ => destruct c; [injection Hd as <-; assumption|]
         end.
  discriminate.
Qed.

Lemma extend_model_nothing (s : GaussianModel) (x : extension) :
  empty_extension x -> extend_model s x = reset_statistics s.
Proof.
  intros Hx. pose proof (extension_dict_get (x := x)) as Hd.
  destruct Hx as (H1 & H2 & H3 & H4 & H5 & H6 & H7 & H8 & H9).
  unfold extend_model, reset_statistics.
  rewrite !append_tensor_nothing by assumption.
  rewrite H8, app_nil_r. unfold shape0 at 1 2 3 4. rewrite H1. cbn [length].
  rewrite Nat.add_0_r.
  replace (option_map (map (extend_group (extension_dict x))) (optimizer s)) with (optimizer s).
  - reflexivity.
  - destruct (optimizer s) as [groups|]; [|reflexivity]. cbn. f_equal.
    induction groups as [|g groups IH]; [reflexivity|]. cbn.
    rewrite <- IH. rewrite extend_group_nothing; [reflexivity|].
    intros nm ext Hn. apply (Hd nm ext); [|exact Hn]. repeat split; assumption.
Qed.

Lemma model_eta (s : GaussianModel) :
  {| active_sh_degree := active_sh_degree s;
     max_sh_degree := max_sh_degree s;
     _normal := _normal s;
     _score := _score s;
     _type := _type s;
     _scene_scale := _scene_scale s;
     _xyz := _xyz s;
     _xyz_id := _xyz_id s;
     modify_id := modify_id s;
     _features_dc := _features_dc s;
     _features_rest := _features_rest s;
     _scaling := _scaling s;
     _rotation := _rotation s;
     _opacity := _opacity s;
     max_radii2D := max_radii2D s;
     xyz_gradient_accum := xyz_gradient_accum s;
     position_gradient_accum := position_gradient_accum s;
     denom := denom s;
     optimizer := optimizer s;
     percent_dense := percent_dense s;
     spatial_lr_scale := spatial_lr_scale s |} = s.
Proof. destruct s; reflexivity. Qed.

Lemma keep_model_everything (s : GaussianModel) :
  wf s -> keep_model s (repeat true (population s)) = s.
Proof.
  intros [Hg Hx [_ Hdc] [_ Hrest] [_ Hop] [_ Hsc] [_ Hrot] [_ Hty] [_ Hscore]
            [_ Hxga] [_ Hpga] [_ Hden] Hrad Hid].
  unfold keep_model.
  rewrite !keep_tensor_everything by (assumption || reflexivity).
  rewrite !select_everything by assumption.
  replace (option_map (map (keep_group (repeat true (population s)))) (optimizer s))
    with (optimizer s); [apply model_eta|].
  wf_groups Hg g0 g1 g2 g3 g4 g5 g6 Ho Hm. rewrite Ho. cbn [option_map map]. split_forall.
  rewrite keep_group_scene by reflexivity.
  rewrite !keep_group_everything by (assumption || reflexivity).
  reflexivity.
Qed.

Lemma tile_nil {A} (n : nat) : tile n (@nil A) = [].
Proof. induction n; cbn; auto. Qed.

Lemma logical_not_repeat_false (n : nat) : logical_not (repeat false n) = repeat true n.
Proof. unfold logical_not. rewrite map_repeat. reflexivity. Qed.

Lemma wf_reset_statistics (s : GaussianModel) : wf s -> wf (reset_statistics s).
Proof.
  intros [Hg Hx Hdc Hrest Hop Hsc Hrot Hty Hscore Hxga Hpga Hden Hrad Hid].
  constructor; try assumption; cbn; try apply shaped_zeros.
  unfold population. cbn. apply repeat_length.
Qed.

(** The store with the normals that Open3D estimates from its positions. *)
Definition with_normals {E : Externals} (s : GaussianModel) : GaussianModel :=
  set_normal s (estimated_normals s).

Lemma recompute_normals_spec {E : Externals} (s : GaussianModel) :
  dims (_xyz s) = [3%nat] -> recompute_normals s = Some (with_normals s).
Proof.
  intros H. unfold recompute_normals, get_xyz. rewrite H, dims_eqb_refl. reflexivity.
Qed.

Section NoOp.
Context {E : Externals}.

Lemma lone_volumetric_nothing (s : GaussianModel) (n : nat) :
  lone_volumetric s (repeat false n) = false.
Proof. unfold lone_volumetric. rewrite select_all_false. reflexivity. Qed.

Lemma clone_nothing (s : GaussianModel) (grads : tensor) (thr ext : D) :
  wf s -> dims grads = [1%nat] -> shape0 grads = population s ->
  zip_with (clone_selected s thr ext) (rows grads) (rows (_scaling s)) =
    repeat false (population s) ->
  densify_and_clone s grads thr ext = Some (reset_statistics s).
Proof.
  intros H Hd Hg Hm. rewrite densify_and_clone_spec by assumption. rewrite Hm.
  rewrite lone_volumetric_nothing.
  rewrite extend_model_nothing.
  - rewrite select_all_false, app_nil_r. reflexivity.
  - unfold empty_extension, clone_extension, cloned_positions; cbn.
    rewrite !select_all_false. repeat split; reflexivity.
Qed.

Lemma split_nothing (s : GaussianModel) (grads : tensor) (thr ext : D) (N : nat)
    (z : nat -> nat -> F) :
  wf s -> dims grads = [1%nat] -> (shape0 grads <= population s)%nat ->
  zip_with (split_selected s thr ext) (padded s grads) (rows (_scaling s)) =
    repeat false (population s) ->
  densify_and_split s grads thr ext N z = Some (reset_statistics s).
Proof.
  intros H Hd Hg Hm. rewrite densify_and_split_spec by assumption. rewrite Hm.
  rewrite count_true_repeat_false, Nat.mul_0_r. cbn [repeat]. rewrite app_nil_r.
  rewrite logical_not_repeat_false.
  rewrite extend_model_nothing.
  - rewrite select_all_false, app_nil_r.
    replace (reset_statistics (set_ids s (_xyz_id s) (modify_id s)))
      with (reset_statistics s) by reflexivity.
    apply f_equal.
    apply (keep_model_everything (wf_reset_statistics H)).
  - unfold empty_extension, split_extension, split_parents; cbn.
    rewrite !select_all_false. cbn [combine]. rewrite !tile_nil. cbn.
    repeat split; reflexivity.
Qed.

Lemma prune_nothing (s : GaussianModel) (min_opacity extent : D) (mss : option D) :
  wf s -> population s <> 1%nat \/ py_truthy mss = true ->
  zip_with3 (removed min_opacity extent mss) (rows (_opacity s)) (rows (_scaling s))
            (max_radii2D s) = repeat false (population s) ->
  prune_pass s min_opacity extent mss = Some s.
Proof.
  intros H Hc Hm. rewrite prune_pass_spec by assumption. rewrite Hm, logical_not_repeat_false.
  f_equal. apply keep_model_everything. exact H.
Qed.

(** The store after a call of [densify_and_prune] in which nothing is
    cloned, split or pruned. *)
Definition settled (s : GaussianModel) : GaussianModel :=
  with_normals (reset_statistics (set_ids s (seq 0 (population s)) [])).

Lemma densify_grads_dims (s : GaussianModel) (grads : tensor) :
  wf s -> densify_grads s = Some grads -> dims grads = [1%nat].
Proof.
  intros H Hg. unfold densify_grads, tensor_div in Hg.
  destruct (pointwise row_div _ _) as [r|]; [|discriminate]. injection Hg as <-.
  exact (proj1 (wf_xyz_gradient_accum H)).
Qed.

Lemma densify_and_prune_nothing (s : GaussianModel) (grads : tensor)
    (thr min_opacity extent : D) (mss : option D) (z : nat -> nat -> F) :
  wf s -> densify_grads s = Some grads ->
  population s <> 1%nat \/ py_truthy mss = true ->
  zip_with (clone_selected s thr extent) (rows grads) (rows (_scaling s)) =
    repeat false (population s) ->
  zip_with (split_selected s thr extent) (map (fun r => hd F32.zero r) (rows grads))
           (rows (_scaling s)) =
    repeat false (population s) ->
  zip_with3 (removed min_opacity extent mss) (rows (_opacity s)) (rows (_scaling s))
            (repeat F32.zero (population s)) = repeat false (population s) ->
  densify_and_prune s thr min_opacity extent mss z = Some (settled s).
Proof.
  intros H Hg Hone Hc Hs Hp.
  pose proof (densify_grads_dims H Hg) as Hd.
  assert (Hn : shape0 grads = population s).
  { unfold densify_grads, tensor_div in Hg.
    destruct (pointwise row_div _ _) as [r|] eqn:Ep; [|discriminate]. injection Hg as <-.
    apply pointwise_inv in Ep as [Hl ->]. destruct (wf_xyz_gradient_accum H) as [_ Hx].
    destruct (wf_denom H) as [_ Hdn]. unfold shape0 in *; cbn. list_len. lia. }
  unfold densify_and_prune. rewrite Hg. cbn [bind].
  set (s1 := set_ids (reset_xyz_id s) (_xyz_id (reset_xyz_id s)) []).
  assert (W1 : wf s1) by (apply wf_reset_ids; exact H).
  rewrite (@clone_nothing s1 grads thr extent W1 Hd Hn Hc). cbn [bind].
  rewrite (@split_nothing (reset_statistics s1) grads thr extent 2 z).
  - cbn [bind]. rewrite prune_nothing.
    + cbn [bind]. apply recompute_normals_spec. exact (wf_xyz H).
    + apply wf_reset_statistics, wf_reset_statistics, W1.
    + exact Hone.
    + exact Hp.
  - apply wf_reset_statistics, W1.
  - exact Hd.
  - rewrite Hn. apply Nat.le_refl.
  - unfold padded. change (population (reset_statistics s1)) with (population s).
    rewrite Hn, Nat.sub_diag. cbn [repeat]. rewrite app_nil_r. exact Hs.
Qed.

End NoOp.

(** * Thresholds at which nothing or everything is selected *)

Lemma zip_with_all_false {A B} (f : A -> B -> bool) (n : nat) (a : list A) (b : list B) :
  Forall (fun x => forall y, f x y = false) a -> length a = n -> length b = n ->
  zip_with f a b = repeat false n.
Proof.
  intros H; revert n b; induction H as [|x a Hx _ IH]; intros [|n] [|y b]; cbn; intros;
    try discriminate; auto.
  rewrite Hx, (IH n) by lia. reflexivity.
Qed.

Lemma zip_with3_all {A B C} (f : A -> B -> C -> bool) (v : bool) (n : nat) a b c :
  Forall (fun x => forall y z, f x y z = v) a ->
  length a = n -> length b = n -> length c = n ->
  zip_with3 f a b c = repeat v n.
Proof.
  intros H; revert n b c; induction H as [|x a Hx _ IH]; intros [|n] [|y b] [|z c]; cbn; intros;
    try discriminate; auto.
  rewrite Hx, (IH n) by lia. reflexivity.
Qed.


Lemma Forall_select {A} (P : A -> Prop) (m : list bool) (l : list A) :
  Forall P l -> Forall P (select m l).
Proof.
  intros H; revert m; induction H as [|x l Hx _ IH]; intros [|[] m]; cbn; auto.
Qed.

Lemma Forall_tile {A} (P : A -> Prop) (n : nat) (l : list A) :
  Forall P l -> Forall P (tile n l).
Proof. intros H. induction n; cbn; [constructor|]. apply Forall_app; split; assumption. Qed.


Lemma wf_set_normal (s : GaussianModel) (v : normal_value) : wf s -> wf (set_normal s v).
Proof.
  intros [Hg Hx Hdc Hrest Hop Hsc Hrot Hty Hscore Hxga Hpga Hden Hrad Hid].
  constructor; assumption.
Qed.


(** An infinity of either sign. *)
Definition is_infinite (x : F) : bool :=
  match x with S754_infinity _ => true | _ => false end.

Lemma finite_below_infinity (x : F) :
  is_infinite x = false ->
  F32.geb (SFabs x) (F64.to_f32 F32.inf) = false /\ F32.geb x (F64.to_f32 F32.inf) = false.
Proof. destruct x as [[]|[]| |[] m e]; cbn; intros H; try discriminate H; split; reflexivity. Qed.

Section Thresholds.
Context {E : Externals}.

(** C6, as the spec words it: the call leaves the tracked arrays as they
    were. *)
Definition unchanged_at_infinite_threshold (s : GaussianModel) (extent : D)
    (z : nat -> nat -> F) : Prop :=
  exists s', densify_and_prune s F32.inf F32.zero extent None z = Some s' /\
             tracked s' = tracked s.

(** C6 (amended).  On a store with an initialised optimizer that holds no
    primitive or more than one, in which the averaged gradient of every
    primitive is a single entry that is not infinite, and for a sigmoid
    that is never negative, [densify_and_prune] with the threshold plus
    infinity, [min_opacity = 0] and no screen size returns; it clones,
    splits and prunes nothing: the six tracked arrays, the types, the
    scores, [scene_scale] and the whole optimizer (parameters and moments)
    are as before; the ids are renumbered from zero, [modify_id] is
    emptied, the gradient statistics are zeroed and the normals are
    estimated anew from the positions. *)
Theorem infinite_threshold_keeps_population (s : GaussianModel) (grads : tensor)
    (extent : D) (z : nat -> nat -> F) :
  wf s -> densify_grads s = Some grads ->
  Forall (fun g => exists x, g = [x] /\ is_infinite x = false) (rows grads) ->
  population s <> 1%nat ->
  (forall x, F32.ltb (t_sigmoid x) F32.zero = false) ->
  exists s',
    densify_and_prune s F32.inf F32.zero extent None z = Some s' /\
    population s' = population s /\
    tracked s' = tracked s /\
    _type s' = _type s /\ _score s' = _score s /\ _scene_scale s' = _scene_scale s /\
    optimizer s' = optimizer s /\
    _xyz_id s' = seq 0 (population s) /\ modify_id s' = [] /\
    max_radii2D s' = repeat F32.zero (population s) /\
    [xyz_gradient_accum s'; position_gradient_accum s'; denom s'] =
      [zeros (population s) [1%nat]; zeros (population s) [3%nat];
       zeros (population s) [1%nat]] /\
    _normal s' =
      NdArray (mkTensor [3%nat] (map (estimate_normal (rows (_xyz s))) (rows (_xyz s)))).
Proof.
  intros H Hg Hfin Hone Hsig.
  pose proof (densify_grads_shape0 H Hg) as Hn.
  destruct (wf_scaling H) as [_ Hs]. destruct (wf_opacity H) as [_ Ho]. unfold shape0 in *.
  exists (settled s). split.
  - apply densify_and_prune_nothing with (grads := grads); try assumption.
    + left. exact Hone.
    + apply zip_with_all_false; try assumption.
      eapply Forall_impl; [|exact Hfin]. intros g (x & -> & Hx) sc.
      unfold clone_selected, row_norm.
      rewrite (proj1 (finite_below_infinity x Hx)). reflexivity.
    + apply zip_with_all_false; try assumption.
      * apply Forall_map. eapply Forall_impl; [|exact Hfin].
        intros g (x & -> & Hx) sc. unfold split_selected. cbn [hd].
        rewrite (proj2 (finite_below_infinity x Hx)). reflexivity.
      * rewrite length_map. exact Hn.
    + apply zip_with3_all; try assumption; [|apply repeat_length].
      apply Forall_forall. intros o _ sc r. unfold removed. rewrite orb_false_r.
      destruct o as [|x o]; cbn; [reflexivity|apply Hsig].
  - repeat split; reflexivity.
Qed.



End Thresholds.

(** ** The reference sigmoid is never negative *)

Lemma binary_round_aux_nonneg (m e : Z) (l : location) :
  F32.ltb (binary_round_aux F32.prec F32.emax false m e l) F32.zero = false.
Proof.
  unfold binary_round_aux.
  destruct (shr_fexp F32.prec F32.emax m e l) as [mrs' e'].
  destruct (shr_fexp F32.prec F32.emax _ e' loc_Exact) as [mrs'' e''].
  destruct (shr_m mrs'') as [|p|p]; try reflexivity.
  destruct (Z.leb e'' (F32.emax - F32.prec)); reflexivity.
Qed.

Lemma sigmoid32_nonneg (x : F) : F32.ltb (Ref.sigmoid32 x) F32.zero = false.
Proof.
  destruct x as [s|[]| |s m e]; try reflexivity.
  unfold Ref.sigmoid32.
  destruct (F32.leb _ _); [reflexivity|].
  destruct (F32.leb _ _); [reflexivity|].
  destruct (Ref.exp_fixed _) as [[|a|a] n]; try reflexivity.
  unfold F32.div, SFdiv.
  destruct (SFdiv_core_binary _ _ _ _ _ _) as [[mz ez] lz].
  apply binary_round_aux_nonneg.
Qed.

Lemma demo_overflowed_wf : wf Demo.overflowed.
Proof.
  apply (@wf_add_densification_stats Demo.ready Demo.overflowed
           (mkTensor [3%nat] [[F32.inf; Demo.f 0 1; Demo.f 0 1];
                             [F32.inf; Demo.f 0 1; Demo.f 0 1];
                             [Demo.f 0 1; Demo.f 0 1; Demo.f 0 1];
                             [Demo.f 0 1; Demo.f 0 1; Demo.f 0 1]])
           (mkTensor [3%nat] [[Demo.f 0 1; Demo.f 0 1; Demo.f 0 1];
                             [Demo.f 0 1; Demo.f 0 1; Demo.f 0 1];
                             [Demo.f 0 1; Demo.f 0 1; Demo.f 0 1];
                             [Demo.f 0 1; Demo.f 0 1; Demo.f 0 1]])
           [true; true; false; false]).
  - exact demo_ready_wf.
  - reflexivity.
Qed.

(** * The operations on a concrete store *)

Lemma from_some_eq {A} (o : option A) (d a : A) : o = Some a -> a = from_some o d.
Proof. intros ->. reflexivity. Qed.

Lemma Forall_forallb {A} (p : A -> bool) (P : A -> Prop) (l : list A) :
  (forall x, p x = true -> P x) -> forallb p l = true -> Forall P l.
Proof.
  intros Hp Hl. apply Forall_forall. intros x Hx. apply Hp.
  rewrite forallb_forall in Hl. apply Hl, Hx.
Qed.

Lemma demo_grads : densify_grads Demo.seen = Some Demo.grads.
Proof. vm_compute. reflexivity. Qed.

Lemma demo_grads_dims : dims Demo.grads = [1%nat].
Proof. vm_compute. reflexivity. Qed.

Lemma demo_grads_shape0 : shape0 Demo.grads = population Demo.seen.
Proof. vm_compute. reflexivity. Qed.

Lemma demo_population : population Demo.seen <> 1%nat.
Proof. vm_compute. discriminate. Qed.

(** At the threshold 0.01 the clone pass selects two primitives of
    [Demo.seen]. *)
Lemma demo_clone_not_lone :
  lone_volumetric Demo.seen
    (zip_with (clone_selected (E := Ref.externals) Demo.seen (Demo.f 1 100) (Demo.f 10 1))
              (rows Demo.grads) (rows (_scaling Demo.seen))) = false.
Proof. vm_compute. reflexivity. Qed.

Lemma demo_ops_fit : ops_fit (E := Ref.externals) Demo.ops Demo.seen.
Proof.
  cbn [ops_fit Demo.ops op_fits].
  split; [split; [exact demo_grads_dims|split; [exact demo_grads_shape0|exact demo_clone_not_lone]]|].
  intros s1 H1.
  apply (from_some_eq Demo.seen) in H1. subst s1.
  split; [split; [exact demo_grads_dims|vm_compute; lia]|]. intros s2 H2.
  apply (from_some_eq Demo.seen) in H2. subst s2.
  split; [vm_compute; reflexivity|]. intros; exact I.
Qed.

Lemma resize_keeps_lockstep_witness :
  wf Demo.seen /\ ops_fit (E := Ref.externals) Demo.ops Demo.seen /\
  exists s', run (E := Ref.externals) Demo.ops Demo.seen = Some s' /\
             lockstep s' (population s').
Proof.
  destruct (@resize_keeps_lockstep Ref.externals Demo.ops Demo.seen demo_seen_wf) as [H1 H2].
  destruct (H2 demo_ops_fit) as [s' Hs'].
  split; [exact demo_seen_wf|]. split; [exact demo_ops_fit|].
  exists s'. split; [exact Hs'|]. apply (H1 s' Hs').
Defined.

Lemma densify_grads_nan_free_witness :
  wf Demo.seen /\
  exists grads, densify_grads Demo.seen = Some grads /\
                Forall (Forall (fun x => F32.isnan x = false)) (rows grads).
Proof.
  split; [exact demo_seen_wf|].
  destruct (@densify_grads_nan_free Ref.externals Demo.seen demo_seen_wf)
    as (grads & Hg & _ & _ & _ & Hn & _).
  exists grads. split; [exact Hg|exact Hn].
Defined.








Lemma demo_grads_finite :
  Forall (fun g => exists x, g = [x] /\ is_infinite x = false) (rows Demo.grads).
Proof.
  vm_compute. repeat (apply Forall_cons; [eexists; split; reflexivity|]). apply Forall_nil.
Qed.

Lemma infinite_threshold_keeps_population_witness :
  wf Demo.seen /\ densify_grads Demo.seen = Some Demo.grads /\
  Forall (fun g => exists x, g = [x] /\ is_infinite x = false) (rows Demo.grads) /\
  population Demo.seen <> 1%nat /\
  (forall x, F32.ltb (Ref.sigmoid32 x) F32.zero = false) /\
  exists s',
    densify_and_prune (E := Ref.externals) Demo.seen F32.inf F32.zero (Demo.f 10 1) None Demo.z
      = Some s' /\
    tracked s' = tracked Demo.seen.
Proof.
  split; [exact demo_seen_wf|]. split; [exact demo_grads|].
  split; [exact demo_grads_finite|]. split; [exact demo_population|].
  split; [exact sigmoid32_nonneg|].
  destruct (@infinite_threshold_keeps_population Ref.externals Demo.seen Demo.grads
              (Demo.f 10 1) Demo.z demo_seen_wf demo_grads demo_grads_finite
              demo_population sigmoid32_nonneg)
    as (s' & Hd & _ & Ht & _).
  exists s'. split; [exact Hd|exact Ht].
Defined.

(** C6, as stated, fails: the averaged gradient of the first two primitives
    of [Demo.overflowed] is plus infinity, which reaches the threshold plus
    infinity; both are cloned, and the positions grow from four rows to
    six. *)
Lemma infinite_gradient_is_cloned :
  ~ unchanged_at_infinite_threshold (E := Ref.externals) Demo.overflowed (Demo.f 10 1) Demo.z.
Proof.
  intros (s' & Hs & Hx).
  apply (f_equal (fun l => length (rows (hd empty0 l)))) in Hx. cbn [tracked hd] in Hx.
  apply (f_equal (option_map (fun s => length (rows (_xyz s))))) in Hs.
  cbn [option_map] in Hs. rewrite Hx in Hs. revert Hs. vm_compute. discriminate.
Qed.

Lemma demo_single_wf : wf Demo.single.
Proof.
  apply (@wf_create_from_pcd Ref.externals (init 1) _ Demo.pcd1 (Demo.f 1 1)); reflexivity.
Qed.

(** On a store of a single primitive the same call raises: the removal mask
    is zero-dimensional, the only primitive is kept behind a new axis, and
    Open3D refuses the array of positions. *)
Lemma infinite_threshold_raises_on_one_primitive :
  wf Demo.single /\ population Demo.single = 1%nat /\
  densify_and_prune (E := Ref.externals) Demo.single F32.inf F32.zero (Demo.f 10 1) None Demo.z
    = None.
Proof. split; [exact demo_single_wf|]. split; vm_compute; reflexivity. Qed.




(** * Initial scales *)

Lemma assign_rows_full {A} (n : nat) (l : list A) :
  length l = n -> assign_rows n l = Some l.
Proof. intros H. unfold assign_rows. rewrite H, Nat.eqb_refl. reflexivity. Qed.

(** With a type per point, the third scale is overwritten row by row,
    whether the mask is zero-dimensional or not. *)
Lemma copy_second_scale_spec (t : tensor) (scales : list row) :
  shape0 t = length scales ->
  copy_second_scale (squeezed_map (fun x => F32.eqb x F32.zero) (squeeze t)) scales =
  Some (zip_with (fun (b : bool) r => if b then third_from_second r else r)
                 (map (fun r => F32.eqb (hd F32.zero r) F32.zero) (rows t)) scales).
Proof.
  unfold shape0, squeeze. destruct (rows t) as [|r [|r' rs]]; cbn [squeezed_map copy_second_scale].
  - intros H. rewrite <- H. reflexivity.
  - intros H. destruct scales as [|x [|y scales]]; try discriminate H.
    destruct (F32.eqb (hd F32.zero r) F32.zero) eqn:Eb; cbn; rewrite Eb; reflexivity.
  - intros H. rewrite !length_map, H, Nat.eqb_refl. rewrite map_map. reflexivity.
Qed.

Section InitialScales.
Context {E : Externals}.

(** C8, as the spec words it: the third raw scale of every primitive of
    type 1 (PLANAR) equals its second. *)
Definition planar_third_equals_second (s : GaussianModel) : Prop :=
  forallb (fun p => implb (is_planar (fst p))
                          (F32.eqb (nth_f (snd p) 2) (nth_f (snd p) 1)))
          (combine (rows (_type s)) (rows (_scaling s))) = true.

(** The clamped squared neighbour distance of point [i]. *)
Definition initial_dist2 (pcd : BasicPointCloud) (i : nat) : F :=
  F32.clamp (distCUDA2 (rows (points pcd)) i) (F32.of_ratio 1 10000000) (F32.of_ratio 1 100).

(** C8 (amended).  For a point cloud with one normal and one type per
    point, [create_from_pcd] returns; the first two raw scales of primitive
    [i] are [log (sqrt (dist2 / 2))]; the third raw scale equals the second
    when the type is 0 (VOLUMETRIC) and is [log 0.001] for every other
    type, PLANAR included. *)
Theorem initial_scales_by_type (self : GaussianModel) (pcd : BasicPointCloud) (lr : F) :
  shape0 (normals pcd) = shape0 (points pcd) ->
  shape0 (types pcd) = shape0 (points pcd) ->
  exists s,
    create_from_pcd self pcd lr = Some s /\
    _type s = types pcd /\
    dims (_scaling s) = [3%nat] /\
    rows (_scaling s) =
      zip_with (fun type i =>
                  let a := t_log (F32.sqrt (F32.div (initial_dist2 pcd i) (F32.of_Z 2))) in
                  if F32.eqb (hd F32.zero type) F32.zero
                  then [a; a; a]
                  else [a; a; t_log (F32.of_ratio 1 1000)])
               (rows (types pcd)) (seq 0 (shape0 (points pcd))).
Proof.
  intros Hn Ht. unfold create_from_pcd.
  rewrite assign_rows_full by (rewrite length_map; exact Hn). cbn [bind].
  rewrite copy_second_scale_spec by (rewrite !length_map, length_seq; exact Ht). cbn [bind].
  eexists. split; [reflexivity|]. split; [reflexivity|]. split; [reflexivity|].
  cbn [_scaling set_normal reset_xyz_id set_ids rows].
  rewrite !zip_with_map_l, !zip_with_map_r.
  reflexivity.
Qed.

End InitialScales.

Lemma demo_pcd_normals : shape0 (normals Demo.pcd) = shape0 (points Demo.pcd).
Proof. reflexivity. Qed.

Lemma demo_pcd_types : shape0 (types Demo.pcd) = shape0 (points Demo.pcd).
Proof. reflexivity. Qed.

Lemma initial_scales_by_type_witness :
  shape0 (normals Demo.pcd) = shape0 (points Demo.pcd) /\
  shape0 (types Demo.pcd) = shape0 (points Demo.pcd) /\
  exists s,
    create_from_pcd (E := Ref.externals) (init 1) Demo.pcd (Demo.f 1 1) = Some s /\
    _type s = types Demo.pcd.
Proof.
  split; [exact demo_pcd_normals|]. split; [exact demo_pcd_types|].
  destruct (@initial_scales_by_type Ref.externals (init 1) Demo.pcd (Demo.f 1 1)
              demo_pcd_normals demo_pcd_types) as (s & Hs & Ht & _).
  exists s. split; [exact Hs|exact Ht].
Defined.

(** C8, as stated, fails: the second and the fourth point of [Demo.pcd] are
    PLANAR, and their third raw scale after [create_from_pcd] is
    [log 0.001], not their second. *)
Lemma planar_keeps_small_third_scale : ~ planar_third_equals_second Demo.created.
Proof. unfold planar_third_equals_second. vm_compute. discriminate. Qed.

(** * The normals and the PLY writer *)

Definition is_some {A} (o : option A) : bool :=
  match o with Some _ => true | None => false end.

Lemma is_some_exists {A} (o : option A) : is_some o = true -> exists a, o = Some a.
Proof. destruct o; [eexists; reflexivity|discriminate]. Qed.

Section Normals.
Context {E : Externals}.

Lemma densify_and_prune_normal (s s' : GaussianModel) (max_grad min_opacity extent : D)
    (mss : option D) (z : nat -> nat -> F) :
  densify_and_prune s max_grad min_opacity extent mss z = Some s' ->
  _normal s' =
  NdArray (mkTensor [3%nat] (map (estimate_normal (rows (_xyz s'))) (rows (_xyz s')))).
Proof.
  unfold densify_and_prune. intros H.
  destruct (densify_grads s) as [grads|]; [|discriminate]. cbn [bind] in H.
  destruct (densify_and_clone _ _ _ _) as [s3|]; [|discriminate]. cbn [bind] in H.
  destruct (densify_and_split _ _ _ _ _ _) as [s4|]; [|discriminate]. cbn [bind] in H.
  destruct (prune_pass _ _ _ _) as [s5|]; [|discriminate]. cbn [bind] in H.
  unfold recompute_normals in H. destruct (_ || _); [|discriminate].
  injection H as <-. reflexivity.
Qed.

(** C10.  [create_from_pcd] leaves [_normal] as [None]; [training_setup] and
    [add_densification_stats] do not assign it; [save_ply] raises whenever
    [_normal] is [None] (and returns only when it is a numpy array);
    [densify_and_prune], when it returns, has stored the estimated normals
    as a numpy array with one row per primitive; on the store [Demo.seen]
    [save_ply] raises before that call and returns after it. *)
Theorem save_ply_needs_recomputed_normals :
  (forall self pcd lr s, create_from_pcd self pcd lr = Some s -> _normal s = PyNone) /\
  (forall s pd, _normal (training_setup s pd) = _normal s) /\
  (forall s vg xg f s',
      add_densification_stats s vg xg f = Some s' -> _normal s' = _normal s) /\
  (forall s, _normal s = PyNone -> save_ply s = None) /\
  (forall s e, save_ply s = Some e -> exists a, _normal s = NdArray a) /\
  (forall s max_grad min_opacity extent mss z s',
      densify_and_prune s max_grad min_opacity extent mss z = Some s' ->
      exists a, _normal s' = NdArray a /\ dims a = [3%nat] /\ shape0 a = population s') /\
  (save_ply Demo.seen = None /\ exists e, save_ply Demo.densified = Some e).
Proof.
  split.
  { intros self pcd lr s. unfold create_from_pcd.
    destruct (assign_rows _ _); [|discriminate]. cbn [bind].
    destruct (copy_second_scale _ _); [|discriminate]. cbn [bind].
    intros [= <-]. reflexivity. }
  split; [reflexivity|].
  split.
  { intros s vg xg f s'. unfold add_densification_stats. intros H.
    repeat match type of H with
           | context [bind ?o _] => destruct o; [cbn [bind] in H|discriminate]
           end.
    injection H as <-. reflexivity. }
  split.
  { intros s H. unfold save_ply. rewrite H. reflexivity. }
  split.
  { intros s e. unfold save_ply. destruct (_normal s) as [|t|a]; try discriminate.
    intros _. exists a. reflexivity. }
  split.
  { intros s g o x m z s' H. apply densify_and_prune_normal in H.
    eexists. split; [exact H|]. split; [reflexivity|].
    unfold shape0, population, shape0. cbn. apply length_map. }
  split; [reflexivity|].
  apply is_some_exists. vm_compute. reflexivity.
Qed.

End Normals.

(** * The PLY round trip *)

(** ** Names of the properties *)

Lemma has_underscore_digits (u : Decimal.uint) :
  has_underscore (NilEmpty.string_of_uint u) = false.
Proof. induction u; cbn; auto. Qed.

Lemma to_uint_nonnil (i : nat) : Nat.to_uint i <> Decimal.Nil.
Proof.
  rewrite <- (Unsigned.of_to i) at 1. rewrite Unsigned.to_of. apply DecimalFacts.unorm_nonnil.
Qed.

Lemma string_of_nat_digits (i : nat) :
  NilZero.string_of_uint (Nat.to_uint i) = NilEmpty.string_of_uint (Nat.to_uint i).
Proof.
  pose proof (to_uint_nonnil i) as H.
  destruct (Nat.to_uint i); [contradiction|..]; reflexivity.
Qed.

Lemma py_int_digits (u : Decimal.uint) :
  u <> Decimal.Nil ->
  py_int (NilEmpty.string_of_uint u) = Some (Z.of_nat (Nat.of_uint u)).
Proof.
  intros H. pose proof (NilEmpty.usu u) as Hu.
  destruct u; [contradiction|..]; cbn [NilEmpty.string_of_uint py_int] in *;
    unfold NilZero.uint_of_string; rewrite Hu; reflexivity.
Qed.

Lemma py_int_of_nat (i : nat) :
  py_int (NilZero.string_of_uint (Nat.to_uint i)) = Some (Z.of_nat i).
Proof.
  rewrite string_of_nat_digits, py_int_digits by apply to_uint_nonnil.
  rewrite Unsigned.of_to. reflexivity.
Qed.

Lemma has_underscore_app (q d : string) :
  has_underscore (q ++ d) = has_underscore q || has_underscore d.
Proof. induction q as [|c q IH]; cbn; [reflexivity|]. rewrite IH, orb_assoc. reflexivity. Qed.

Lemma last_segment_app (q d : string) :
  has_underscore d = false -> last_segment (q ++ String "_" d) = d.
Proof.
  intros Hd. induction q as [|c q IH]; cbn [String.append last_segment].
  - rewrite Hd. reflexivity.
  - rewrite has_underscore_app. cbn [has_underscore]. rewrite Ascii.eqb_refl, orb_true_r.
    exact IH.
Qed.

Lemma string_app_assoc (a b c : string) : ((a ++ b) ++ c = a ++ (b ++ c))%string.
Proof. induction a as [|x a IH]; cbn; [reflexivity|]. rewrite IH. reflexivity. Qed.

(** The index of a formatted name is read back from its last segment. *)
Lemma py_int_last_segment_fmt (q : string) (i : nat) :
  py_int (last_segment (fmt (q ++ "_") i)) = Some (Z.of_nat i).
Proof.
  unfold fmt. rewrite string_app_assoc. cbn [String.append].
  rewrite last_segment_app.
  - apply py_int_of_nat.
  - rewrite string_of_nat_digits. apply has_underscore_digits.
Qed.

Lemma fmt_inj (q : string) (i j : nat) : fmt (q ++ "_") i = fmt (q ++ "_") j -> i = j.
Proof.
  intros H. apply (f_equal (fun x => py_int (last_segment x))) in H.
  rewrite !py_int_last_segment_fmt in H. injection H as H. lia.
Qed.

(** ** Stable sorting of names that are already in order *)

Lemma insert_by_key_last (k : Z) (x : string) (acc : list (Z * string)) :
  Forall (fun p => (fst p <= k)%Z) acc -> insert_by_key k x acc = acc ++ [(k, x)].
Proof.
  induction 1 as [|[k' y] acc Hk _ IH]; cbn [insert_by_key app]; [reflexivity|].
  cbn in Hk. destruct (Z.ltb_spec k k'); [lia|]. rewrite IH. reflexivity.
Qed.

Lemma fold_insert_sorted (xs : list string) (a : nat) (acc : list (Z * string)) :
  Forall (fun p => (fst p < Z.of_nat a)%Z) acc ->
  fold_left (fun acc kx => insert_by_key (fst kx) (snd kx) acc)
            (combine (map Z.of_nat (seq a (length xs))) xs) acc =
  acc ++ combine (map Z.of_nat (seq a (length xs))) xs.
Proof.
  revert a acc; induction xs as [|x xs IH]; intros a acc H; cbn [length seq map combine fold_left].
  - rewrite app_nil_r. reflexivity.
  - cbn [fst snd]. rewrite insert_by_key_last.
    + rewrite IH.
      * rewrite <- app_assoc. reflexivity.
      * apply Forall_app; split.
        -- eapply Forall_impl; [|exact H]. cbn. intros; lia.
        -- constructor; [cbn; lia|constructor].
    + eapply Forall_impl; [|exact H]. cbn. intros; lia.
Qed.

Lemma sequence_map_some {A B} (f : A -> option B) (g : A -> B) (l : list A) :
  Forall (fun x => f x = Some (g x)) l -> sequence (map f l) = Some (map g l).
Proof.
  induction 1 as [|x l Hx _ IH]; cbn [map sequence]; [reflexivity|].
  rewrite Hx, IH. reflexivity.
Qed.

Lemma map_snd_combine {A B} (a : list A) (b : list B) :
  length a = length b -> map snd (combine a b) = b.
Proof.
  revert b; induction a; intros [|y b]; cbn; intros; try discriminate; auto.
  rewrite IHa by lia. reflexivity.
Qed.

Lemma sorted_by_suffix_fmt (q : string) (k : nat) :
  sorted_by_suffix (map (fmt (q ++ "_")) (seq 0 k)) = Some (map (fmt (q ++ "_")) (seq 0 k)).
Proof.
  unfold sorted_by_suffix. rewrite map_map.
  rewrite (sequence_map_some _ Z.of_nat).
  2:{ apply Forall_forall. intros i _. apply py_int_last_segment_fmt. }
  cbn [bind].
  pose proof (@fold_insert_sorted (map (fmt (q ++ "_")) (seq 0 k)) 0 []) as H.
  rewrite length_map, length_seq in H. rewrite H by constructor.
  cbn [app]. rewrite map_snd_combine by (rewrite !length_map; reflexivity). reflexivity.
Qed.

(** ** Looking a property up *)

Lemma index_of_app_skip (nm : string) (l1 l2 : list string) :
  Forall (fun x => String.eqb nm x = false) l1 ->
  index_of nm (l1 ++ l2) = option_map (Nat.add (length l1)) (index_of nm l2).
Proof.
  induction 1 as [|x l1 Hx _ IH]; cbn [app index_of length].
  - destruct (index_of nm l2); reflexivity.
  - rewrite Hx, IH. destruct (index_of nm l2); reflexivity.
Qed.

Lemma index_of_fmt (q : string) (k a i : nat) (post : list string) :
  (a <= i < a + k)%nat ->
  index_of (fmt (q ++ "_") i) (map (fmt (q ++ "_")) (seq a k) ++ post) = Some (i - a)%nat.
Proof.
  revert a; induction k as [|k IH]; intros a H; [lia|].
  cbn [seq map app index_of].
  destruct (String.eqb_spec (fmt (q ++ "_") i) (fmt (q ++ "_") a)) as [He|Hne].
  - apply fmt_inj in He. subst. rewrite Nat.sub_diag. reflexivity.
  - assert (i <> a) by congruence.
    rewrite IH by lia. cbn. f_equal. lia.
Qed.

Lemma startswith_eqb_false (p a b : string) :
  startswith p a = true -> startswith p b = false -> String.eqb a b = false.
Proof.
  intros Ha Hb. destruct (String.eqb_spec a b); [|reflexivity]. congruence.
Qed.

Lemma map_add_seq (a b w : nat) : map (Nat.add a) (seq b w) = seq (a + b) w.
Proof.
  revert b; induction w; intros b; cbn; [reflexivity|].
  rewrite IHw. f_equal. f_equal. lia.
Qed.

(** The positions of a block of formatted names among the properties. *)
Lemma index_of_block (q : string) (k : nat) (pre post : list string) :
  Forall (fun x => startswith (q ++ "_") x = false) pre ->
  (forall i, startswith (q ++ "_") (fmt (q ++ "_") i) = true) ->
  sequence (map (fun nm => index_of nm (pre ++ map (fmt (q ++ "_")) (seq 0 k) ++ post))
                (map (fmt (q ++ "_")) (seq 0 k))) =
  Some (seq (length pre) k).
Proof.
  intros Hpre Hp. rewrite map_map.
  rewrite (sequence_map_some _ (Nat.add (length pre))).
  - rewrite map_add_seq, Nat.add_0_r. reflexivity.
  - apply Forall_forall. intros i Hi. apply in_seq in Hi.
    rewrite index_of_app_skip.
    + rewrite index_of_fmt by lia. cbn. f_equal. lia.
    + eapply Forall_impl; [|exact Hpre]. intros x Hx.
      eapply startswith_eqb_false; [apply Hp|exact Hx].
Qed.

Lemma filter_all {A} (f : A -> bool) (l : list A) :
  Forall (fun x => f x = true) l -> filter f l = l.
Proof. induction 1 as [|x l Hx _ IH]; cbn; [reflexivity|]. rewrite Hx, IH. reflexivity. Qed.

Lemma filter_none {A} (f : A -> bool) (l : list A) :
  Forall (fun x => f x = false) l -> filter f l = [].
Proof. induction 1 as [|x l Hx _ IH]; cbn; [reflexivity|]. rewrite Hx, IH. reflexivity. Qed.

Lemma Forall_fmt (P : string -> Prop) (p : string) (a k : nat) :
  (forall i, P (fmt p i)) -> Forall P (map (fmt p) (seq a k)).
Proof. intros H. apply Forall_map, Forall_forall. intros i _. apply H. Qed.

(** ** Columns of the vertex table *)

Lemma nth_f_map_f4 (r : row) (i : nat) : nth_f (map f4 r) i = f4 (nth_f r i).
Proof. unfold nth_f. change F32.zero with (f4 F32.zero) at 1. apply map_nth. Qed.

Lemma columns_f4 (idx : list nat) (A : list row) :
  map (fun v => map (nth_f v) idx) (map (map f4) A) =
  map (map f4) (map (fun v => map (nth_f v) idx) A).
Proof.
  rewrite !map_map. apply map_ext. intros v. rewrite map_map.
  apply map_ext. intros i. apply nth_f_map_f4.
Qed.

Lemma nth_f_all (r : row) : map (nth_f r) (seq 0 (length r)) = r.
Proof.
  induction r as [|x r IH]; [reflexivity|]. cbn [length seq map].
  rewrite <- seq_shift, map_map. cbn. f_equal. exact IH.
Qed.

Lemma columns_skip (w1 : nat) (idx : list nat) (R1 rest : list row) :
  Forall (fun r => length r = w1) R1 -> length R1 = length rest ->
  map (fun v => map (nth_f v) (map (Nat.add w1) idx)) (zip_with (@app F) R1 rest) =
  map (fun v => map (nth_f v) idx) rest.
Proof.
  intros H; revert rest; induction H as [|r R1 Hr _ IH]; intros [|v rest] Hl;
    try discriminate; [reflexivity|].
  cbn [zip_with map]. f_equal.
  - rewrite map_map. apply map_ext. intros i. unfold nth_f. rewrite <- Hr.
    apply app_nth2_plus.
  - apply IH. cbn in Hl. lia.
Qed.

Lemma columns_take (w : nat) (B rest : list row) :
  Forall (fun r => length r = w) B -> length rest = length B ->
  map (fun v => map (nth_f v) (seq 0 w)) (zip_with (@app F) B rest) = B.
Proof.
  intros H; revert rest; induction H as [|r B Hr _ IH]; intros [|v rest] Hl;
    try discriminate; [reflexivity|].
  cbn [zip_with map]. f_equal.
  - rewrite <- (nth_f_all r) at 2. rewrite Hr. apply map_ext_in. intros i Hi.
    apply in_seq in Hi. unfold nth_f. apply app_nth1. lia.
  - apply IH. cbn in Hl. lia.
Qed.

(** A vertex table laid out as named blocks of columns. *)
Definition block : Type := (list string * list row)%type.

Definition block_names (blocks : list block) : list string := concat (map fst blocks).

Definition block_rows (n : nat) (blocks : list block) : list row :=
  fold_right (fun b acc => zip_with (@app F) (snd b) acc) (repeat [] n) blocks.

Definition block_ok (n : nat) (b : block) : Prop :=
  length (snd b) = n /\ Forall (fun r => length r = length (fst b)) (snd b).

Lemma block_rows_length (n : nat) (blocks : list block) :
  Forall (block_ok n) blocks -> length (block_rows n blocks) = n.
Proof.
  induction 1 as [|b blocks [Hb _] _ IH]; cbn [block_rows fold_right].
  - apply repeat_length.
  - rewrite zip_with_length. fold (block_rows n blocks). rewrite Hb, IH. apply Nat.min_id.
Qed.

Lemma zip_app_width (w1 w : nat) (R rest : list row) :
  Forall (fun r => length r = w1) R -> Forall (fun r => length r = w) rest ->
  Forall (fun r => length r = (w1 + w)%nat) (zip_with (@app F) R rest).
Proof.
  intros H; revert rest; induction H as [|r R Hr _ IH]; intros rest Hrest; cbn [zip_with];
    [constructor|].
  destruct Hrest as [|v rest Hv Hrest]; constructor.
  - rewrite length_app. lia.
  - apply IH. exact Hrest.
Qed.

Lemma block_rows_width (n : nat) (blocks : list block) :
  Forall (block_ok n) blocks ->
  Forall (fun r => length r = length (block_names blocks)) (block_rows n blocks).
Proof.
  induction 1 as [|b blocks [Hb Hw] Hbs IH]; cbn [block_rows fold_right block_names map concat].
  - apply Forall_forall. intros r Hr. apply repeat_spec in Hr. subst. reflexivity.
  - fold (block_rows n blocks). fold (block_names blocks).
    rewrite length_app. apply zip_app_width; assumption.
Qed.

Lemma block_columns (n : nat) (pre post : list block) (b : block) :
  Forall (block_ok n) (pre ++ b :: post) ->
  map (fun v => map (nth_f v) (seq (length (block_names pre)) (length (fst b))))
      (block_rows n (pre ++ b :: post)) = snd b.
Proof.
  induction pre as [|p pre IH]; intros H.
  - cbn [app block_names map concat length block_rows fold_right] in *.
    apply Forall_cons_iff in H as [[Hb Hw] Hpost].
    apply columns_take; [exact Hw|]. fold (block_rows n post).
    rewrite block_rows_length by exact Hpost. symmetry; exact Hb.
  - cbn [app block_names map concat block_rows fold_right] in *.
    apply Forall_cons_iff in H as [[Hp Hw] Hrest].
    fold (block_names pre). fold (block_rows n (pre ++ b :: post)).
    rewrite length_app, <- map_add_seq.
    rewrite columns_skip.
    + apply IH. exact Hrest.
    + exact Hw.
    + rewrite block_rows_length by exact Hrest. exact Hp.
Qed.

(** Reading a block of properties back from the written element. *)
Lemma gather_block (n : nat) (pre post : list block) (b : block) :
  Forall (block_ok n) (pre ++ b :: post) ->
  sequence (map (fun nm => index_of nm (block_names (pre ++ b :: post))) (fst b)) =
    Some (seq (length (block_names pre)) (length (fst b))) ->
  gather (mkPly (block_names (pre ++ b :: post))
                (map (map f4) (block_rows n (pre ++ b :: post)))) (fst b) =
  Some (map (map f4) (snd b)).
Proof.
  intros H Hi. unfold gather. cbn [properties vertices]. rewrite Hi. cbn [bind].
  rewrite columns_f4, block_columns by exact H. reflexivity.
Qed.

(** ** Transposition of the colour coefficients *)

Lemma nth_flat_map_rows (g : nat -> nat -> F) (a b s i j : nat) :
  (i < a)%nat -> (j < b)%nat ->
  nth_f (flat_map (fun j => map (g j) (seq 0 a)) (seq s b)) (j * a + i) = g (s + j)%nat i.
Proof.
  intros Hi. revert s j; induction b as [|b IH]; intros s j Hj; [lia|].
  cbn [seq flat_map]. unfold nth_f in *. destruct j as [|j].
  - cbn [Nat.mul Nat.add]. rewrite app_nth1 by (rewrite length_map, length_seq; exact Hi).
    rewrite Nat.add_0_r.
    rewrite (nth_indep _ _ (g s 0%nat)) by (rewrite length_map, length_seq; exact Hi).
    rewrite map_nth, seq_nth by exact Hi. reflexivity.
  - replace (S j * a + i)%nat with (length (map (g s) (seq 0 a)) + (j * a + i))%nat
      by (rewrite length_map, length_seq; lia).
    rewrite app_nth2_plus. rewrite IH by lia. f_equal. lia.
Qed.

Lemma flat_map_rows (b a : nat) (r : row) :
  length r = (a * b)%nat ->
  flat_map (fun i => map (fun j => nth_f r (i * b + j)) (seq 0 b)) (seq 0 a) = r.
Proof.
  revert r; induction a as [|a IH]; intros r Hr.
  - destruct r; [reflexivity|discriminate].
  - cbn [seq flat_map]. rewrite <- seq_shift, flat_map_concat_map, map_map,
      <- flat_map_concat_map.
    transitivity (firstn b r ++ skipn b r); [|apply firstn_skipn]. f_equal.
    + cbn [Nat.mul Nat.add]. rewrite <- (nth_f_all (firstn b r)).
      rewrite length_firstn, Nat.min_l by lia.
      apply map_ext_in. intros j Hj. apply in_seq in Hj. unfold nth_f.
      rewrite <- (firstn_skipn b r) at 1. rewrite app_nth1; [reflexivity|].
      rewrite length_firstn. lia.
    + etransitivity; [|apply (IH (skipn b r)); rewrite length_skipn; lia].
      apply flat_map_ext. intros i. apply map_ext. intros j. unfold nth_f.
      rewrite <- (firstn_skipn b r) at 1.
      replace (S i * b + j)%nat with (length (firstn b r) + (i * b + j))%nat
        by (rewrite length_firstn; lia).
      apply app_nth2_plus.
Qed.

Lemma flat_map_ext_in {A B} (f g : A -> list B) (l : list A) :
  (forall x, In x l -> f x = g x) -> flat_map f l = flat_map g l.
Proof.
  induction l as [|x l IH]; intros H; cbn; [reflexivity|].
  rewrite H by (left; reflexivity). rewrite IH; [reflexivity|].
  intros y Hy. apply H. right. exact Hy.
Qed.

Lemma transpose_flat_involutive (a b : nat) (r : row) :
  length r = (a * b)%nat -> transpose_flat b a (transpose_flat a b r) = r.
Proof.
  intros Hr. unfold transpose_flat at 1.
  etransitivity; [|apply (flat_map_rows b a r Hr)].
  apply flat_map_ext_in. intros i Hi. apply map_ext_in. intros j Hj.
  apply in_seq in Hi, Hj. unfold transpose_flat.
  rewrite (nth_flat_map_rows (fun j i => nth_f r (i * b + j))) by lia.
  reflexivity.
Qed.

Lemma transpose_flat_length (a b : nat) (r : row) : length (transpose_flat a b r) = (a * b)%nat.
Proof.
  unfold transpose_flat.
  rewrite (@flat_map_constant_length _ _ a) by (intros; rewrite length_map, length_seq; reflexivity).
  rewrite length_seq. lia.
Qed.

Lemma map_flat_map {A B C} (f : B -> C) (g : A -> list B) (l : list A) :
  map f (flat_map g l) = flat_map (fun x => map f (g x)) l.
Proof. induction l as [|x l IH]; cbn; [reflexivity|]. rewrite map_app, IH. reflexivity. Qed.

Lemma transpose_flat_f4 (a b : nat) (r : row) :
  transpose_flat a b (map f4 r) = map f4 (transpose_flat a b r).
Proof.
  unfold transpose_flat. rewrite map_flat_map.
  apply flat_map_ext. intros j. rewrite map_map. apply map_ext. intros i. apply nth_f_map_f4.
Qed.

(** ** float32 values are written as they are *)

Definition is_float32 (x : F) : Prop := valid_binary F32.prec F32.emax x = true.

Lemma f4_float32 (x : F) : is_float32 x -> f4 x = x.
Proof.
  unfold is_float32.
  destruct x as [s|s| |s m e]; try reflexivity. cbn [valid_binary f4].
  unfold bounded, canonical_mantissa. intros H.
  apply andb_true_iff in H as [Hc He]. apply Z.eqb_eq in Hc.
  unfold binary_round. rewrite Hc. unfold shl_align. rewrite Z.sub_diag.
  unfold binary_round_aux, shr_fexp. cbn [Zdigits2]. rewrite Hc, Z.sub_diag.
  cbn [shr_record_of_loc shr shr_m loc_of_shr_record round_nearest_even Zdigits2].
  rewrite Hc, Z.sub_diag. cbn [shr shr_m]. rewrite He. reflexivity.
Qed.

Lemma tensor_map_f4_float32 (t : tensor) :
  Forall (Forall is_float32) (rows t) -> tensor_map f4 t = t.
Proof.
  intros H. destruct t as [d r]. unfold tensor_map. cbn [dims rows] in *. f_equal.
  induction H as [|x r Hx _ IH]; cbn [map]; [reflexivity|]. rewrite IH. f_equal.
  induction Hx as [|y x Hy _ IHx]; cbn [map]; [reflexivity|].
  rewrite IHx, f4_float32 by exact Hy. reflexivity.
Qed.

(** ** Writing and reading a store *)

(** An array of [n] entries of trailing shape [d], every entry complete. *)
Definition table (n : nat) (d : list nat) (t : tensor) : Prop :=
  dims t = d /\ shape0 t = n /\ Forall (fun r => length r = width d) (rows t).

(** What [save_ply] asks of a store: the normals are a numpy array and all
    arrays it writes are matrices with one row per primitive. *)
Record ply_ready (s : GaussianModel) (normals : tensor) (k m : nat) : Prop := mkReady {
  ready_normal : _normal s = NdArray normals;
  ready_normals : table (population s) [3%nat] normals;
  ready_xyz : table (population s) [3%nat] (_xyz s);
  ready_features_dc : table (population s) [1; 3]%nat (_features_dc s);
  ready_features_rest : table (population s) [rest_coeffs s; 3%nat] (_features_rest s);
  ready_opacity : table (population s) [1%nat] (_opacity s);
  ready_scaling : table (population s) [k] (_scaling s);
  ready_rotation : table (population s) [m] (_rotation s);
  ready_type : table (population s) [1%nat] (_type s)
}.

(** The blocks of columns that [save_ply] writes. *)
Definition ply_blocks (s : GaussianModel) (normals : tensor) (k m : nat) : list block :=
  [ (["x"; "y"; "z"]%string, rows (_xyz s));
    (["nx"; "ny"; "nz"]%string, rows normals);
    (map (fmt "f_dc_") (seq 0 (1 * 3)), map (transpose_flat 1 3) (rows (_features_dc s)));
    (map (fmt "f_rest_") (seq 0 (rest_coeffs s * 3)),
     map (transpose_flat (rest_coeffs s) 3) (rows (_features_rest s)));
    (["opacity"%string], rows (_opacity s));
    (map (fmt "scale_") (seq 0 k), rows (_scaling s));
    (map (fmt "rot_") (seq 0 m), rows (_rotation s));
    (["type"%string], rows (_type s)) ].

Lemma table_block (n w : nat) (names : list string) (t : tensor) :
  table n [w] t -> length names = w -> block_ok n (names, rows t).
Proof.
  intros (_ & Hn & Hw) Hl. split; [exact Hn|]. cbn [fst snd].
  eapply Forall_impl; [|exact Hw]. cbn. intros r Hr. rewrite Hr, Hl. lia.
Qed.

Lemma ply_blocks_ok (s : GaussianModel) (normals : tensor) (k m : nat) :
  ply_ready s normals k m -> Forall (block_ok (population s)) (ply_blocks s normals k m).
Proof.
  intros [_ Hn Hx Hdc Hrest Ho Hs Hr Ht]. unfold ply_blocks.
  repeat (apply Forall_cons; [|]); try apply Forall_nil.
  - apply table_block with (w := 3%nat); [exact Hx|reflexivity].
  - apply table_block with (w := 3%nat); [exact Hn|reflexivity].
  - destruct Hdc as (_ & Hl & Hw). split; cbn [fst snd].
    + rewrite length_map. exact Hl.
    + apply Forall_map, Forall_forall. intros r _. rewrite transpose_flat_length. reflexivity.
  - destruct Hrest as (_ & Hl & Hw). split; cbn [fst snd].
    + rewrite length_map. exact Hl.
    + apply Forall_map, Forall_forall. intros r _.
      rewrite transpose_flat_length, length_map, length_seq. reflexivity.
  - apply table_block with (w := 1%nat); [exact Ho|reflexivity].
  - apply table_block with (w := k); [exact Hs|]. rewrite length_map, length_seq. reflexivity.
  - apply table_block with (w := m); [exact Hr|]. rewrite length_map, length_seq. reflexivity.
  - apply table_block with (w := 1%nat); [exact Ht|reflexivity].
Qed.

Lemma concatenate_axis1_blocks (n : nat) (arrays : list tensor) (names : list (list string)) :
  Forall (fun a => is_matrix a = true /\ shape0 a = n) arrays ->
  length names = length arrays ->
  concatenate_axis1 n arrays =
  Some (block_rows n (combine names (map rows arrays))).
Proof.
  intros H Hl. unfold concatenate_axis1.
  assert (Hb : forallb (fun a => is_matrix a && Nat.eqb (shape0 a) n) arrays = true).
  { apply forallb_forall. intros a Ha. rewrite Forall_forall in H.
    destruct (H a Ha) as [-> ->]. rewrite Nat.eqb_refl. reflexivity. }
  rewrite Hb. f_equal. clear H Hb. unfold block_rows.
  revert names Hl; induction arrays as [|a arrays IH]; intros [|nm names] Hl; try discriminate;
    [reflexivity|].
  cbn [map combine fold_right snd]. f_equal. apply IH. cbn in Hl. lia.
Qed.

Lemma save_ply_blocks (s : GaussianModel) (normals : tensor) (k m : nat) :
  ply_ready s normals k m ->
  save_ply s =
  Some (mkPly (block_names (ply_blocks s normals k m))
              (map (map f4) (block_rows (population s) (ply_blocks s normals k m)))).
Proof.
  intros H. pose proof (ply_blocks_ok H) as Hok.
  destruct H as [Hnorm Hn Hx Hdc Hrest Ho Hs Hr Ht].
  unfold save_ply. rewrite Hnorm. cbn [bind].
  unfold transpose12, construct_list_of_attributes.
  destruct Hdc as (Ddc & Ldc & _). destruct Hrest as (Drest & Lrest & _).
  destruct Hs as (Ds & Ls & _). destruct Hr as (Dr & Lr & _).
  destruct Hx as (Dx & Lx & _). destruct Hn as (Dn & Ln & _).
  destruct Ho as (Do & Lo & _). destruct Ht as (Dt & Lt & _).
  rewrite Ddc, Drest, Ds, Dr. cbn [option_map bind].
  fold (population s).
  rewrite (@concatenate_axis1_blocks (population s) _
             (map fst (ply_blocks s normals k m))).
  - cbn [bind]. unfold ply_blocks at 1 2. cbn [map fst combine flatten1 rows].
    fold (ply_blocks s normals k m).
    assert (Hw : forallb (fun r => Nat.eqb (length r)
                   (length (block_names (ply_blocks s normals k m))))
                   (block_rows (population s) (ply_blocks s normals k m)) = true).
    { apply forallb_forall. intros r Hr'. apply Nat.eqb_eq.
      pose proof (block_rows_width Hok) as Hall. rewrite Forall_forall in Hall.
      apply Hall, Hr'. }
    unfold block_names, ply_blocks in *. cbn [map fst concat app] in *.
    rewrite Hw. reflexivity.
  - repeat (apply Forall_cons; [|]); try apply Forall_nil; unfold is_matrix, flatten1;
      cbn [dims rows shape0]; rewrite ?Dx, ?Dn, ?Do, ?Ds, ?Dr, ?Dt; split; try reflexivity;
      unfold shape0 in *; cbn [rows]; rewrite ?length_map; assumption.
  - reflexivity.
Qed.

(** ** Reading the blocks back *)

Lemma index_of_first (x : string) (l1 rest : list string) :
  ~ In x l1 -> index_of x (l1 ++ x :: rest) = Some (length l1).
Proof.
  induction l1 as [|y l1 IH]; intros H; cbn [app index_of length].
  - rewrite String.eqb_refl. reflexivity.
  - destruct (String.eqb_spec x y) as [->|_]; [exfalso; apply H; left; reflexivity|].
    rewrite IH by (intros Hin; apply H; right; exact Hin). reflexivity.
Qed.

Lemma index_of_names (l pre post : list string) :
  NoDup l -> Forall (fun x => ~ In x pre) l ->
  sequence (map (fun nm => index_of nm (pre ++ l ++ post)) l) =
  Some (seq (length pre) (length l)).
Proof.
  revert pre; induction l as [|x l IH]; intros pre Hnd Hpre; [reflexivity|].
  cbn [map sequence length seq app].
  apply NoDup_cons_iff in Hnd as [Hx Hnd]. apply Forall_cons_iff in Hpre as [Hxp Hpre].
  rewrite index_of_first by exact Hxp. cbn [bind].
  replace (map (fun nm => index_of nm (pre ++ x :: l ++ post)) l)
    with (map (fun nm => index_of nm ((pre ++ [x]) ++ l ++ post)) l)
    by (apply map_ext; intros; rewrite <- app_assoc; reflexivity).
  rewrite IH.
  - rewrite length_app, Nat.add_1_r. reflexivity.
  - exact Hnd.
  - apply Forall_forall. intros y Hy Hin. apply in_app_or in Hin as [Hin|[<-|[]]].
    + rewrite Forall_forall in Hpre. exact (Hpre y Hy Hin).
    + exact (Hx Hy).
Qed.

Lemma block_names_app (pre post : list block) :
  block_names (pre ++ post) = block_names pre ++ block_names post.
Proof. unfold block_names. rewrite map_app, concat_app. reflexivity. Qed.

(** Reading the properties of a block back from the written element gives
    its rows, each value rounded to float32. *)
Lemma gather_names (n : nat) (pre post : list block) (b : block) :
  Forall (block_ok n) (pre ++ b :: post) ->
  NoDup (fst b) -> Forall (fun x => ~ In x (block_names pre)) (fst b) ->
  gather (mkPly (block_names (pre ++ b :: post))
                (map (map f4) (block_rows n (pre ++ b :: post)))) (fst b) =
  Some (map (map f4) (snd b)).
Proof.
  intros Hok Hnd Hpre. apply gather_block; [exact Hok|].
  rewrite block_names_app. cbn [block_names map concat]. fold (block_names post).
  apply index_of_names; assumption.
Qed.

Lemma NoDup_fmt (q : string) (k : nat) : NoDup (map (fmt (q ++ "_")) (seq 0 k)).
Proof.
  apply NoDup_map_NoDup_ForallPairs; [|apply seq_NoDup].
  intros i j _ _ H. apply fmt_inj in H. exact H.
Qed.

Lemma not_in_by_prefix (p : string) (l pre : list string) :
  Forall (fun x => startswith p x = true) l -> Forall (fun x => startswith p x = false) pre ->
  Forall (fun x => ~ In x pre) l.
Proof.
  intros Hl Hpre. eapply Forall_impl; [|exact Hl]. cbn. intros x Hx Hin.
  rewrite Forall_forall in Hpre. rewrite (Hpre x Hin) in Hx. discriminate.
Qed.

Section Reload.
Variables (s : GaussianModel) (normals : tensor) (k m : nat).
Hypothesis H : ply_ready s normals k m.

Let e : PlyElement :=
  mkPly (block_names (ply_blocks s normals k m))
        (map (map f4) (block_rows (population s) (ply_blocks s normals k m))).

Lemma gather_xyz : gather e ["x"; "y"; "z"]%string = Some (map (map f4) (rows (_xyz s))).
Proof.
  apply (@gather_names (population s) [] _ (["x"; "y"; "z"]%string, rows (_xyz s))).
  - apply (ply_blocks_ok H).
  - repeat constructor; cbn; intuition discriminate.
  - repeat constructor; cbn; intuition.
Qed.

Lemma gather_features_dc :
  gather e ["f_dc_0"; "f_dc_1"; "f_dc_2"]%string =
  Some (map (map f4) (map (transpose_flat 1 3) (rows (_features_dc s)))).
Proof.
  apply (@gather_names (population s)
           [ (["x"; "y"; "z"]%string, rows (_xyz s));
             (["nx"; "ny"; "nz"]%string, rows normals) ] _
           (map (fmt "f_dc_") (seq 0 (1 * 3)),
            map (transpose_flat 1 3) (rows (_features_dc s)))).
  - apply (ply_blocks_ok H).
  - repeat constructor; cbn; intuition discriminate.
  - repeat constructor; cbn; intuition discriminate.
Qed.

Lemma gather_features_rest :
  gather e (map (fmt "f_rest_") (seq 0 (rest_coeffs s * 3))) =
  Some (map (map f4) (map (transpose_flat (rest_coeffs s) 3) (rows (_features_rest s)))).
Proof.
  apply (@gather_names (population s)
           [ (["x"; "y"; "z"]%string, rows (_xyz s));
             (["nx"; "ny"; "nz"]%string, rows normals);
             (map (fmt "f_dc_") (seq 0 (1 * 3)),
              map (transpose_flat 1 3) (rows (_features_dc s))) ] _
           (map (fmt "f_rest_") (seq 0 (rest_coeffs s * 3)),
            map (transpose_flat (rest_coeffs s) 3) (rows (_features_rest s)))).
  - apply (ply_blocks_ok H).
  - apply (NoDup_fmt "f_rest").
  - apply not_in_by_prefix with (p := "f_rest_"%string).
    + apply Forall_fmt. intros i. reflexivity.
    + repeat constructor.
Qed.

Lemma gather_opacity :
  gather e ["opacity"%string] = Some (map (map f4) (rows (_opacity s))).
Proof.
  apply (@gather_names (population s)
           [ (["x"; "y"; "z"]%string, rows (_xyz s));
             (["nx"; "ny"; "nz"]%string, rows normals);
             (map (fmt "f_dc_") (seq 0 (1 * 3)),
              map (transpose_flat 1 3) (rows (_features_dc s)));
             (map (fmt "f_rest_") (seq 0 (rest_coeffs s * 3)),
              map (transpose_flat (rest_coeffs s) 3) (rows (_features_rest s))) ] _
           (["opacity"%string], rows (_opacity s))).
  - apply (ply_blocks_ok H).
  - repeat constructor; cbn; intuition.
  - apply not_in_by_prefix with (p := "opacity"%string); [repeat constructor|].
    unfold block_names. cbn [map fst concat app].
    repeat (apply Forall_cons; [reflexivity|]).
    rewrite app_nil_r. apply Forall_fmt. intros i. reflexivity.
Qed.

Lemma gather_scaling :
  gather e (map (fmt "scale_") (seq 0 k)) = Some (map (map f4) (rows (_scaling s))).
Proof.
  apply (@gather_names (population s)
           [ (["x"; "y"; "z"]%string, rows (_xyz s));
             (["nx"; "ny"; "nz"]%string, rows normals);
             (map (fmt "f_dc_") (seq 0 (1 * 3)),
              map (transpose_flat 1 3) (rows (_features_dc s)));
             (map (fmt "f_rest_") (seq 0 (rest_coeffs s * 3)),
              map (transpose_flat (rest_coeffs s) 3) (rows (_features_rest s)));
             (["opacity"%string], rows (_opacity s)) ] _
           (map (fmt "scale_") (seq 0 k), rows (_scaling s))).
  - apply (ply_blocks_ok H).
  - apply (NoDup_fmt "scale").
  - apply not_in_by_prefix with (p := "scale_"%string).
    + apply Forall_fmt. intros i. reflexivity.
    + unfold block_names. cbn [map fst concat app].
      repeat (apply Forall_cons; [reflexivity|]).
      apply Forall_app; split; [apply Forall_fmt; intros i; reflexivity|].
      repeat constructor.
Qed.

Lemma gather_rotation :
  gather e (map (fmt "rot_") (seq 0 m)) = Some (map (map f4) (rows (_rotation s))).
Proof.
  apply (@gather_names (population s)
           [ (["x"; "y"; "z"]%string, rows (_xyz s));
             (["nx"; "ny"; "nz"]%string, rows normals);
             (map (fmt "f_dc_") (seq 0 (1 * 3)),
              map (transpose_flat 1 3) (rows (_features_dc s)));
             (map (fmt "f_rest_") (seq 0 (rest_coeffs s * 3)),
              map (transpose_flat (rest_coeffs s) 3) (rows (_features_rest s)));
             (["opacity"%string], rows (_opacity s));
             (map (fmt "scale_") (seq 0 k), rows (_scaling s)) ] _
           (map (fmt "rot_") (seq 0 m), rows (_rotation s))).
  - apply (ply_blocks_ok H).
  - apply (NoDup_fmt "rot").
  - apply not_in_by_prefix with (p := "rot_"%string).
    + apply Forall_fmt. intros i. reflexivity.
    + unfold block_names. cbn [map fst concat app].
      repeat (apply Forall_cons; [reflexivity|]).
      apply Forall_app; split; [apply Forall_fmt; intros i; reflexivity|].
      apply Forall_cons; [reflexivity|].
      rewrite app_nil_r. apply Forall_fmt. intros i. reflexivity.
Qed.

(** The names that [load_ply] selects by prefix. *)
Lemma names_by_prefix :
  filter (startswith "f_rest_") (properties e) = map (fmt "f_rest_") (seq 0 (rest_coeffs s * 3)) /\
  filter (startswith "scale_") (properties e) = map (fmt "scale_") (seq 0 k) /\
  filter (startswith "rot") (properties e) = map (fmt "rot_") (seq 0 m).
Proof.
  unfold e, block_names, ply_blocks. cbn [properties map fst concat].
  rewrite app_nil_r.
  repeat split; rewrite !filter_app.
  - rewrite (@filter_all _ _ (map (fmt "f_rest_") _)) by (apply Forall_fmt; intros; reflexivity).
    rewrite !(@filter_none _ _ (map (fmt "f_dc_") _)) by (apply Forall_fmt; intros; reflexivity).
    rewrite !(@filter_none _ _ (map (fmt "scale_") _)) by (apply Forall_fmt; intros; reflexivity).
    rewrite !(@filter_none _ _ (map (fmt "rot_") _)) by (apply Forall_fmt; intros; reflexivity).
    cbn. apply app_nil_r.
  - rewrite (@filter_all _ _ (map (fmt "scale_") _)) by (apply Forall_fmt; intros; reflexivity).
    rewrite !(@filter_none _ _ (map (fmt "f_dc_") _)) by (apply Forall_fmt; intros; reflexivity).
    rewrite !(@filter_none _ _ (map (fmt "f_rest_") _)) by (apply Forall_fmt; intros; reflexivity).
    rewrite !(@filter_none _ _ (map (fmt "rot_") _)) by (apply Forall_fmt; intros; reflexivity).
    cbn. apply app_nil_r.
  - rewrite (@filter_all _ _ (map (fmt "rot_") _)) by (apply Forall_fmt; intros; reflexivity).
    rewrite !(@filter_none _ _ (map (fmt "f_dc_") _)) by (apply Forall_fmt; intros; reflexivity).
    rewrite !(@filter_none _ _ (map (fmt "f_rest_") _)) by (apply Forall_fmt; intros; reflexivity).
    rewrite !(@filter_none _ _ (map (fmt "scale_") _)) by (apply Forall_fmt; intros; reflexivity).
    cbn. apply app_nil_r.
Qed.

End Reload.

Lemma sorted_fmt (p : string) (q : string) (k : nat) :
  p = (q ++ "_")%string ->
  sorted_by_suffix (map (fmt p) (seq 0 k)) = Some (map (fmt p) (seq 0 k)).
Proof. intros ->. apply sorted_by_suffix_fmt. Qed.

Lemma map_transpose_back (a b : nat) (R : list row) :
  Forall (fun r => length r = (a * b)%nat) R ->
  map (transpose_flat b a) (map (map f4) (map (transpose_flat a b) R)) = map (map f4) R.
Proof.
  intros HR. rewrite !map_map. apply map_ext_in. intros r Hr.
  rewrite Forall_forall in HR.
  rewrite transpose_flat_f4, transpose_flat_involutive by (apply HR, Hr). reflexivity.
Qed.

(** C9.  A store whose normals are a numpy array and whose arrays are
    complete matrices with one row per primitive is written by [save_ply];
    the element has one vertex per primitive and stores opacity, scale and
    rotation as they are held, without activation; [load_ply], on a model
    of the same SH degree, reads it back, and the positions, both groups
    of colour coefficients, the opacities, the scales and the rotations it
    installs are the stored ones rounded to float32, hence the stored ones
    themselves when these are float32 numbers; nothing is decoded on the
    way. *)
Theorem ply_round_trip (s loader : GaussianModel) (normals : tensor) (k m : nat) :
  ply_ready s normals k m -> max_sh_degree loader = max_sh_degree s ->
  exists e s',
    save_ply s = Some e /\ load_ply loader e = Some s' /\
    length (vertices e) = population s /\
    gather e ["opacity"%string] = Some (map (map f4) (rows (_opacity s))) /\
    gather e (map (fmt "scale_") (seq 0 k)) = Some (map (map f4) (rows (_scaling s))) /\
    gather e (map (fmt "rot_") (seq 0 m)) = Some (map (map f4) (rows (_rotation s))) /\
    tracked s' = map (tensor_map f4) (tracked s) /\
    active_sh_degree s' = max_sh_degree loader /\
    (Forall (fun t => Forall (Forall is_float32) (rows t)) (tracked s) ->
     tracked s' = tracked s).
Proof.
  intros H Hd.
  pose proof (save_ply_blocks H) as Hsave.
  pose proof (gather_xyz H) as Gx. pose proof (gather_features_dc H) as Gdc.
  pose proof (gather_features_rest H) as Grest. pose proof (gather_opacity H) as Go.
  pose proof (gather_scaling H) as Gs. pose proof (gather_rotation H) as Gr.
  destruct (names_by_prefix s normals k m) as (Frest & Fscale & Frot).
  set (e := mkPly (block_names (ply_blocks s normals k m))
                  (map (map f4) (block_rows (population s) (ply_blocks s normals k m)))) in *.
  assert (Hload : exists s', load_ply loader e = Some s' /\
                    tracked s' = map (tensor_map f4) (tracked s) /\
                    active_sh_degree s' = max_sh_degree loader).
  { unfold load_ply. rewrite Gx, Go, Gdc. cbn [bind].
    rewrite Frest, (@sorted_fmt _ "f_rest") by reflexivity. cbn [bind].
    rewrite length_map, length_seq.
    assert (Hc : (rest_coeffs s * 3 =
                  3 * ((max_sh_degree loader + 1) * (max_sh_degree loader + 1)) - 3)%nat).
    { unfold rest_coeffs. rewrite Hd. lia. }
    rewrite <- Hc, Nat.eqb_refl. cbn [negb].
    rewrite Grest. cbn [bind].
    rewrite Fscale, (@sorted_fmt _ "scale") by reflexivity. cbn [bind]. rewrite Gs. cbn [bind].
    rewrite Frot, (@sorted_fmt _ "rot") by reflexivity. cbn [bind]. rewrite Gr. cbn [bind].
    unfold transpose12. cbn [dims rows bind].
    eexists. split; [reflexivity|]. split; [|reflexivity].
    destruct H as [_ _ (Dx & _ & _) (Ddc & _ & Wdc) (Drest & _ & Wrest) (Do & _ & _)
                     (Ds & _ & _) (Dr & _ & _) _].
    unfold tracked, tensor_map. cbn [map _xyz _features_dc _features_rest _opacity _scaling
                                      _rotation].
    rewrite Dx, Ddc, Drest, Do, Ds, Dr, !length_map, !length_seq.
    rewrite (@map_transpose_back 1 3) by exact Wdc.
    replace ((max_sh_degree loader + 1) * (max_sh_degree loader + 1) - 1)%nat
      with (rest_coeffs s) by (unfold rest_coeffs; rewrite Hd; reflexivity).
    rewrite (@map_transpose_back (rest_coeffs s) 3).
    - reflexivity.
    - eapply Forall_impl; [|exact Wrest]. cbn. intros r Hr. rewrite Hr. lia. }
  destruct Hload as (s' & Hl & Ht & Ha).
  exists e, s'.
  split; [exact Hsave|]. split; [exact Hl|].
  split.
  { unfold e. cbn [vertices]. rewrite length_map.
    apply block_rows_length, ply_blocks_ok, H. }
  split; [exact Go|]. split; [exact Gs|]. split; [exact Gr|].
  split; [exact Ht|]. split; [exact Ha|].
  intros Hv. rewrite Ht. clear - Hv.
  induction Hv as [|t ts Hx _ IH]; cbn [map]; [reflexivity|].
  rewrite IH, tensor_map_f4_float32 by exact Hx. reflexivity.
Qed.

(** ** The round trip on a concrete store *)

Definition demo_normals : tensor :=
  match _normal Demo.densified with NdArray a => a | _ => empty0 end.

Lemma table_by_check (n : nat) (d : list nat) (t : tensor) :
  dims t = d -> shape0 t = n ->
  forallb (fun r => Nat.eqb (length r) (width d)) (rows t) = true -> table n d t.
Proof.
  intros Hd Hn Hw. split; [exact Hd|]. split; [exact Hn|].
  apply Forall_forallb with (p := fun r => Nat.eqb (length r) (width d)); [|exact Hw].
  intros r Hr. apply Nat.eqb_eq, Hr.
Qed.

Lemma demo_ply_ready : ply_ready Demo.densified demo_normals 3 4.
Proof.
  constructor; try (apply table_by_check; vm_compute; reflexivity).
  vm_compute. reflexivity.
Qed.

Lemma demo_loader : max_sh_degree (init 1) = max_sh_degree Demo.densified.
Proof. vm_compute. reflexivity. Qed.

Lemma ply_round_trip_witness :
  ply_ready Demo.densified demo_normals 3 4 /\
  max_sh_degree (init 1) = max_sh_degree Demo.densified /\
  exists e s',
    save_ply Demo.densified = Some e /\ load_ply (init 1) e = Some s' /\
    tracked s' = map (tensor_map f4) (tracked Demo.densified).
Proof.
  split; [exact demo_ply_ready|]. split; [exact demo_loader|].
  destruct (@ply_round_trip Demo.densified (init 1) demo_normals 3 4 demo_ply_ready demo_loader)
    as (e & s' & Hs & Hl & _ & _ & _ & _ & Ht & _).
  exists e, s'. split; [exact Hs|]. split; [exact Hl|exact Ht].
Defined.

(** * One densification step as a whole *)

(** The gradient statistics and the screen radii as a reset leaves them. *)
Definition statistics_zero (s : GaussianModel) : Prop :=
  max_radii2D s = repeat F32.zero (population s) /\
  xyz_gradient_accum s = zeros (population s) [1%nat] /\
  position_gradient_accum s = zeros (population s) [3%nat] /\
  denom s = zeros (population s) [1%nat].

(** Every id and every modified id names a primitive of a population of
    [n]. *)
Definition ids_below (n : nat) (s : GaussianModel) : Prop :=
  Forall (fun i => (i < n)%nat) (_xyz_id s) /\ Forall (fun i => (i < n)%nat) (modify_id s).

Lemma keep_tensor_zeros (m : list bool) (n : nat) (d : list nat) :
  length m = n -> keep_tensor m (zeros n d) = zeros (count_true m) d.
Proof. intros H. unfold keep_tensor, zeros. cbn. rewrite select_repeat by exact H. reflexivity. Qed.

Lemma statistics_zero_extend (s : GaussianModel) (x : extension) :
  statistics_zero (extend_model s x).
Proof. unfold statistics_zero. rewrite population_extend_model. repeat split; reflexivity. Qed.

Lemma statistics_zero_keep (s : GaussianModel) (m : list bool) :
  statistics_zero s -> length m = population s -> statistics_zero (keep_model s m).
Proof.
  intros (Hr & Hx & Hp & Hd) Hm. unfold statistics_zero.
  rewrite population_keep_model by exact Hm. cbn.
  rewrite Hr, Hx, Hp, Hd, select_repeat, !keep_tensor_zeros by exact Hm.
  repeat split; reflexivity.
Qed.

Section Step.
Context {E : Externals}.

(** X1.  [densify_and_prune] returns on a store with an initialised
    optimizer, whatever the thresholds, when the clone pass does not select
    a single primitive whose type is not 1 and the store holds no primitive
    or more than one, or the size tests apply ([max_screen_size] is a number
    other than zero): it returns a store that is again well formed and in
    lockstep, whose gradient statistics and screen radii are zero, whose
    ids and modified ids name primitives of the population before the
    call, whose scene scale is untouched and whose normals are a numpy
    array with one row per primitive. *)
Theorem densify_and_prune_settles (s : GaussianModel) (grads : tensor)
    (max_grad min_opacity extent : D) (max_screen_size : option D) (z : nat -> nat -> F) :
  wf s ->
  densify_grads s = Some grads ->
  lone_volumetric s (zip_with (clone_selected s max_grad extent) (rows grads)
                              (rows (_scaling s))) = false ->
  population s <> 1%nat \/ py_truthy max_screen_size = true ->
  exists s',
    densify_and_prune s max_grad min_opacity extent max_screen_size z = Some s' /\
    wf s' /\ lockstep s' (population s') /\
    statistics_zero s' /\ ids_below (population s) s' /\
    _scene_scale s' = _scene_scale s /\
    exists a, _normal s' = NdArray a /\ shape0 a = population s'.
Proof.
  intros H Hg Hlone Hone.
  pose proof (densify_grads_shape0 H Hg) as Hn.
  pose proof (densify_grads_dims H Hg) as Hd.
  unfold densify_and_prune. rewrite Hg. cbn [bind].
  set (s1 := set_ids (reset_xyz_id s) (_xyz_id (reset_xyz_id s)) []).
  assert (W1 : wf s1) by (apply wf_reset_ids; exact H).
  assert (I1 : ids_below (population s) s1).
  { split; cbn; [|constructor]. apply Forall_forall. intros i Hi. apply in_seq in Hi.
    unfold population. lia. }
  (* the clone pass *)
  rewrite (@densify_and_clone_spec E s1 grads max_grad extent W1 Hd Hn). cbn zeta.
  set (mc := zip_with (clone_selected s1 max_grad extent) (rows grads) (rows (_scaling s1))).
  assert (Hlone1 : lone_volumetric s1 mc = false) by exact Hlone.
  rewrite Hlone1. cbn [bind].
  pose proof (@mask_length E s1 grads max_grad extent W1 Hn) as Lc. fold mc in Lc.
  set (s2 := set_ids s1 (_xyz_id s1) (modify_id s1 ++ select mc (_xyz_id s1))).
  set (s3 := extend_model s2 (clone_extension s1 mc)).
  assert (W3 : wf s3).
  { eapply wf_extend_model; [apply wf_set_ids; [exact W1|apply (wf_xyz_id W1)]|].
    apply extension_fits_set_ids, clone_extension_fits; [exact W1|exact Lc]. }
  assert (I3 : ids_below (population s) s3).
  { destruct I1 as [Ia Ib]. split; cbn [s3 s2 extend_model set_ids _xyz_id modify_id
                                          clone_extension new_xyz_id].
    - apply Forall_app; split; [exact Ia|apply Forall_select; exact Ia].
    - apply Forall_app; split; [exact Ib|apply Forall_select; exact Ia]. }
  assert (P3 : population s3 = (population s + count_true mc)%nat).
  { unfold s3. rewrite population_extend_model.
    change (population s2) with (population s). f_equal.
    apply (fits_xyz (@clone_extension_fits s1 mc W1 Lc)). }
  assert (Hn3 : (shape0 grads <= population s3)%nat) by lia.
  (* the split pass *)
  rewrite (@densify_and_split_spec E s3 grads max_grad extent 2 z W3 Hd Hn3). cbn zeta.
  cbn [bind].
  set (ms := zip_with (split_selected s3 max_grad extent) (padded s3 grads)
                      (rows (_scaling s3))).
  pose proof (@split_mask_length E s3 grads max_grad extent W3 Hn3) as Ls. fold ms in Ls.
  set (x4 := extend_model (set_ids s3 (_xyz_id s3) (modify_id s3 ++ select ms (_xyz_id s3)))
                          (split_extension s3 ms 2 z)).
  assert (Wx : wf x4).
  { eapply wf_extend_model; [apply wf_set_ids; [exact W3|apply (wf_xyz_id W3)]|].
    apply extension_fits_set_ids, split_extension_fits; [exact W3|exact Ls]. }
  assert (Lk : length (logical_not (ms ++ repeat false (2 * count_true ms))) = population x4).
  { unfold x4. rewrite population_extend_model, logical_not_length, length_app, repeat_length.
    change (population (set_ids s3 _ _)) with (population s3). rewrite Ls. f_equal.
    symmetry. apply (fits_xyz (@split_extension_fits E s3 ms 2 z W3 Ls)). }
  assert (P4 : (population (keep_model x4 (logical_not (ms ++ repeat false (2 * count_true ms))))
                = population s3 + count_true ms)%nat).
  { rewrite population_keep_model by exact Lk.
    pose proof (count_true_not (ms ++ repeat false (2 * count_true ms))) as Hc.
    rewrite count_true_app, count_true_repeat_false, length_app, repeat_length in Hc.
    pose proof (count_true_le ms). lia. }
  set (s4 := keep_model x4 (logical_not (ms ++ repeat false (2 * count_true ms)))) in *.
  assert (W4 : wf s4) by (apply wf_keep_model; assumption).
  assert (I4 : ids_below (population s) s4).
  { destruct I3 as [Ia Ib]. split; cbn [s4 x4 keep_model extend_model set_ids _xyz_id modify_id
                                          split_extension new_xyz_id].
    - apply Forall_select, Forall_app; split; [exact Ia|].
      apply Forall_tile, Forall_select, Ia.
    - apply Forall_app; split; [exact Ib|apply Forall_select; exact Ia]. }
  assert (Z4 : statistics_zero s4).
  { apply statistics_zero_keep; [apply statistics_zero_extend|exact Lk]. }
  assert (Hone4 : population s4 <> 1%nat \/ py_truthy max_screen_size = true).
  { destruct Hone as [Hone|Hone]; [left|right; exact Hone].
    pose proof (count_true_le mc). pose proof (count_true_le ms).
    change (population s1) with (population s) in Lc. lia. }
  (* the pruning pass *)
  rewrite prune_pass_spec by assumption. cbn [bind].
  pose proof (@prune_mask_length E s4 min_opacity extent max_screen_size W4) as Lp.
  set (mp := zip_with3 _ _ _ _) in *. clearbody mp.
  assert (Lp' : length (logical_not mp) = population s4)
    by (rewrite logical_not_length; exact Lp).
  assert (W5 : wf (keep_model s4 (logical_not mp))) by (apply wf_keep_model; assumption).
  rewrite recompute_normals_spec by exact (wf_xyz W5). unfold with_normals.
  eexists. split; [reflexivity|].
  split; [apply wf_set_normal; exact W5|].
  split; [apply wf_lockstep, wf_set_normal; exact W5|].
  split; [exact (@statistics_zero_keep s4 (logical_not mp) Z4 Lp')|].
  split.
  { destruct I4 as [Ia Ib]. split; cbn [set_normal keep_model _xyz_id modify_id].
    - apply Forall_select, Ia.
    - exact Ib. }
  split; [reflexivity|].
  eexists. split; [reflexivity|]. unfold shape0, population, shape0. cbn. apply length_map.
Qed.

End Step.

Lemma densify_and_prune_settles_witness :
  wf Demo.seen /\
  densify_grads Demo.seen = Some Demo.grads /\
  lone_volumetric Demo.seen
    (zip_with (clone_selected (E := Ref.externals) Demo.seen (Demo.f 1 100) (Demo.f 10 1))
              (rows Demo.grads) (rows (_scaling Demo.seen))) = false /\
  (population Demo.seen <> 1%nat \/ py_truthy None = true) /\
  exists s',
    densify_and_prune (E := Ref.externals) Demo.seen (Demo.f 1 100) (Demo.f 5 1000)
      (Demo.f 10 1) None Demo.z = Some s' /\
    wf s' /\ statistics_zero s'.
Proof.
  split; [exact demo_seen_wf|]. split; [exact demo_grads|].
  split; [exact demo_clone_not_lone|]. split; [left; exact demo_population|].
  destruct (@densify_and_prune_settles Ref.externals Demo.seen Demo.grads (Demo.f 1 100)
              (Demo.f 5 1000) (Demo.f 10 1) None Demo.z demo_seen_wf demo_grads
              demo_clone_not_lone (or_introl demo_population))
    as (s' & Hs & Hw & _ & Hz & _).
  exists s'. split; [exact Hs|]. split; [exact Hw|exact Hz].
Defined.

(** * Pruning by a mask of the wrong length *)

Section PruneBounds.
Context {E : Externals}.

(** X2.  [prune_points] indexes every array by the mask: on a store with an
    initialised optimizer it returns exactly when the mask has one entry
    per primitive, and then the store keeps the entries at which the mask
    is false. *)
Theorem prune_points_needs_full_mask (s : GaussianModel) (mask : list bool) :
  wf s ->
  (length mask <> population s -> prune_points s mask = None) /\
  (length mask = population s ->
   exists s', prune_points s mask = Some s' /\ wf s' /\
              (population s' + count_true mask = population s)%nat /\
              map rows (tracked s') = map (fun t => select (logical_not mask) (rows t)) (tracked s)).
Proof.
  intros H. split.
  - intros Hne. destruct (prune_points s mask) as [s'|] eqn:Hp; [|reflexivity].
    exfalso. apply Hne.
    exact (@prune_points_some_fits s s' mask H Hp).
  - intros Hl. rewrite prune_points_spec by assumption.
    eexists. split; [reflexivity|].
    assert (Hl' : length (logical_not mask) = population s)
      by (rewrite logical_not_length; exact Hl).
    split; [apply wf_keep_model; assumption|].
    split; [|reflexivity].
    rewrite population_keep_model by exact Hl'.
    rewrite <- Hl. apply count_true_not.
Qed.

End PruneBounds.

Lemma prune_points_needs_full_mask_witness :
  wf Demo.seen /\
  prune_points Demo.seen [true; false] = None /\
  exists s', prune_points Demo.seen [true; false; false; true] = Some s' /\ wf s'.
Proof.
  split; [exact demo_seen_wf|].
  destruct (@prune_points_needs_full_mask Demo.seen [true; false] demo_seen_wf)
    as [Hbad _].
  destruct (@prune_points_needs_full_mask Demo.seen [true; false; false; true]
              demo_seen_wf) as [_ Hgood].
  split.
  - apply Hbad. vm_compute. discriminate.
  - destruct Hgood as (s' & Hs & Hw & _); [vm_compute; reflexivity|].
    exists s'. split; [exact Hs|exact Hw].
Defined.

(** * Gradient accumulation *)

Lemma scatter_zip {A} (f : A -> A -> A) (sel : list bool) (l u : list A) :
  length l = length sel -> length u = length sel ->
  scatter sel l (zip_with f (select sel l) (select sel u)) =
  zip_with3 (fun (b : bool) x y => if b then f x y else x) sel l u.
Proof.
  revert l u; induction sel as [|b sel IH]; intros [|x l] [|y u] Hl Hu; try discriminate;
    [reflexivity|].
  cbn in Hl, Hu. destruct b; cbn [select zip_with scatter zip_with3]; f_equal; apply IH; lia.
Qed.

Lemma masked_iadd_spec (t u : tensor) (sel : list bool) :
  length sel = shape0 t -> shape0 u = shape0 t ->
  masked_iadd t sel (keep_tensor sel u) =
  Some (mkTensor (dims t)
          (zip_with3 (fun (b : bool) x y => if b then zip_with F32.add x y else x)
                     sel (rows t) (rows u))).
Proof.
  intros Hs Hu. unfold masked_iadd, shape0 in *.
  rewrite tensor_index_some by exact Hs. cbn [bind keep_tensor rows].
  rewrite pointwise_some by (rewrite !select_length by congruence; reflexivity).
  cbn [bind]. rewrite scatter_zip by congruence. reflexivity.
Qed.

(** X3.  [add_densification_stats] on a store with an initialised optimizer,
    given one gradient row per primitive and a visibility flag per
    primitive: it returns; for a visible primitive it adds the norm of the
    first two components of the screen-space gradient to
    [xyz_gradient_accum], the position gradient to
    [position_gradient_accum] and one to [denom]; for every other
    primitive the three statistics stay as they are. *)
Theorem add_densification_stats_counts_visible (s : GaussianModel)
    (viewspace_grad xyz_grad : tensor) (update_filter : list bool) :
  wf s ->
  length update_filter = population s ->
  shape0 viewspace_grad = population s -> shape0 xyz_grad = population s ->
  exists s',
    add_densification_stats s viewspace_grad xyz_grad update_filter = Some s' /\
    rows (xyz_gradient_accum s') =
      zip_with3 (fun (visible : bool) acc g =>
                   if visible then zip_with F32.add acc [row_norm (firstn 2 g)] else acc)
                update_filter (rows (xyz_gradient_accum s)) (rows viewspace_grad) /\
    rows (position_gradient_accum s') =
      zip_with3 (fun (visible : bool) acc g => if visible then zip_with F32.add acc g else acc)
                update_filter (rows (position_gradient_accum s)) (rows xyz_grad) /\
    rows (denom s') =
      zip_with (fun (visible : bool) d =>
                  if visible then map (fun x => F32.add x (F32.of_Z 1)) d else d)
               update_filter (rows (denom s)) /\
    tracked s' = tracked s /\ optimizer s' = optimizer s /\
    max_radii2D s' = max_radii2D s /\ _xyz_id s' = _xyz_id s /\ _type s' = _type s.
Proof.
  intros H Hf Hv Hx.
  destruct (wf_xyz_gradient_accum H) as [_ La].
  destruct (wf_position_gradient_accum H) as [_ Lp].
  destruct (wf_denom H) as [_ Ld].
  unfold add_densification_stats.
  rewrite (tensor_index_some viewspace_grad) by congruence. cbn [bind].
  change (mkTensor [1%nat] (map (fun r => [row_norm (firstn 2 r)])
                                (rows (keep_tensor update_filter viewspace_grad))))
    with (mkTensor [1%nat] (map (fun r => [row_norm (firstn 2 r)])
                                (select update_filter (rows viewspace_grad)))).
  rewrite <- select_map.
  change (mkTensor [1%nat] (select update_filter
                              (map (fun r => [row_norm (firstn 2 r)]) (rows viewspace_grad))))
    with (keep_tensor update_filter
            (mkTensor [1%nat] (map (fun r => [row_norm (firstn 2 r)]) (rows viewspace_grad)))).
  rewrite masked_iadd_spec by (unfold shape0 in *; cbn [rows]; rewrite ?length_map; congruence).
  cbn [bind].
  rewrite (tensor_index_some xyz_grad) by congruence. cbn [bind].
  rewrite masked_iadd_spec by congruence. cbn [bind].
  rewrite (tensor_index_some (denom s)) by congruence. cbn [bind].
  change (tensor_map (fun _ => F32.of_Z 1) (keep_tensor update_filter (denom s)))
    with (mkTensor (dims (denom s))
            (map (map (fun _ => F32.of_Z 1)) (select update_filter (rows (denom s))))).
  rewrite <- select_map.
  change (mkTensor (dims (denom s))
            (select update_filter (map (map (fun _ => F32.of_Z 1)) (rows (denom s)))))
    with (keep_tensor update_filter (tensor_map (fun _ => F32.of_Z 1) (denom s))).
  rewrite masked_iadd_spec
    by (unfold shape0 in *; cbn [rows tensor_map]; rewrite ?length_map; congruence).
  cbn [bind].
  eexists. split; [reflexivity|].
  cbn [xyz_gradient_accum position_gradient_accum denom rows tensor_map].
  split.
  { clear. generalize (rows (xyz_gradient_accum s)). generalize (rows viewspace_grad).
    induction update_filter as [|b f IH]; intros [|g gs] [|a accs]; try reflexivity.
    cbn [map zip_with3]. rewrite IH. reflexivity. }
  split; [reflexivity|].
  split.
  { clear. generalize (rows (denom s)).
    induction update_filter as [|b f IH]; intros [|d ds]; try reflexivity.
    cbn [map zip_with3 zip_with]. rewrite IH. f_equal.
    destruct b; [|reflexivity].
    induction d as [|x d IHd]; [reflexivity|]. cbn [map zip_with]. rewrite IHd. reflexivity. }
  repeat split; reflexivity.
Qed.

Lemma add_densification_stats_counts_visible_witness :
  wf Demo.ready /\
  exists s',
    add_densification_stats Demo.ready
      (mkTensor [3%nat] [[Demo.f 3 1; Demo.f 4 1; Demo.f 0 1];
                        [Demo.f 3 100; Demo.f 4 100; Demo.f 0 1];
                        [Demo.f 0 1; Demo.f 0 1; Demo.f 0 1];
                        [Demo.f 0 1; Demo.f 0 1; Demo.f 0 1]])
      (mkTensor [3%nat] [[Demo.f 1 10; Demo.f 0 1; Demo.f 0 1];
                        [Demo.f 0 1; Demo.f 1 10; Demo.f 0 1];
                        [Demo.f 0 1; Demo.f 0 1; Demo.f 0 1];
                        [Demo.f 0 1; Demo.f 0 1; Demo.f 0 1]])
      [true; true; false; false] = Some s' /\
    tracked s' = tracked Demo.ready.
Proof.
  split; [exact demo_ready_wf|].
  destruct (@add_densification_stats_counts_visible Demo.ready
      (mkTensor [3%nat] [[Demo.f 3 1; Demo.f 4 1; Demo.f 0 1];
                        [Demo.f 3 100; Demo.f 4 100; Demo.f 0 1];
                        [Demo.f 0 1; Demo.f 0 1; Demo.f 0 1];
                        [Demo.f 0 1; Demo.f 0 1; Demo.f 0 1]])
      (mkTensor [3%nat] [[Demo.f 1 10; Demo.f 0 1; Demo.f 0 1];
                        [Demo.f 0 1; Demo.f 1 10; Demo.f 0 1];
                        [Demo.f 0 1; Demo.f 0 1; Demo.f 0 1];
                        [Demo.f 0 1; Demo.f 0 1; Demo.f 0 1]])
      [true; true; false; false] demo_ready_wf)
    as (s' & Hs & _ & _ & _ & Ht & _); try reflexivity.
  exists s'. split; [exact Hs|exact Ht].
Defined.

(** * The store after initialisation *)

Section Initial.
Context {E : Externals}.

(** X4.  For a point cloud with one colour, one normal and one type per point,
    [create_from_pcd] followed by [training_setup] gives a store with an
    initialised optimizer and one primitive per point, numbered from zero;
    the colours of the cloud are not used: all colour coefficients are
    zero; every raw opacity is [inverse_sigmoid(0.4)]; the statistics are
    zero and Adam has no state yet. *)
Theorem create_from_pcd_initial_store (self : GaussianModel) (pcd : BasicPointCloud)
    (spatial_lr_scale_arg percent_dense_arg : F) :
  shape0 (colors pcd) = shape0 (points pcd) ->
  shape0 (normals pcd) = shape0 (points pcd) ->
  shape0 (types pcd) = shape0 (points pcd) ->
  dims (points pcd) = [3%nat] -> dims (types pcd) = [1%nat] ->
  exists s0,
    create_from_pcd self pcd spatial_lr_scale_arg = Some s0 /\
    let s := training_setup s0 percent_dense_arg in
    let n := shape0 (points pcd) in
    wf s /\ population s = n /\
    _xyz s = points pcd /\ _type s = types pcd /\ _xyz_id s = seq 0 n /\
    _features_dc s = zeros n [1; 3]%nat /\
    _features_rest s = zeros n [rest_coeffs self; 3%nat] /\
    _opacity s =
      mkTensor [1%nat] (repeat [inverse_sigmoid (F32.mul (F32.of_ratio 4 10) F32.one)] n) /\
    statistics_zero s /\
    (exists groups, optimizer s = Some groups /\
                    Forall (fun g => stored_state g = None) groups) /\
    _normal s = PyNone /\
    spatial_lr_scale s = spatial_lr_scale_arg /\ percent_dense s = percent_dense_arg.
Proof.
  intros Hc Hn Ht D3 D1.
  destruct (create_from_pcd self pcd spatial_lr_scale_arg) as [s0|] eqn:Hs.
  2:{ unfold create_from_pcd in Hs.
      rewrite assign_rows_full in Hs by (rewrite length_map; exact Hn). cbn [bind] in Hs.
      rewrite copy_second_scale_spec in Hs by (rewrite !length_map, length_seq; exact Ht).
      discriminate. }
  exists s0. split; [reflexivity|]. cbn zeta.
  split; [exact (@wf_create_from_pcd E self s0 pcd spatial_lr_scale_arg percent_dense_arg
                   Hs Hc Ht D3 D1)|].
  unfold create_from_pcd in Hs.
  rewrite assign_rows_full in Hs by (rewrite length_map; exact Hn). cbn [bind] in Hs.
  rewrite copy_second_scale_spec in Hs by (rewrite !length_map, length_seq; exact Ht).
  cbn [bind] in Hs.
  injection Hs as <-.
  unfold statistics_zero, population, rest_coeffs.
  cbn [training_setup set_normal reset_xyz_id set_ids get_xyz _xyz _type _xyz_id _features_dc
       _features_rest _opacity max_radii2D xyz_gradient_accum position_gradient_accum denom
       optimizer _normal spatial_lr_scale percent_dense max_sh_degree computeNormal].
  assert (Hcol : shape0 (tensor_map RGB2SH (colors pcd)) = shape0 (points pcd)).
  { unfold shape0 in *. cbn. rewrite length_map. exact Hc. }
  rewrite Hcol.
  repeat split; try reflexivity.
  eexists. split; [reflexivity|]. repeat constructor.
Qed.

End Initial.

Lemma demo_pcd_colors : shape0 (colors Demo.pcd) = shape0 (points Demo.pcd).
Proof. reflexivity. Qed.

Lemma demo_pcd_points_dims : dims (points Demo.pcd) = [3%nat].
Proof. reflexivity. Qed.

Lemma demo_pcd_types_dims : dims (types Demo.pcd) = [1%nat].
Proof. reflexivity. Qed.

Lemma create_from_pcd_initial_store_witness :
  shape0 (colors Demo.pcd) = shape0 (points Demo.pcd) /\
  shape0 (normals Demo.pcd) = shape0 (points Demo.pcd) /\
  shape0 (types Demo.pcd) = shape0 (points Demo.pcd) /\
  dims (points Demo.pcd) = [3%nat] /\ dims (types Demo.pcd) = [1%nat] /\
  exists s0,
    create_from_pcd (E := Ref.externals) (init 1) Demo.pcd (Demo.f 1 1) = Some s0 /\
    wf (training_setup s0 (Demo.f 1 100)).
Proof.
  split; [exact demo_pcd_colors|]. split; [exact demo_pcd_normals|].
  split; [exact demo_pcd_types|]. split; [exact demo_pcd_points_dims|].
  split; [exact demo_pcd_types_dims|].
  destruct (@create_from_pcd_initial_store Ref.externals (init 1) Demo.pcd (Demo.f 1 1)
              (Demo.f 1 100) demo_pcd_colors demo_pcd_normals demo_pcd_types
              demo_pcd_points_dims demo_pcd_types_dims) as (s0 & Hs & Hw & _).
  exists s0. split; [exact Hs|exact Hw].
Defined.

(** * Loading into a model of another SH degree *)

Lemma square_inj (a b : nat) : ((a + 1) * (a + 1) = (b + 1) * (b + 1))%nat -> a = b.
Proof. intros H. nia. Qed.

(** X5.  [load_ply] asserts that the file holds [3 (d + 1)^2 - 3] higher-order
    colour properties for the SH degree [d] of the loading model: a file
    written by a store of another degree is refused. *)
Theorem load_ply_refuses_other_degree (s loader : GaussianModel) (normals : tensor)
    (k m : nat) (e : PlyElement) :
  ply_ready s normals k m -> save_ply s = Some e ->
  max_sh_degree loader <> max_sh_degree s ->
  load_ply loader e = None.
Proof.
  intros H Hsave Hd.
  assert (He : e = mkPly (block_names (ply_blocks s normals k m))
                         (map (map f4) (block_rows (population s) (ply_blocks s normals k m))))
    by (rewrite (save_ply_blocks H) in Hsave; congruence).
  subst e. clear Hsave.
  pose proof (gather_xyz H) as Gx. pose proof (gather_features_dc H) as Gdc.
  pose proof (gather_opacity H) as Go.
  destruct (names_by_prefix s normals k m) as (Frest & _ & _).
  unfold load_ply. rewrite Gx, Go, Gdc. cbn [bind].
  rewrite Frest, (@sorted_fmt _ "f_rest") by reflexivity. cbn [bind].
  rewrite length_map, length_seq.
  destruct (Nat.eqb_spec (rest_coeffs s * 3)
              (3 * ((max_sh_degree loader + 1) * (max_sh_degree loader + 1)) - 3))
    as [Heq|_]; [|reflexivity].
  exfalso. apply Hd. apply square_inj. unfold rest_coeffs in Heq.
  assert (0 < (max_sh_degree loader + 1) * (max_sh_degree loader + 1))%nat by nia.
  assert (0 < (max_sh_degree s + 1) * (max_sh_degree s + 1))%nat by nia.
  lia.
Qed.

Lemma demo_saved :
  save_ply Demo.densified = Some (from_some (save_ply Demo.densified) (mkPly [] [])).
Proof. rewrite (save_ply_blocks demo_ply_ready). reflexivity. Qed.

Lemma demo_other_degree : max_sh_degree (init 3) <> max_sh_degree Demo.densified.
Proof. vm_compute. discriminate. Qed.

Lemma load_ply_refuses_other_degree_witness :
  ply_ready Demo.densified demo_normals 3 4 /\
  max_sh_degree (init 3) <> max_sh_degree Demo.densified /\
  load_ply (init 3) (from_some (save_ply Demo.densified) (mkPly [] [])) = None.
Proof.
  split; [exact demo_ply_ready|]. split; [exact demo_other_degree|].
  exact (@load_ply_refuses_other_degree Demo.densified (init 3) demo_normals 3 4 _
           demo_ply_ready demo_saved demo_other_degree).
Defined.

(** * Checkpoints: [capture] and [restore] *)

(** The twelve-entry tuple that [restore] unpacks: [capture] without the
    type and the normal. *)
Definition checkpoint12 (args : list py_value) : list py_value :=
  match args with
  | active :: xyz :: _ :: _ :: rest => active :: xyz :: rest
  | _ => args
  end.

Lemma load_state_dict_same (groups saved : list param_group) :
  map param groups = map param saved ->
  load_state_dict groups (state_dict saved) = Some saved.
Proof.
  revert saved; induction groups as [|g groups IH]; intros [|[nm p st] saved] H;
    try discriminate; [reflexivity|].
  cbn in H. injection H as Hp Hrest. cbn [state_dict map load_state_dict name stored_state].
  fold (state_dict saved). rewrite IH by exact Hrest. cbn [bind]. rewrite Hp. reflexivity.
Qed.

(** X6.  [capture] returns fourteen entries and [restore] unpacks twelve: no
    tuple that [capture] returns can be restored, into any model; the same
    tuple without the type and the normal is restored, and gives back the
    tracked arrays, the two saved statistics and Adam's state. *)
Theorem restore_rejects_capture (s : GaussianModel) (args : list py_value) :
  capture s = Some args ->
  length args = 14%nat /\
  (forall self percent_dense_arg, restore self args percent_dense_arg = None) /\
  (wf s ->
   forall self percent_dense_arg,
   exists s', restore self (checkpoint12 args) percent_dense_arg = Some s' /\
              tracked s' = tracked s /\
              xyz_gradient_accum s' = xyz_gradient_accum s /\ denom s' = denom s /\
              position_gradient_accum s' = zeros (population s) [3%nat] /\
              option_map (fun g => map stored_state g) (optimizer s') =
              option_map (fun g => map stored_state g) (optimizer s) /\
              _type s' = _type self).
Proof.
  unfold capture. intros H.
  destruct (optimizer s) as [groups|] eqn:Ho; [|discriminate]. cbn [bind] in H.
  injection H as <-.
  split; [reflexivity|]. split; [reflexivity|].
  intros W self pd. cbn [checkpoint12 restore training_setup optimizer].
  cbn [bind].
  pose proof W as W'.
  destruct W' as [Hg _ _ _ _ _ _ _ _ _ _ _ _ _].
  destruct Hg as (groups' & Ho' & Hn & Hp & _).
  rewrite Ho in Ho'. injection Ho' as <-.
  destruct groups as [|[n0 p0 st0] [|[n1 p1 st1] [|[n2 p2 st2] [|[n3 p3 st3] [|[n4 p4 st4]
                     [|[n5 p5 st5] [|[n6 p6 st6] [|? ?]]]]]]]]; try discriminate Hn.
  cbn in Hn, Hp. injection Hn as -> -> -> -> -> -> ->.
  unfold tracked in Hp. injection Hp as -> -> -> -> -> ->.
  cbn [state_dict map name stored_state load_state_dict bind param].
  eexists. split; [reflexivity|].
  repeat split; reflexivity.
Qed.

Lemma demo_capture :
  capture Demo.seen = Some (from_some (capture Demo.seen) []).
Proof. reflexivity. Qed.

Lemma restore_rejects_capture_witness :
  capture Demo.seen = Some (from_some (capture Demo.seen) []) /\
  restore (init 1) (from_some (capture Demo.seen) []) (Demo.f 1 100) = None /\
  exists s', restore (init 1) (checkpoint12 (from_some (capture Demo.seen) []))
               (Demo.f 1 100) = Some s' /\
             tracked s' = tracked Demo.seen.
Proof.
  split; [exact demo_capture|].
  destruct (@restore_rejects_capture Demo.seen _ demo_capture) as (_ & Hr & Hold).
  split; [apply Hr|].
  destruct (Hold demo_seen_wf (init 1) (Demo.f 1 100)) as (s' & Hs & Ht & _).
  exists s'. split; [exact Hs|exact Ht].
Defined.

(** * The active SH degree *)

Lemma oneupSHdegree_step (s : GaussianModel) :
  active_sh_degree (oneupSHdegree s) =
    (if Nat.ltb (active_sh_degree s) (max_sh_degree s)
     then active_sh_degree s + 1 else active_sh_degree s)%nat /\
  max_sh_degree (oneupSHdegree s) = max_sh_degree s /\
  tracked (oneupSHdegree s) = tracked s /\
  optimizer (oneupSHdegree s) = optimizer s.
Proof.
  unfold oneupSHdegree. destruct (Nat.ltb _ _); repeat split; reflexivity.
Qed.

(** X7.  After [k] calls of [oneupSHdegree] the active degree of a model that
    started at or below its maximum is [min (active + k) max]: it rises by
    one per call and stays at the maximum; nothing else changes. *)
Theorem oneupSHdegree_saturates (k : nat) (s : GaussianModel) :
  (active_sh_degree s <= max_sh_degree s)%nat ->
  active_sh_degree (Nat.iter k oneupSHdegree s) =
    Nat.min (active_sh_degree s + k) (max_sh_degree s) /\
  max_sh_degree (Nat.iter k oneupSHdegree s) = max_sh_degree s /\
  tracked (Nat.iter k oneupSHdegree s) = tracked s /\
  optimizer (Nat.iter k oneupSHdegree s) = optimizer s.
Proof.
  intros H. induction k as [|k (Ha & Hm & Ht & Ho)].
  - cbn. rewrite Nat.add_0_r, Nat.min_l by exact H. repeat split; reflexivity.
  - rewrite Nat.iter_succ.
    destruct (oneupSHdegree_step (Nat.iter k oneupSHdegree s)) as (Sa & Sm & St & So).
    rewrite Sa, Sm, St, So, Ha, Hm, Ht, Ho. repeat split; try reflexivity.
    destruct (Nat.ltb_spec (Nat.min (active_sh_degree s + k) (max_sh_degree s))
                           (max_sh_degree s)); lia.
Qed.

Lemma oneupSHdegree_saturates_witness :
  (active_sh_degree (init 3) <= max_sh_degree (init 3))%nat /\
  active_sh_degree (Nat.iter 5 oneupSHdegree (init 3)) = 3%nat.
Proof.
  split; [cbn; lia|].
  destruct (@oneupSHdegree_saturates 5 (init 3)) as (Ha & _); [cbn; lia|].
  rewrite Ha. reflexivity.
Defined.

(** * Resetting the opacities *)

Lemma zeros_like_tensor_map (f : F -> F) (t : tensor) :
  zeros_like (tensor_map f t) = zeros_like t.
Proof.
  unfold zeros_like, tensor_map. cbn [dims rows]. f_equal.
  rewrite map_map. apply map_ext. intros r. rewrite map_map. reflexivity.
Qed.

Section Opacity.
Context {E : Externals}.

(** The group of the opacities. *)
Definition opacity_group (s : GaussianModel) : option param_group :=
  match optimizer s with
  | Some groups => find (fun g => String.eqb (name g) "opacity") groups
  | None => None
  end.

(** The raw opacity that [reset_opacity] installs. *)
Definition capped_opacity (o : F) : F :=
  inverse_sigmoid (F32.min (t_sigmoid o) (F32.mul F32.one (F32.of_ratio 1 100))).

(** X8.  [reset_opacity] on a store with an initialised optimizer raises while
    Adam holds no state for the opacities (as before the first optimizer
    step); once it does, the call returns: every raw opacity [o] becomes
    [inverse_sigmoid (min (sigmoid o) 0.01)], both Adam moments of the
    opacities become zero, and every other array, every other group and
    the statistics are as before. *)
Theorem reset_opacity_needs_adam_state (s : GaussianModel) (g : param_group) :
  wf s -> opacity_group s = Some g ->
  (stored_state g = None -> reset_opacity s = None) /\
  (stored_state g <> None ->
   exists s' g',
     reset_opacity s = Some s' /\ wf s' /\
     _opacity s' = tensor_map capped_opacity (_opacity s) /\
     opacity_group s' = Some g' /\ param g' = _opacity s' /\
     stored_state g' = Some (mkAdam (zeros_like (_opacity s)) (zeros_like (_opacity s))) /\
     [_xyz s'; _features_dc s'; _features_rest s'; _scaling s'; _rotation s'; _type s';
      _score s'; xyz_gradient_accum s'; position_gradient_accum s'; denom s'] =
     [_xyz s; _features_dc s; _features_rest s; _scaling s; _rotation s; _type s;
      _score s; xyz_gradient_accum s; position_gradient_accum s; denom s] /\
     option_map (filter (fun g => negb (String.eqb (name g) "opacity"))) (optimizer s') =
     option_map (filter (fun g => negb (String.eqb (name g) "opacity"))) (optimizer s)).
Proof.
  intros H Hg. pose proof H as W.
  destruct H as [Hgr Hx Hdc Hrest Hop Hsc Hrot Hty Hscore Hxga Hpga Hden Hrad Hid].
  destruct Hgr as (groups & Ho & Hn & Hp & Hm).
  destruct groups as [|[n0 p0 st0] [|[n1 p1 st1] [|[n2 p2 st2] [|[n3 p3 st3] [|[n4 p4 st4]
                     [|[n5 p5 st5] [|[n6 p6 st6] [|? ?]]]]]]]]; try discriminate Hn.
  cbn in Hn, Hp. injection Hn as -> -> -> -> -> -> ->.
  unfold tracked in Hp. injection Hp as -> -> -> -> -> ->.
  unfold opacity_group in Hg. rewrite Ho in Hg. cbn in Hg. injection Hg as <-.
  cbn [stored_state].
  split.
  - intros ->. unfold reset_opacity. rewrite Ho. cbn. reflexivity.
  - intros Hst. destruct st4 as [st|]; [|contradiction].
    unfold reset_opacity. rewrite Ho.
    cbn [bind replace_tensor_to_optimizer name String.eqb Ascii.eqb Bool.eqb stored_state
         dict_set dict_get].
    eexists. eexists. split; [reflexivity|].
    unfold opacity_group.
    cbn [optimizer _opacity find name String.eqb Ascii.eqb Bool.eqb param stored_state
         _xyz _features_dc _features_rest _scaling _rotation _type _score xyz_gradient_accum
         position_gradient_accum denom option_map filter negb].
    assert (Heq : tensor_map inverse_sigmoid
                    (tensor_map (fun o => F32.min o (F32.mul F32.one (F32.of_ratio 1 100)))
                       (get_opacity s)) = tensor_map capped_opacity (_opacity s)).
    { unfold get_opacity, capped_opacity, tensor_map. cbn [dims rows]. f_equal.
      rewrite !map_map. apply map_ext. intros r. rewrite !map_map. reflexivity. }
    rewrite Heq, zeros_like_tensor_map.
    split.
    { constructor; cbn [optimizer _xyz _features_dc _features_rest _opacity _scaling _rotation
                        _type _score xyz_gradient_accum position_gradient_accum denom
                        max_radii2D _xyz_id max_sh_degree]; try assumption.
      - eexists. split; [reflexivity|]. split; [reflexivity|]. split; [reflexivity|].
        split_forall. repeat (apply Forall_cons; [assumption|]).
        apply Forall_cons; [|repeat (apply Forall_cons; [assumption|]); apply Forall_nil].
        unfold moments_ok, same_shape. cbn. unfold shape0. cbn.
        rewrite !length_map. repeat split; reflexivity.
      - destruct Hop as [Do Lo]. split; [exact Do|].
        unfold shape0 in *. cbn. rewrite length_map. exact Lo. }
    split; [reflexivity|]. split; [reflexivity|]. split; [reflexivity|].
    split; [reflexivity|].
    split; reflexivity.
Qed.

End Opacity.

(** * The recorded screen radii and the pruning of a densification step *)

(** An assignment to the attribute [max_radii2D] by a caller. *)
Definition set_max_radii2D (self : GaussianModel) (radii : list F) : GaussianModel :=
  {| active_sh_degree := active_sh_degree self;
     max_sh_degree := max_sh_degree self;
     _normal := _normal self;
     _score := _score self;
     _type := _type self;
     _scene_scale := _scene_scale self;
     _xyz := _xyz self;
     _xyz_id := _xyz_id self;
     modify_id := modify_id self;
     _features_dc := _features_dc self;
     _features_rest := _features_rest self;
     _scaling := _scaling self;
     _rotation := _rotation self;
     _opacity := _opacity self;
     max_radii2D := radii;
     xyz_gradient_accum := xyz_gradient_accum self;
     position_gradient_accum := position_gradient_accum self;
     denom := denom self;
     optimizer := optimizer self;
     percent_dense := percent_dense self;
     spatial_lr_scale := spatial_lr_scale self |}.

Lemma wf_set_max_radii2D (s : GaussianModel) (radii : list F) :
  wf s -> length radii = population s -> wf (set_max_radii2D s radii).
Proof.
  intros [Hg Hx Hdc Hrest Hop Hsc Hrot Hty Hscore Hxga Hpga Hden Hrad Hid] Hl.
  constructor; assumption.
Qed.

Section Radii.
Context {E : Externals}.

(** X9.  The screen radii recorded before [densify_and_prune] never reach its
    size test: the clone pass zeroes [max_radii2D] before the pruning mask
    is computed, so the call returns the same store whatever radii were
    recorded. *)
Theorem densify_and_prune_ignores_recorded_radii (s : GaussianModel) (radii : list F)
    (max_grad min_opacity extent : F) (max_screen_size : option F) (z : nat -> nat -> F) :
  wf s -> length radii = population s ->
  densify_and_prune (set_max_radii2D s radii) max_grad min_opacity extent max_screen_size z =
  densify_and_prune s max_grad min_opacity extent max_screen_size z.
Proof.
  intros H Hl. pose proof (@wf_set_max_radii2D s radii H Hl) as H'.
  pose proof (densify_grads_spec H) as Hg.
  pose proof (densify_grads_shape0 H Hg) as Hn.
  pose proof (densify_grads_dims H Hg) as Hd.
  unfold densify_and_prune.
  change (densify_grads (set_max_radii2D s radii)) with (densify_grads s).
  rewrite Hg. cbn [bind].
  set (grads := nan_to_zero _) in *. clearbody grads.
  set (s1 := set_ids (reset_xyz_id s) (_xyz_id (reset_xyz_id s)) []).
  set (s1' := set_ids (reset_xyz_id (set_max_radii2D s radii))
                      (_xyz_id (reset_xyz_id (set_max_radii2D s radii))) []).
  assert (W1 : wf s1).
  { apply wf_set_ids; [apply wf_set_ids; [exact H|]|]; cbn; apply length_seq. }
  assert (W1' : wf s1').
  { apply wf_set_ids; [apply wf_set_ids; [exact H'|]|]; cbn; apply length_seq. }
  rewrite (@densify_and_clone_spec E s1 grads max_grad extent W1 Hd Hn).
  rewrite (@densify_and_clone_spec E s1' grads max_grad extent W1' Hd Hn).
  reflexivity.
Qed.

End Radii.

Lemma densify_and_prune_ignores_recorded_radii_witness :
  wf Demo.seen /\
  densify_and_prune (E := Ref.externals)
    (set_max_radii2D Demo.seen [Demo.f 100 1; Demo.f 100 1; Demo.f 100 1; Demo.f 100 1])
    (Demo.f 1 100) (Demo.f 5 1000) (Demo.f 10 1) (Some (Demo.f 20 1)) Demo.z =
  densify_and_prune (E := Ref.externals) Demo.seen
    (Demo.f 1 100) (Demo.f 5 1000) (Demo.f 10 1) (Some (Demo.f 20 1)) Demo.z.
Proof.
  split; [exact demo_seen_wf|].
  apply (@densify_and_prune_ignores_recorded_radii Ref.externals Demo.seen
           [Demo.f 100 1; Demo.f 100 1; Demo.f 100 1; Demo.f 100 1]);
    [exact demo_seen_wf|reflexivity].
Defined.

(** * The colour coefficients as one array *)

(** X10.  On a store with an initialised optimizer [get_features] returns one
    entry per primitive with [(max_sh_degree + 1)^2] coefficients of three
    channels: the DC coefficient followed by the higher-order ones. *)
Theorem get_features_all_coefficients (s : GaussianModel) :
  wf s ->
  exists t,
    get_features s = Some t /\
    dims t = [((max_sh_degree s + 1) * (max_sh_degree s + 1))%nat; 3%nat] /\
    shape0 t = population s /\
    rows t = zip_with (@app F) (rows (_features_dc s)) (rows (_features_rest s)).
Proof.
  intros H.
  destruct (wf_features_dc H) as [Ddc Ldc]. destruct (wf_features_rest H) as [Drest Lrest].
  unfold get_features, cat_dim1, is_empty0. rewrite Ddc, Drest.
  unfold dims_eqb. destruct (list_eq_dec Nat.eq_dec [3%nat] [3%nat]) as [_|Hne];
    [|exfalso; apply Hne; reflexivity].
  rewrite Ldc, Lrest, Nat.eqb_refl. cbn [andb].
  eexists. split; [reflexivity|]. cbn [dims rows].
  split.
  { unfold rest_coeffs. f_equal.
    assert (0 < (max_sh_degree s + 1) * (max_sh_degree s + 1))%nat by nia. lia. }
  split; [|reflexivity].
  unfold shape0 in *. cbn [rows]. rewrite zip_with_length, Ldc, Lrest. apply Nat.min_id.
Qed.

Lemma get_features_all_coefficients_witness :
  wf Demo.seen /\
  exists t, get_features Demo.seen = Some t /\ dims t = [4%nat; 3%nat].
Proof.
  split; [exact demo_seen_wf|].
  destruct (@get_features_all_coefficients Demo.seen demo_seen_wf) as (t & Ht & Hd & _).
  exists t. split; [exact Ht|]. rewrite Hd. reflexivity.
Defined.

(** * Adam's moments through a resize *)

(** The state that Adam's first step creates for a parameter, before its
    update: two moments of zeros, [zeros_like] the parameter. *)
Definition adam_first_state (g : param_group) : param_group :=
  mkGroup (name g) (param g) (Some (mkAdam (zeros_like (param g)) (zeros_like (param g)))).

Definition with_adam_state (self : GaussianModel) : GaussianModel :=
  {| active_sh_degree := active_sh_degree self;
     max_sh_degree := max_sh_degree self;
     _normal := _normal self;
     _score := _score self;
     _type := _type self;
     _scene_scale := _scene_scale self;
     _xyz := _xyz self;
     _xyz_id := _xyz_id self;
     modify_id := modify_id self;
     _features_dc := _features_dc self;
     _features_rest := _features_rest self;
     _scaling := _scaling self;
     _rotation := _rotation self;
     _opacity := _opacity self;
     max_radii2D := max_radii2D self;
     xyz_gradient_accum := xyz_gradient_accum self;
     position_gradient_accum := position_gradient_accum self;
     denom := denom self;
     optimizer := option_map (map adam_first_state) (optimizer self);
     percent_dense := percent_dense self;
     spatial_lr_scale := spatial_lr_scale self |}.

Lemma wf_with_adam_state (s : GaussianModel) : wf s -> wf (with_adam_state s).
Proof.
  intros [Hg Hx Hdc Hrest Hop Hsc Hrot Hty Hscore Hxga Hpga Hden Hrad Hid].
  constructor; try assumption.
  destruct Hg as (groups & Ho & Hn & Hp & Hm).
  exists (map adam_first_state groups). cbn [with_adam_state optimizer]. rewrite Ho.
  split; [reflexivity|].
  split; [rewrite map_map; exact Hn|].
  split.
  { destruct groups as [|g groups]; [discriminate Hn|]. cbn [map tl] in *.
    rewrite map_map. exact Hp. }
  apply Forall_map, Forall_forall. intros g _. unfold moments_ok, same_shape, shape0. cbn.
  rewrite length_map. repeat split; reflexivity.
Qed.

(** The rows of a moment after new entries were appended: the old rows,
    then [k] rows of zeros. *)
Definition moment_extended (k : nat) (old new : tensor) : Prop :=
  firstn (shape0 old) (rows new) = rows old /\
  length (skipn (shape0 old) (rows new)) = k /\
  Forall (Forall (fun v => v = F32.zero)) (skipn (shape0 old) (rows new)).

Lemma moment_extended_append (k : nat) (old ext : tensor) :
  shape0 ext = k -> moment_extended k old (append_tensor old (zeros_like ext)).
Proof.
  intros Hk. unfold moment_extended, append_tensor, shape0 in *. cbn [rows].
  rewrite firstn_app, firstn_all, Nat.sub_diag, app_nil_r.
  rewrite skipn_app, skipn_all, Nat.sub_diag. cbn [skipn app].
  split; [reflexivity|]. split.
  - unfold zeros_like. cbn. rewrite length_map. exact Hk.
  - unfold zeros_like. cbn. apply Forall_map, Forall_forall. intros r _.
    apply Forall_map, Forall_forall. reflexivity.
Qed.

(** What a resize by [densification_postfix] does to one group. *)
Definition group_extended (k : nat) (g g' : param_group) : Prop :=
  name g' = name g /\
  if is_scene_scale g then g' = g
  else match stored_state g, stored_state g' with
       | None, None => True
       | Some st, Some st' =>
           moment_extended k (exp_avg st) (exp_avg st') /\
           moment_extended k (exp_avg_sq st) (exp_avg_sq st')
       | _, _ => False
       end.

(** What [prune_points] does to one group, [m] being the entries kept. *)
Definition group_filtered (m : list bool) (g g' : param_group) : Prop :=
  name g' = name g /\
  if is_scene_scale g then g' = g
  else match stored_state g, stored_state g' with
       | None, None => True
       | Some st, Some st' =>
           rows (exp_avg st') = select m (rows (exp_avg st)) /\
           rows (exp_avg_sq st') = select m (rows (exp_avg_sq st))
       | _, _ => False
       end.

Lemma group_extended_extend (td : dict) (g : param_group) (ext : tensor) (k : nat) :
  is_scene_scale g = false -> dict_get td (name g) = Some ext -> shape0 ext = k ->
  group_extended k g (extend_group td g).
Proof.
  intros Hs Hd Hk. rewrite (extend_group_other _ _ Hs Hd). unfold group_extended.
  cbn [name stored_state]. rewrite Hs. split; [reflexivity|].
  destruct (stored_state g) as [st|]; cbn [option_map]; [|exact I].
  split; apply moment_extended_append; exact Hk.
Qed.

Lemma group_filtered_keep (m : list bool) (g : param_group) :
  group_filtered m g (keep_group m g).
Proof.
  unfold group_filtered, keep_group. destruct (is_scene_scale g) eqn:Hs.
  - split; reflexivity.
  - cbn [name stored_state]. split; [reflexivity|].
    destruct (stored_state g); cbn; [split; reflexivity|exact I].
Qed.

(** X11.  On a store with an initialised optimizer, [densification_postfix] with
    [k] new entries and [prune_points] keep Adam's state aligned with the
    arrays: groups keep their names; the [scene_scale] group is untouched;
    a group without state stays without; the moments of a group with state
    keep the old rows and get [k] rows of zeros for the new entries, resp.
    keep exactly the rows of the primitives that are kept. *)
Theorem adam_moments_follow_resize (s : GaussianModel) (groups : list param_group) :
  wf s -> optimizer s = Some groups ->
  (forall x k, extension_fits s x k ->
     exists s' groups',
       densification_postfix s (new_xyz x) (new_features_dc x) (new_features_rest x)
         (new_opacities x) (new_scaling x) (new_rotation x) (new_score x)
         (new_xyz_id x) (new_type x) = Some s' /\
       optimizer s' = Some groups' /\ Forall2 (group_extended k) groups groups') /\
  (forall mask, length mask = population s ->
     exists s' groups',
       prune_points s mask = Some s' /\
       optimizer s' = Some groups' /\
       Forall2 (group_filtered (logical_not mask)) groups groups').
Proof.
  intros H Ho. split.
  - intros x k Hfit. rewrite (densification_postfix_spec H Hfit).
    eexists. eexists. split; [reflexivity|].
    cbn [extend_model optimizer]. rewrite Ho. cbn [option_map]. split; [reflexivity|].
    destruct H as [Hgr _ _ _ _ _ _ _ _ _ _ _ _ _].
    destruct Hgr as (groups0 & Ho0 & Hn & Hp & Hm).
    rewrite Ho in Ho0. injection Ho0 as <-.
    destruct groups as [|[n0 p0 st0] [|[n1 p1 st1] [|[n2 p2 st2] [|[n3 p3 st3] [|[n4 p4 st4]
                       [|[n5 p5 st5] [|[n6 p6 st6] [|? ?]]]]]]]]; try discriminate Hn.
    cbn in Hn. injection Hn as -> -> -> -> -> -> ->.
    destruct Hfit as [[_ F1] [_ F2] [_ F3] [_ F4] [_ F5] [_ F6] _ _ _].
    cbn [map].
    constructor; [split; reflexivity|].
    constructor; [apply group_extended_extend with (ext := new_xyz x);
                  [reflexivity|reflexivity|exact F1]|].
    constructor; [apply group_extended_extend with (ext := new_features_dc x);
                  [reflexivity|reflexivity|exact F2]|].
    constructor; [apply group_extended_extend with (ext := new_features_rest x);
                  [reflexivity|reflexivity|exact F3]|].
    constructor; [apply group_extended_extend with (ext := new_opacities x);
                  [reflexivity|reflexivity|exact F4]|].
    constructor; [apply group_extended_extend with (ext := new_scaling x);
                  [reflexivity|reflexivity|exact F5]|].
    constructor; [apply group_extended_extend with (ext := new_rotation x);
                  [reflexivity|reflexivity|exact F6]|].
    constructor.
  - intros mask Hl. rewrite prune_points_spec by assumption.
    eexists. eexists. split; [reflexivity|].
    cbn [keep_model optimizer]. rewrite Ho. cbn [option_map]. split; [reflexivity|].
    clear. induction groups as [|g groups IH]; cbn [map]; constructor;
      [apply group_filtered_keep|exact IH].
Qed.

(** The store [Demo.seen] after Adam's first step created its state. *)
Definition demo_stepped : GaussianModel := with_adam_state Demo.seen.

Lemma demo_stepped_wf : wf demo_stepped.
Proof. apply wf_with_adam_state, demo_seen_wf. Qed.

Lemma demo_stepped_optimizer :
  optimizer demo_stepped = Some (from_some (optimizer demo_stepped) []).
Proof. reflexivity. Qed.

Lemma adam_moments_follow_resize_witness :
  wf demo_stepped /\
  optimizer demo_stepped = Some (from_some (optimizer demo_stepped) []) /\
  exists s', prune_points demo_stepped [true; false; false; true] = Some s'.
Proof.
  split; [exact demo_stepped_wf|]. split; [exact demo_stepped_optimizer|].
  destruct (@adam_moments_follow_resize demo_stepped _ demo_stepped_wf
              demo_stepped_optimizer) as [_ Hp].
  destruct (Hp [true; false; false; true]) as (s' & g' & Hs & _); [vm_compute; reflexivity|].
  exists s'. exact Hs.
Defined.

Lemma demo_opacity_group :
  opacity_group Demo.seen = Some (from_some (opacity_group Demo.seen) (mkGroup EmptyString empty0 None)).
Proof. reflexivity. Qed.

Lemma demo_stepped_opacity_group :
  opacity_group demo_stepped =
  Some (from_some (opacity_group demo_stepped) (mkGroup EmptyString empty0 None)).
Proof. reflexivity. Qed.

Lemma reset_opacity_needs_adam_state_witness :
  wf Demo.seen /\ wf demo_stepped /\
  reset_opacity (E := Ref.externals) Demo.seen = None /\
  exists s', reset_opacity (E := Ref.externals) demo_stepped = Some s' /\ wf s'.
Proof.
  split; [exact demo_seen_wf|]. split; [exact demo_stepped_wf|].
  destruct (@reset_opacity_needs_adam_state Ref.externals Demo.seen _ demo_seen_wf
              demo_opacity_group) as [Hnone _].
  destruct (@reset_opacity_needs_adam_state Ref.externals demo_stepped _ demo_stepped_wf
              demo_stepped_opacity_group) as [_ Hsome].
  split; [apply Hnone; reflexivity|].
  destruct Hsome as (s' & g' & Hs & Hw & _); [vm_compute; discriminate|].
  exists s'. split; [exact Hs|exact Hw].
Defined.

(** * The element that [save_ply] writes *)

Lemma NoDup_by_prefix (p : string) (a b : list string) :
  Forall (fun x => startswith p x = true) a -> Forall (fun x => startswith p x = false) b ->
  NoDup a -> NoDup b -> NoDup (a ++ b).
Proof.
  intros Ha Hb Na Nb. apply NoDup_app; [exact Na|exact Nb|].
  intros x Hx Hin. rewrite Forall_forall in Ha, Hb.
  pose proof (Ha x Hx) as H1. pose proof (Hb x Hin) as H2. congruence.
Qed.

Ltac prefix_free :=
  repeat first
    [ apply Forall_nil
    | apply Forall_cons; [reflexivity|]
    | apply Forall_app; split
    | apply Forall_fmt; intros; reflexivity ].

Lemma attribute_names_distinct (n_dc n_rest k m : nat) :
  NoDup (["x"; "y"; "z"; "nx"; "ny"; "nz"]%string
         ++ map (fmt "f_dc_") (seq 0 n_dc)
         ++ map (fmt "f_rest_") (seq 0 n_rest)
         ++ ["opacity"%string]
         ++ map (fmt "scale_") (seq 0 k)
         ++ map (fmt "rot_") (seq 0 m)
         ++ ["type"%string]).
Proof.
  assert (N7 : NoDup ["type"%string]) by (repeat constructor; cbn; intuition).
  assert (N6 : NoDup (map (fmt "rot_") (seq 0 m) ++ ["type"%string])).
  { apply NoDup_by_prefix with (p := "rot_"%string);
      [prefix_free|prefix_free|apply (NoDup_fmt "rot")|exact N7]. }
  assert (N5 : NoDup (map (fmt "scale_") (seq 0 k) ++ map (fmt "rot_") (seq 0 m)
                      ++ ["type"%string])).
  { apply NoDup_by_prefix with (p := "scale_"%string);
      [prefix_free|prefix_free|apply (NoDup_fmt "scale")|exact N6]. }
  assert (N4 : NoDup (["opacity"%string] ++ map (fmt "scale_") (seq 0 k)
                      ++ map (fmt "rot_") (seq 0 m) ++ ["type"%string])).
  { apply NoDup_by_prefix with (p := "opacity"%string);
      [prefix_free|prefix_free|repeat constructor; cbn; intuition|exact N5]. }
  assert (N3 : NoDup (map (fmt "f_rest_") (seq 0 n_rest) ++ ["opacity"%string]
                      ++ map (fmt "scale_") (seq 0 k)
                      ++ map (fmt "rot_") (seq 0 m) ++ ["type"%string])).
  { apply NoDup_by_prefix with (p := "f_rest_"%string);
      [prefix_free|prefix_free|apply (NoDup_fmt "f_rest")|exact N4]. }
  assert (N2 : NoDup (map (fmt "f_dc_") (seq 0 n_dc) ++ map (fmt "f_rest_") (seq 0 n_rest)
                      ++ ["opacity"%string] ++ map (fmt "scale_") (seq 0 k)
                      ++ map (fmt "rot_") (seq 0 m) ++ ["type"%string])).
  { apply NoDup_by_prefix with (p := "f_dc_"%string);
      [prefix_free|prefix_free|apply (NoDup_fmt "f_dc")|exact N3]. }
  change (NoDup (["x"%string] ++ ["y"%string] ++ ["z"%string] ++ ["nx"%string]
                 ++ ["ny"%string] ++ ["nz"%string]
                 ++ map (fmt "f_dc_") (seq 0 n_dc) ++ map (fmt "f_rest_") (seq 0 n_rest)
                 ++ ["opacity"%string] ++ map (fmt "scale_") (seq 0 k)
                 ++ map (fmt "rot_") (seq 0 m) ++ ["type"%string])).
  assert (N1 : forall nm : string, NoDup [nm]) by (intros; repeat constructor; cbn; intuition).
  apply NoDup_by_prefix with (p := "x"%string); [prefix_free|prefix_free|apply N1|].
  apply NoDup_by_prefix with (p := "y"%string); [prefix_free|prefix_free|apply N1|].
  apply NoDup_by_prefix with (p := "z"%string); [prefix_free|prefix_free|apply N1|].
  apply NoDup_by_prefix with (p := "nx"%string); [prefix_free|prefix_free|apply N1|].
  apply NoDup_by_prefix with (p := "ny"%string); [prefix_free|prefix_free|apply N1|].
  apply NoDup_by_prefix with (p := "nz"%string); [prefix_free|prefix_free|apply N1|].
  exact N2.
Qed.

Section Written.
Variables (s : GaussianModel) (normals : tensor) (k m : nat).
Hypothesis H : ply_ready s normals k m.

Let e : PlyElement :=
  mkPly (block_names (ply_blocks s normals k m))
        (map (map f4) (block_rows (population s) (ply_blocks s normals k m))).

Lemma gather_normals :
  gather e ["nx"; "ny"; "nz"]%string = Some (map (map f4) (rows normals)).
Proof.
  apply (@gather_names (population s)
           [ (["x"; "y"; "z"]%string, rows (_xyz s)) ] _
           (["nx"; "ny"; "nz"]%string, rows normals)).
  - apply (ply_blocks_ok H).
  - repeat constructor; cbn; intuition discriminate.
  - repeat constructor; cbn; intuition discriminate.
Qed.

Lemma gather_type :
  gather e ["type"%string] = Some (map (map f4) (rows (_type s))).
Proof.
  apply (@gather_names (population s)
           [ (["x"; "y"; "z"]%string, rows (_xyz s));
             (["nx"; "ny"; "nz"]%string, rows normals);
             (map (fmt "f_dc_") (seq 0 (1 * 3)),
              map (transpose_flat 1 3) (rows (_features_dc s)));
             (map (fmt "f_rest_") (seq 0 (rest_coeffs s * 3)),
              map (transpose_flat (rest_coeffs s) 3) (rows (_features_rest s)));
             (["opacity"%string], rows (_opacity s));
             (map (fmt "scale_") (seq 0 k), rows (_scaling s));
             (map (fmt "rot_") (seq 0 m), rows (_rotation s)) ] []
           (["type"%string], rows (_type s))).
  - apply (ply_blocks_ok H).
  - repeat constructor; cbn; intuition.
  - apply not_in_by_prefix with (p := "type"%string); [repeat constructor|].
    unfold block_names. cbn [map fst concat app]. rewrite app_nil_r.
    prefix_free.
Qed.

End Written.

(** X12.  [save_ply] on a store that it can write: the element has one vertex
    per primitive and one value per property in every vertex; the
    [3 (d + 1)^2 + 8 + k + m] property names are pairwise distinct; the
    normal columns hold the stored normals, the last column the type. *)
Theorem save_ply_writes_table (s : GaussianModel) (normals : tensor) (k m : nat) :
  ply_ready s normals k m ->
  exists e,
    save_ply s = Some e /\
    NoDup (properties e) /\
    length (properties e) =
      (3 * ((max_sh_degree s + 1) * (max_sh_degree s + 1)) + 8 + k + m)%nat /\
    length (vertices e) = population s /\
    Forall (fun v => length v = length (properties e)) (vertices e) /\
    gather e ["nx"; "ny"; "nz"]%string = Some (map (map f4) (rows normals)) /\
    gather e ["type"%string] = Some (map (map f4) (rows (_type s))).
Proof.
  intros H. pose proof (ply_blocks_ok H) as Hok.
  eexists. split; [apply (save_ply_blocks H)|]. cbn [properties vertices].
  assert (Hnames : block_names (ply_blocks s normals k m) =
                   (["x"; "y"; "z"; "nx"; "ny"; "nz"]%string
                    ++ map (fmt "f_dc_") (seq 0 (1 * 3))
                    ++ map (fmt "f_rest_") (seq 0 (rest_coeffs s * 3))
                    ++ ["opacity"%string]
                    ++ map (fmt "scale_") (seq 0 k)
                    ++ map (fmt "rot_") (seq 0 m)
                    ++ ["type"%string])).
  { unfold block_names, ply_blocks. cbn [map fst concat]. rewrite app_nil_r. reflexivity. }
  split; [rewrite Hnames; apply attribute_names_distinct|].
  split.
  { rewrite Hnames. rewrite !length_app, !length_map, !length_seq. cbn [length].
    unfold rest_coeffs.
    assert (0 < (max_sh_degree s + 1) * (max_sh_degree s + 1))%nat by nia. lia. }
  split; [rewrite length_map; apply block_rows_length, Hok|].
  split.
  { apply Forall_map. eapply Forall_impl; [|apply (block_rows_width Hok)].
    cbn. intros r Hr. rewrite length_map. exact Hr. }
  split; [apply (gather_normals H)|apply (gather_type H)].
Qed.

(** * The sampling script [createPCFromGSP.py] *)

Section Script.
Context {E : Externals}.






End Script.

(** * A threshold that is not a number *)

Section NaNThreshold.
Context {E : Externals}.


End NaNThreshold.


(** * Files that lack a property *)

Lemma index_of_missing (nm : string) (l : list string) : ~ In nm l -> index_of nm l = None.
Proof.
  induction l as [|x l IH]; intros H; [reflexivity|]. cbn [index_of].
  destruct (String.eqb_spec nm x) as [->|_]; [exfalso; apply H; left; reflexivity|].
  rewrite IH by (intros Hin; apply H; right; exact Hin). reflexivity.
Qed.

Lemma sequence_none {A} (l1 l2 : list (option A)) : sequence (l1 ++ None :: l2) = None.
Proof.
  induction l1 as [|[a|] l1 IH]; cbn [app sequence bind]; [reflexivity| |reflexivity].
  rewrite IH. reflexivity.
Qed.

Lemma gather_missing (e : PlyElement) (names : list string) (nm : string) :
  In nm names -> ~ In nm (properties e) -> gather e names = None.
Proof.
  intros Hin Hmiss. unfold gather.
  apply in_split in Hin as (l1 & l2 & ->).
  rewrite map_app. cbn [map]. rewrite (@index_of_missing nm (properties e) Hmiss), sequence_none. reflexivity.
Qed.

(** X15.  [load_ply] reads the columns x, y, z, opacity, f_dc_0, f_dc_1 and
    f_dc_2 by name: an element that lacks one of them is refused, as is
    every element written by [createPCFromGSP.py], which has no opacity. *)
Theorem load_ply_needs_columns (loader : GaussianModel) (e : PlyElement) (nm : string) :
  In nm ["x"; "y"; "z"; "opacity"; "f_dc_0"; "f_dc_1"; "f_dc_2"]%string ->
  ~ In nm (properties e) ->
  load_ply loader e = None.
Proof.
  intros Hin Hmiss. unfold load_ply.
  destruct (gather e ["x"; "y"; "z"]%string) as [xyz|] eqn:Gx; [|reflexivity].
  destruct (gather e ["opacity"%string]) as [op|] eqn:Go; [|reflexivity].
  destruct (gather e ["f_dc_0"; "f_dc_1"; "f_dc_2"]%string) as [dc|] eqn:Gd; [|reflexivity].
  exfalso. cbn [In] in Hin.
  destruct Hin as [<-|[<-|[<-|[<-|[<-|[<-|[<-|[]]]]]]]].
  - rewrite (@gather_missing e _ "x"%string) in Gx; [discriminate|cbn; tauto|exact Hmiss].
  - rewrite (@gather_missing e _ "y"%string) in Gx; [discriminate|cbn; tauto|exact Hmiss].
  - rewrite (@gather_missing e _ "z"%string) in Gx; [discriminate|cbn; tauto|exact Hmiss].
  - rewrite (@gather_missing e _ "opacity"%string) in Go; [discriminate|cbn; tauto|exact Hmiss].
  - rewrite (@gather_missing e _ "f_dc_0"%string) in Gd; [discriminate|cbn; tauto|exact Hmiss].
  - rewrite (@gather_missing e _ "f_dc_1"%string) in Gd; [discriminate|cbn; tauto|exact Hmiss].
  - rewrite (@gather_missing e _ "f_dc_2"%string) in Gd; [discriminate|cbn; tauto|exact Hmiss].
Qed.


Lemma save_ply_writes_table_witness :
  ply_ready Demo.densified demo_normals 3 4 /\
  exists e, save_ply Demo.densified = Some e /\ NoDup (properties e) /\
            length (properties e) = 27%nat.
Proof.
  split; [exact demo_ply_ready|].
  destruct (@save_ply_writes_table Demo.densified demo_normals 3 4 demo_ply_ready)
    as (e & He & Hn & Hl & _).
  exists e. split; [exact He|]. split; [exact Hn|]. rewrite Hl. vm_compute. reflexivity.
Defined.

Lemma script_output_has_no_opacity :
  ~ In "opacity"%string ["x"; "y"; "z"; "nx"; "ny"; "nz"]%string.
Proof. cbn. intuition discriminate. Qed.

Lemma load_ply_needs_columns_witness :
  In "opacity"%string ["x"; "y"; "z"; "opacity"; "f_dc_0"; "f_dc_1"; "f_dc_2"]%string /\
  ~ In "opacity"%string ["x"; "y"; "z"; "nx"; "ny"; "nz"]%string /\
  load_ply (init 1)
    (mkPly ["x"; "y"; "z"; "nx"; "ny"; "nz"]%string
           [[F32.zero; F32.zero; F32.zero; F32.zero; F32.zero; F32.zero]]) = None.
Proof.
  assert (Hin : In "opacity"%string
                   ["x"; "y"; "z"; "opacity"; "f_dc_0"; "f_dc_1"; "f_dc_2"]%string)
    by (cbn; tauto).
  split; [exact Hin|]. split; [exact script_output_has_no_opacity|].
  apply (@load_ply_needs_columns (init 1) _ "opacity"%string Hin).
  exact script_output_has_no_opacity.
Defined.

(** * Two prunings in a row *)

(** The removal mask over the first population that two removal masks
    applied one after the other amount to: [m2] is read over the
    survivors of [m1]. *)
Fixpoint merge_masks (m1 m2 : list bool) : list bool :=
  match m1 with
  | [] => []
  | true :: m1' => true :: merge_masks m1' m2
  | false :: m1' =>
      match m2 with
      | b :: m2' => b :: merge_masks m1' m2'
      | [] => true :: merge_masks m1' []
      end
  end.

Lemma merge_masks_length (m1 m2 : list bool) : length (merge_masks m1 m2) = length m1.
Proof.
  revert m2. induction m1 as [|[] m1 IH]; intros m2; cbn; [reflexivity| |].
  - rewrite IH. reflexivity.
  - destruct m2; cbn; rewrite IH; reflexivity.
Qed.

Lemma merge_masks_count (m1 m2 : list bool) :
  length m2 = count_true (logical_not m1) ->
  count_true (merge_masks m1 m2) = (count_true m1 + count_true m2)%nat.
Proof.
  unfold count_true, logical_not. revert m2.
  induction m1 as [|[] m1 IH]; intros m2 H; cbn in *.
  - destruct m2; [reflexivity|discriminate].
  - rewrite IH by exact H. reflexivity.
  - destruct m2 as [|b m2]; [discriminate|]. injection H as H.
    destruct b; cbn; rewrite IH by exact H; lia.
Qed.

Lemma select_merge_masks {A} (m1 m2 : list bool) (l : list A) :
  select (logical_not m2) (select (logical_not m1) l) =
  select (logical_not (merge_masks m1 m2)) l.
Proof.
  revert m2 l. induction m1 as [|[] m1 IH]; intros m2 l.
  - cbn. apply select_nil_r.
  - destruct l as [|x l]; cbn; [apply select_nil_r|apply IH].
  - destruct l as [|x l]; [cbn; rewrite !select_nil_r; reflexivity|].
    destruct m2 as [|b m2].
    + cbn. rewrite <- IH. cbn. reflexivity.
    + cbn. destruct b; cbn; rewrite IH; reflexivity.
Qed.

Lemma keep_tensor_merge_masks (m1 m2 : list bool) (t : tensor) :
  keep_tensor (logical_not m2) (keep_tensor (logical_not m1) t) =
  keep_tensor (logical_not (merge_masks m1 m2)) t.
Proof. unfold keep_tensor. cbn. rewrite select_merge_masks. reflexivity. Qed.

Lemma keep_group_merge_masks (m1 m2 : list bool) (g : param_group) :
  keep_group (logical_not m2) (keep_group (logical_not m1) g) =
  keep_group (logical_not (merge_masks m1 m2)) g.
Proof.
  unfold keep_group at 2 3. destruct (is_scene_scale g) eqn:Hs.
  - unfold keep_group. rewrite Hs. reflexivity.
  - unfold keep_group, is_scene_scale in *. cbn [name param stored_state]. rewrite Hs.
    rewrite keep_tensor_merge_masks. f_equal.
    destruct (stored_state g) as [st|]; [|reflexivity]. cbn.
    rewrite !keep_tensor_merge_masks. reflexivity.
Qed.

Lemma keep_model_merge_masks (s : GaussianModel) (m1 m2 : list bool) :
  keep_model (keep_model s (logical_not m1)) (logical_not m2) =
  keep_model s (logical_not (merge_masks m1 m2)).
Proof.
  unfold keep_model. cbn.
  rewrite !keep_tensor_merge_masks, !select_merge_masks.
  f_equal. destruct (optimizer s) as [groups|]; [|reflexivity]. cbn. f_equal.
  rewrite map_map. apply map_ext. intros g. apply keep_group_merge_masks.
Qed.

(** X16.  Pruning composes: [prune_points] with a mask over the
    population, followed by [prune_points] with a mask over the survivors,
    leaves the store that one [prune_points] with the merged mask leaves,
    optimizer state included, and removes as many primitives as the two
    masks select together. *)
Theorem prune_points_twice (s : GaussianModel) (m1 m2 : list bool) :
  wf s ->
  length m1 = population s ->
  length m2 = (population s - count_true m1)%nat ->
  exists s',
    (s1 <- prune_points s m1 ;; prune_points s1 m2) = Some s' /\
    prune_points s (merge_masks m1 m2) = Some s' /\
    wf s' /\
    population s' = (population s - count_true m1 - count_true m2)%nat.
Proof.
  intros W H1 H2.
  assert (L1 : length (logical_not m1) = population s)
    by (rewrite logical_not_length; exact H1).
  pose proof (count_true_not m1) as C1. rewrite H1 in C1.
  assert (H2' : length m2 = count_true (logical_not m1)) by lia.
  assert (W1 : wf (keep_model s (logical_not m1))) by (apply wf_keep_model; assumption).
  assert (P1 : population (keep_model s (logical_not m1)) = count_true (logical_not m1))
    by (apply population_keep_model; exact L1).
  assert (L12 : length (merge_masks m1 m2) = population s)
    by (rewrite merge_masks_length; exact H1).
  assert (L12' : length (logical_not (merge_masks m1 m2)) = population s)
    by (rewrite logical_not_length; exact L12).
  exists (keep_model s (logical_not (merge_masks m1 m2))).
  split; [|split; [|split]].
  - rewrite (@prune_points_spec s m1 W H1). cbn [bind].
    rewrite (@prune_points_spec _ m2 W1) by congruence.
    rewrite keep_model_merge_masks. reflexivity.
  - apply prune_points_spec; assumption.
  - apply wf_keep_model; assumption.
  - rewrite population_keep_model by exact L12'.
    pose proof (count_true_not (merge_masks m1 m2)) as C12.
    rewrite merge_masks_count in C12 by exact H2'. rewrite L12 in C12. lia.
Qed.

Lemma demo_masks :
  length [true; false; false; false] = population Demo.seen /\
  length [false; true; false] =
    (population Demo.seen - count_true [true; false; false; false])%nat.
Proof. split; reflexivity. Qed.

Lemma prune_points_twice_witness :
  wf Demo.seen /\
  length [true; false; false; false] = population Demo.seen /\
  length [false; true; false] =
    (population Demo.seen - count_true [true; false; false; false])%nat /\
  exists s',
    prune_points Demo.seen (merge_masks [true; false; false; false] [false; true; false])
      = Some s' /\
    population s' = (population Demo.seen - 1 - 1)%nat.
Proof.
  split; [exact demo_seen_wf|]. split; [exact (proj1 demo_masks)|].
  split; [exact (proj2 demo_masks)|].
  destruct (@prune_points_twice Demo.seen [true; false; false; false] [false; true; false]
              demo_seen_wf (proj1 demo_masks) (proj2 demo_masks))
    as (s' & _ & Hs & _ & Hp).
  exists s'. split; [exact Hs|exact Hp].
Defined.

(** * Densifying a model read from a file *)

Lemma gather_length (e : PlyElement) (names : list string) (r : list row) :
  gather e names = Some r -> length r = length (vertices e).
Proof.
  unfold gather. destruct (sequence _) as [idx|]; [|discriminate].
  cbn [bind]. intros H. injection H as <-. apply length_map.
Qed.

(** What [load_ply] leaves as it was, and the population it installs. *)
Lemma load_ply_keeps (loader s : GaussianModel) (e : PlyElement) :
  load_ply loader e = Some s ->
  _score s = _score loader /\ _type s = _type loader /\ _xyz_id s = _xyz_id loader /\
  _normal s = _normal loader /\ optimizer s = optimizer loader /\
  population s = length (vertices e).
Proof.
  unfold load_ply.
  destruct (gather e ["x"; "y"; "z"]%string) as [xyz|] eqn:Gx; [|discriminate].
  destruct (gather e ["opacity"%string]) as [op|]; [|discriminate].
  destruct (gather e ["f_dc_0"; "f_dc_1"; "f_dc_2"]%string) as [dc|]; [|discriminate].
  cbn [bind].
  destruct (sorted_by_suffix (filter (startswith "f_rest_") (properties e))) as [fr|];
    [|discriminate].
  cbn [bind]. destruct (negb _); [discriminate|].
  destruct (gather e fr) as [fe|]; [|discriminate]. cbn [bind].
  destruct (sorted_by_suffix (filter (startswith "scale_") (properties e))) as [sn|];
    [|discriminate].
  cbn [bind]. destruct (gather e sn) as [sc|]; [|discriminate]. cbn [bind].
  destruct (sorted_by_suffix (filter (startswith "rot") (properties e))) as [rn|];
    [|discriminate].
  cbn [bind]. destruct (gather e rn) as [ro|]; [|discriminate]. cbn [bind].
  destruct (transpose12 _) as [fdc|]; [|discriminate]. cbn [bind].
  destruct (transpose12 _) as [frest|]; [|discriminate]. cbn [bind].
  intros H. injection H as <-. unfold population, shape0. cbn.
  repeat split; try reflexivity. apply (gather_length _ _ Gx).
Qed.

Section Scores.
Context {E : Externals}.

(** [densify_and_clone] indexes [_score] by its mask: with no score stored
    and at least one primitive it raises. *)
Lemma densify_and_clone_needs_scores (s : GaussianModel) (grads : tensor)
    (grad_threshold scene_extent : F) :
  rows (_score s) = [] -> (0 < population s)%nat ->
  densify_and_clone s grads grad_threshold scene_extent = None.
Proof.
  intros Hs Hp. unfold densify_and_clone.
  destruct (clone_mask s grads grad_threshold scene_extent) as [m|]; [|reflexivity].
  cbn [bind].
  destruct (tensor_index (_xyz s) m) as [x|] eqn:Hx; [|reflexivity]. cbn [bind].
  apply tensor_index_inv in Hx as [Lm _].
  destruct (tensor_index (_features_dc s) m); [|reflexivity]. cbn [bind].
  destruct (tensor_index (_features_rest s) m); [|reflexivity]. cbn [bind].
  destruct (tensor_index (_opacity s) m); [|reflexivity]. cbn [bind].
  destruct (tensor_index (_scaling s) m); [|reflexivity]. cbn [bind].
  destruct (tensor_index (_rotation s) m); [|reflexivity]. cbn [bind].
  unfold tensor_index at 1, index_mask. rewrite Hs, Lm. cbn [length].
  fold (population s). destruct (Nat.eqb_spec (population s) 0) as [H0|_]; [lia|].
  reflexivity.
Qed.

(** X17.  [load_ply] reads neither the type column that [save_ply] writes
    nor any score, and leaves the ids, the normal and the optimizer of
    the loading model as they are: a model without scores, such as a new
    one, that has read a file with at least one vertex cannot be
    densified, [densify_and_prune] raises after [training_setup]. *)
Theorem loaded_model_cannot_densify (loader s : GaussianModel) (e : PlyElement)
    (percent_dense_arg max_grad min_opacity extent : F) (max_screen_size : option F)
    (z : nat -> nat -> F) :
  load_ply loader e = Some s ->
  rows (_score loader) = [] -> vertices e <> [] ->
  _type s = _type loader /\ _score s = _score loader /\ _xyz_id s = _xyz_id loader /\
  _normal s = _normal loader /\ optimizer s = optimizer loader /\
  densify_and_prune (training_setup s percent_dense_arg) max_grad min_opacity extent
    max_screen_size z = None.
Proof.
  intros Hl Hs Hv.
  destruct (load_ply_keeps _ _ Hl) as (Ksc & Kty & Kid & Kn & Ko & Kp).
  repeat (split; [assumption|]).
  unfold densify_and_prune.
  destruct (densify_grads (training_setup s percent_dense_arg)) as [grads|]; [|reflexivity].
  cbn [bind]. rewrite densify_and_clone_needs_scores; [reflexivity| |].
  - cbn. rewrite Ksc. exact Hs.
  - change (0 < population s)%nat. rewrite Kp. destruct (vertices e); [contradiction|cbn; lia].
Qed.

End Scores.

(** A file of one vertex for a model of SH degree 1. *)
Definition demo_file : PlyElement :=
  mkPly (["x"; "y"; "z"; "nx"; "ny"; "nz"]%string
         ++ map (fmt "f_dc_") (seq 0 3) ++ map (fmt "f_rest_") (seq 0 9)
         ++ ["opacity"%string] ++ map (fmt "scale_") (seq 0 3) ++ map (fmt "rot_") (seq 0 4)
         ++ ["type"%string])
        [repeat F32.one 27].

Lemma demo_file_loads :
  load_ply (init 1) demo_file = Some (from_some (load_ply (init 1) demo_file) (init 1)).
Proof. vm_compute. reflexivity. Qed.

Lemma demo_file_vertex : vertices demo_file <> [].
Proof. discriminate. Qed.

Lemma loaded_model_cannot_densify_witness :
  load_ply (init 1) demo_file = Some (from_some (load_ply (init 1) demo_file) (init 1)) /\
  rows (_score (init 1)) = [] /\ vertices demo_file <> [] /\
  densify_and_prune (E := Ref.externals)
    (training_setup (from_some (load_ply (init 1) demo_file) (init 1)) (Demo.f 1 100))
    (Demo.f 1 100) (Demo.f 5 1000) (Demo.f 10 1) None Demo.z = None.
Proof.
  split; [exact demo_file_loads|]. split; [reflexivity|]. split; [exact demo_file_vertex|].
  apply (@loaded_model_cannot_densify Ref.externals (init 1) _ demo_file (Demo.f 1 100)
           (Demo.f 1 100) (Demo.f 5 1000) (Demo.f 10 1) None Demo.z
           demo_file_loads eq_refl demo_file_vertex).
Defined.
